(** * CityScapeSim: the simulation core, embedded and checked against its specification

    The development follows the TypeScript modules of
    [client/src/lib/gameEngine]: [types], [utils], [Zone], [WeatherManager],
    [HappinessManager], [TransportManager], [City], [PowerGridManager],
    [InfrastructureConnectivityManager] and [SimulationEngine].

    Conventions of the embedding.
    - Grid coordinates, loop counters, power capacities and demands are
      integers ([Z]); every capacity and demand the code produces is an
      integer (1000, 10 x {1,2,4,6} x {1, 2, 3/2}).
    - Every other JavaScript [number] (happiness, pollution, distances,
      probabilities, efficiencies) is a real ([R]); rounding of IEEE doubles
      is not modelled.
    - Objects mutated in place become explicit state: a method returns the
      new object next to its result.
    - [Math.random()], [Date.now()] and the static fields of
      [WeatherManager] live in a [World] threaded through a state monad.
    - A function that can end in an error returns an [option]: [None] is
      the TypeError of reading a property of [undefined], or the
      ReferenceError of reading a name that its module does not bind. *)

From Stdlib Require Import ZArith List Bool Reals Lra Lia Zfloor.
From stdpp Require Import base option list.

Local Open Scope Z_scope.

(** ** types.ts *)

Inductive ZoneType := RESIDENTIAL | COMMERCIAL | INDUSTRIAL.

Inductive InfrastructureType := road | power | water.

Inductive BuildingSize := SMALL | MEDIUM | LARGE | BLOCK_2X2.

Inductive BuildingType :=
  | HOUSE | APARTMENT | VILLA | SHOP | OFFICE | MALL | FACTORY | WAREHOUSE
  | POWERPLANT | HOSPITAL | SCHOOL | POLICE | PARK
  | RESIDENTIAL_BLOCK | COMMERCIAL_BLOCK | INDUSTRIAL_BLOCK.

Inductive ConnectivityStatus := bright | dim | dark.

Inductive WeatherType := SUNNY | CLOUDY | RAINY | STORMY | FOGGY.

#[global] Instance ZoneType_eq_dec : EqDecision ZoneType.
Proof. solve_decision. Defined.
#[global] Instance InfrastructureType_eq_dec : EqDecision InfrastructureType.
Proof. solve_decision. Defined.
#[global] Instance BuildingSize_eq_dec : EqDecision BuildingSize.
Proof. solve_decision. Defined.
#[global] Instance BuildingType_eq_dec : EqDecision BuildingType.
Proof. solve_decision. Defined.
#[global] Instance ConnectivityStatus_eq_dec : EqDecision ConnectivityStatus.
Proof. solve_decision. Defined.
#[global] Instance WeatherType_eq_dec : EqDecision WeatherType.
Proof. solve_decision. Defined.

(** Identifiers are template strings in the source; the embedding keeps the
    interpolated values.
    - [building_id now r]        is [`building_${Date.now()}_${Math.random()}`]
    - [block_building_id now x y] is [`block_building_${Date.now()}_${x}_${y}`]
    - [given_id n]               is an id that came with the input grid. *)
Inductive BuildingId :=
  | building_id (now : Z) (r : R)
  | block_building_id (now : Z) (blockX blockY : Z)
  | given_id (n : Z).

(** [zone_block now x y] is [`zone_block_${Date.now()}_${x}_${y}`];
    [empty_block_id] is the empty string. *)
Inductive BlockZoneId :=
  | zone_block (now : Z) (bx by_ : Z)
  | empty_block_id.

(** [power_source x y] is [`power_source_${x}_${y}`], [power_consumer x y]
    is [`power_consumer_${x}_${y}`]. *)
Inductive NodeId :=
  | power_source (nx ny : Z)
  | power_consumer (nx ny : Z).

#[global] Instance NodeId_eq_dec : EqDecision NodeId.
Proof. solve_decision. Defined.

Inductive NodeType := source | consumer | transformer.

#[global] Instance NodeType_eq_dec : EqDecision NodeType.
Proof. solve_decision. Defined.

(** ** Numbers *)

(** The comparisons of the source, as booleans. *)
Definition Rltb (a b : R) : bool := if Rlt_dec a b then true else false.
Definition Rleb (a b : R) : bool := if Rle_dec a b then true else false.
Definition Rgtb (a b : R) : bool := Rltb b a.

(** ** modules/Building.ts *)

Module Building.

(** Modelled from the spec: Building.ts is not under src/.  A building is
    kept as the values its accessors return: identity, anchor position,
    zone-derived type, optional building type, size class, the block
    flag and footprint, and what [isServiceBuilding()] and
    [getServiceType()] answer (section 3, "Building"). *)
Record t := mk {
  id : BuildingId;
  x : Z;
  y : Z;
  type : ZoneType;
  size : BuildingSize;
  buildingType : option BuildingType;
  isBlock : bool;
  blockWidth : Z;
  blockHeight : Z;
  serviceBuilding : bool;
  serviceType : option BuildingType
}.

Definition getType (b : t) : ZoneType := type b.
Definition getSize (b : t) : BuildingSize := size b.
Definition getBuildingType (b : t) : option BuildingType := buildingType b.
Definition getIsBlock (b : t) : bool := isBlock b.
Definition isServiceBuilding (b : t) : bool := serviceBuilding b.
Definition getServiceType (b : t) : option BuildingType := serviceType b.

(** Modelled from the spec: the four-argument constructor used by
    [Zone.createBuilding]: a zone-derived building of the smallest size
    class, neither a block nor a service building (section 3: size runs
    small, medium, large under upgrade). *)
Definition new (id : BuildingId) (x y : Z) (type : ZoneType) : t :=
  mk id x y type SMALL None false 1 1 false None.

(** Modelled from the spec: the nine-argument constructor call of
    [City.createBlockBuilding]. *)
Definition newBlock (id : BuildingId) (x y : Z) (type : ZoneType)
    (size : BuildingSize) (buildingType : BuildingType) (isBlock : bool)
    (blockWidth blockHeight : Z) : t :=
  mk id x y type size (Some buildingType) isBlock blockWidth blockHeight
     false None.

Definition setSize (s : BuildingSize) (b : t) : t :=
  mk (id b) (x b) (y b) (type b) s (buildingType b) (isBlock b)
     (blockWidth b) (blockHeight b) (serviceBuilding b) (serviceType b).

(** Modelled from the spec: [upgrade()] (section 3 and 4.1): the size
    advances one step, small to medium to large; a large building and a
    block-2x2 building do not upgrade. The result tells whether the size
    changed. *)
Definition upgrade (b : t) : bool * t :=
  match size b with
  | SMALL => (true, setSize MEDIUM b)
  | MEDIUM => (true, setSize LARGE b)
  | LARGE => (false, b)
  | BLOCK_2X2 => (false, b)
  end.

(** Modelled from the spec: [fromJSON] rebuilds the value object from the
    plain record (section 6); [toJSON] is its inverse. *)
Definition fromJSON (b : t) : t := b.
Definition toJSON (b : t) : t := b.

(** The rank of a size class along the upgrade path. *)
Definition sizeRank (s : BuildingSize) : Z :=
  match s with SMALL => 0 | MEDIUM => 1 | LARGE => 2 | BLOCK_2X2 => 3 end.

End Building.

(** The derived figures of a building ([getPollution()], [getJobs()],
    [getPopulation()], [getConnectivityStatus(road, power, water)] and
    [getInfrastructureEfficiency(road, power, water)]) are computed by
    Building.ts from the state above; their tables are not under src/, so
    the embedding takes them as an interface and holds for every
    implementation of it. *)
Class BuildingStats := {
  Building_getPollution : Building.t -> R;
  Building_getJobs : Building.t -> R;
  Building_getPopulation : Building.t -> R;
  Building_getConnectivityStatus :
    Building.t -> bool -> bool -> bool -> ConnectivityStatus;
  Building_getInfrastructureEfficiency :
    Building.t -> bool -> bool -> bool -> R
}.

(** ** The world outside the grid *)

(** [randoms] is the sequence of values [Math.random()] will return, [drawn]
    counts the calls made so far, [clock] is [Date.now()], and the last two
    fields are the static state of [WeatherManager]. *)
Record World := mkWorld {
  randoms : nat -> R;
  drawn : nat;
  clock : Z;
  currentWeather : WeatherType;
  weatherDuration : Z
}.

Definition M (A : Type) : Type := World -> A * World.

#[global] Instance M_ret : MRet M := fun A a w => (a, w).
#[global] Instance M_bind : MBind M :=
  fun A B f m w => let '(a, w') := m w in f a w'.

(** [Math.random()] *)
Definition Math_random : M R :=
  fun w => (randoms w (drawn w),
            mkWorld (randoms w) (S (drawn w)) (clock w)
                    (currentWeather w) (weatherDuration w)).

(** [Date.now()] *)
Definition Date_now : M Z := fun w => (clock w, w).

Definition getWeather : M (WeatherType * Z) :=
  fun w => ((currentWeather w, weatherDuration w), w).

Definition putWeather (k : WeatherType) (d : Z) : M unit :=
  fun w => (tt, mkWorld (randoms w) (drawn w) (clock w) k d).

(** ** utils.ts *)

Definition clamp (value min max : R) : R := Rmin (Rmax value min) max.

(** [calculateDistance]: the Euclidean distance of two cells. *)
Definition distanceSq (x1 y1 x2 y2 : Z) : Z :=
  (x2 - x1) * (x2 - x1) + (y2 - y1) * (y2 - y1).

Definition calculateDistance (x1 y1 x2 y2 : Z) : R :=
  sqrt (IZR (distanceSq x1 y1 x2 y2)).

(** [calculateDistance(x1, y1, x2, y2) <= range] for an integer range,
    decided on the squares (see [distanceWithin_sqrt] below). *)
Definition distanceWithin (x1 y1 x2 y2 range : Z) : bool :=
  distanceSq x1 y1 x2 y2 <=? range * range.

(** The values of [for (let d = -r; d <= r; d++)]. *)
Definition offsets (r : Z) : list Z :=
  map (fun i => Z.of_nat i - r) (seq 0 (Z.to_nat (2 * r + 1))).

(** The pairs [(dx, dy)] of the nested loops
    [for dy = -r..r { for dx = -r..r { ... } }], in execution order. *)
Definition scanBox (r : Z) : list (Z * Z) :=
  dy ← offsets r; dx ← offsets r; [(dx, dy)].

(** The pairs [(x, y)] of [for y < h { for x < w { ... } }]. *)
Definition coords (w h : Z) : list (Z * Z) :=
  y ← seq 0 (Z.to_nat h); x ← seq 0 (Z.to_nat w); [(Z.of_nat x, Z.of_nat y)].

(** [a[y][x]] on an array of arrays; [None] is JavaScript's [undefined]. *)
Definition at2 {A} (a : list (list A)) (x y : Z) : option A :=
  if (x <? 0) || (y <? 0) then None
  else row ← a !! Z.to_nat y; row !! Z.to_nat x.

(** In-place update of [a[y][x]]. *)
Definition alter2 {A} (f : A -> A) (x y : Z) (a : list (list A)) :
    list (list A) :=
  if (x <? 0) || (y <? 0) then a
  else alter (alter f (Z.to_nat x)) (Z.to_nat y) a.

Definition GRID_WIDTH : Z := 50.
Definition GRID_HEIGHT : Z := 30.

(** [getNeighbors(x, y)] of utils.ts: the loop over [dx] is the outer
    one. *)
Definition getNeighbors (x y : Z) : list (Z * Z) :=
  dx ← offsets 1;
  dy ← offsets 1;
  if (dx =? 0) && (dy =? 0) then []
  else
    let nx := x + dx in
    let ny := y + dy in
    if (0 <=? nx) && (nx <? GRID_WIDTH) && (0 <=? ny) && (ny <? GRID_HEIGHT)
    then [(nx, ny)]
    else [].

(** [cell.infrastructure.includes(type)] *)
Definition includes (l : list InfrastructureType) (t : InfrastructureType) :
    bool :=
  bool_decide (t ∈ l).

(** [hasInfrastructure(cell, type)] and [hasAllBasicInfrastructure(cell)];
    both read only the [infrastructure] field of the cell, which is what
    they receive here. *)
Definition hasInfrastructure (infrastructure : list InfrastructureType)
    (type : InfrastructureType) : bool :=
  includes infrastructure type.

Definition hasAllBasicInfrastructure
    (infrastructure : list InfrastructureType) : bool :=
  hasInfrastructure infrastructure road
  && hasInfrastructure infrastructure power
  && hasInfrastructure infrastructure water.

(** [GridCell] of types.ts.  An optional boolean field that is absent reads
    as [false]; the other optional fields are options. *)
Record GridCell := mkCell {
  cell_x : Z;
  cell_y : Z;
  zoneType : option ZoneType;
  cell_infrastructure : list InfrastructureType;
  cell_building : option Building.t;
  cell_happiness : R;
  cell_pollution : R;
  isBlockZone : bool;
  cell_blockZoneId : option BlockZoneId;
  cell_blockZoneX : option Z;
  cell_blockZoneY : option Z;
  hasPower : bool;
  powerSource : option NodeId;
  powerCapacity : Z;
  powerDemand : Z;
  hasRoad : bool;
  hasWater : bool;
  connectivityStatus : option ConnectivityStatus;
  connectivityEfficiency : option R
}.

(** ** modules/Zone.ts *)

Module Zone.

Record t := mk {
  x : Z;
  y : Z;
  type : ZoneType;
  infrastructure : list InfrastructureType;
  building : option Building.t;
  happiness : R;
  pollution : R;
  blockZoneId : option BlockZoneId;
  blockZoneX : option Z;
  blockZoneY : option Z
}.

(** [type || ZoneType.RESIDENTIAL] *)
Definition orResidential (type : option ZoneType) : ZoneType :=
  match type with Some ty => ty | None => RESIDENTIAL end.

(** The constructor. *)
Definition new (x y : Z) (type : option ZoneType) : t :=
  mk x y (orResidential type) [] None 50 0 None None None.

Definition getX (z : t) : Z := x z.
Definition getY (z : t) : Z := y z.
(** The declared result type is [ZoneType | null]; the field it reads is a
    [ZoneType]. *)
Definition getType (z : t) : option ZoneType := Some (type z).
Definition getInfrastructure (z : t) : list InfrastructureType :=
  infrastructure z.
Definition getBuilding (z : t) : option Building.t := building z.
Definition getHappiness (z : t) : R := happiness z.
Definition getPollution (z : t) : R := pollution z.

Definition setType (type : option ZoneType) (z : t) : t :=
  mk (x z) (y z) (orResidential type) (infrastructure z) (building z)
     (happiness z) (pollution z) (blockZoneId z) (blockZoneX z)
     (blockZoneY z).

Definition setBuilding (b : option Building.t) (z : t) : t :=
  mk (x z) (y z) (type z) (infrastructure z) b (happiness z) (pollution z)
     (blockZoneId z) (blockZoneX z) (blockZoneY z).

Definition putHappiness (h : R) (z : t) : t :=
  mk (x z) (y z) (type z) (infrastructure z) (building z) h (pollution z)
     (blockZoneId z) (blockZoneX z) (blockZoneY z).

Definition putPollution (p : R) (z : t) : t :=
  mk (x z) (y z) (type z) (infrastructure z) (building z) (happiness z) p
     (blockZoneId z) (blockZoneX z) (blockZoneY z).

Definition putInfrastructure (l : list InfrastructureType) (z : t) : t :=
  mk (x z) (y z) (type z) l (building z) (happiness z) (pollution z)
     (blockZoneId z) (blockZoneX z) (blockZoneY z).

Definition setHappiness (happiness : R) (z : t) : t :=
  putHappiness (Rmax 0 (Rmin 100 happiness)) z.

Definition setPollution (pollution : R) (z : t) : t :=
  putPollution (Rmax 0 (Rmin 100 pollution)) z.

Definition getBlockZoneId (z : t) := blockZoneId z.
Definition getBlockZoneX (z : t) := blockZoneX z.
Definition getBlockZoneY (z : t) := blockZoneY z.
Definition isBlockZone (z : t) : bool :=
  match blockZoneId z with Some _ => true | None => false end.

Definition setBlockZoneId (i : option BlockZoneId) (z : t) : t :=
  mk (x z) (y z) (type z) (infrastructure z) (building z) (happiness z)
     (pollution z) i (blockZoneX z) (blockZoneY z).
Definition setBlockZoneX (bx : option Z) (z : t) : t :=
  mk (x z) (y z) (type z) (infrastructure z) (building z) (happiness z)
     (pollution z) (blockZoneId z) bx (blockZoneY z).
Definition setBlockZoneY (by_ : option Z) (z : t) : t :=
  mk (x z) (y z) (type z) (infrastructure z) (building z) (happiness z)
     (pollution z) (blockZoneId z) (blockZoneX z) by_.

(** Infrastructure management.  [push] appends. *)
Definition addInfrastructure (type : InfrastructureType) (z : t) :
    bool * t :=
  if negb (includes (infrastructure z) type)
  then (true, putInfrastructure (infrastructure z ++ [type]) z)
  else (false, z).

Definition removeInfrastructure (type : InfrastructureType) (z : t) : t :=
  putInfrastructure
    (filter (fun infra => infra <> type) (infrastructure z)) z.

Definition hasInfrastructure (type : InfrastructureType) (z : t) : bool :=
  includes (infrastructure z) type.

(** [hasAllBasicInfrastructure(this.toZoneCell())] *)
Definition hasAllBasicInfrastructure (z : t) : bool :=
  hasAllBasicInfrastructure (infrastructure z).

(** Growth logic. *)
Definition shouldCreateBuilding (z : t) : M bool :=
  if negb (hasAllBasicInfrastructure z) then mret false
  else
    let baseChance := 0.3%R in
    let infrastructureBonus :=
      (INR (length (infrastructure z)) * 0.1)%R in
    let happinessBonus := (happiness z / 200)%R in
    r ← Math_random;
    mret (Rltb r (baseChance + infrastructureBonus + happinessBonus)).

Definition createBuilding (buildingId : BuildingId) (z : t) :
    M (option Building.t * t) :=
  match building z with
  | Some _ => mret (None, z)
  | None =>
      go ← shouldCreateBuilding z;
      if go : bool then
        let b := Building.new buildingId (x z) (y z) (type z) in
        mret (Some b, setBuilding (Some b) z)
      else mret (None, z)
  end.

(** The [typeof ... !== 'function'] guards of the source hold for every
    [Building] instance and are left out. *)
Definition shouldUpgradeBuilding (z : t) : M bool :=
  match building z with
  | None => mret false
  | Some b =>
      if decide (Building.getSize b = LARGE) then mret false
      else
        let hasGoodInfrastructure := hasAllBasicInfrastructure z in
        let hasGoodHappiness := Rgtb (happiness z) 60 in
        if hasGoodInfrastructure && hasGoodHappiness then
          r ← Math_random; mret (Rltb r 0.2)
        else mret false
  end.

Definition upgradeBuilding (z : t) : M (bool * t) :=
  match building z with
  | None => mret (false, z)
  | Some b =>
      go ← shouldUpgradeBuilding z;
      if go : bool then
        let '(changed, b') := Building.upgrade b in
        mret (changed, setBuilding (Some b') z)
      else mret (false, z)
  end.


(** Happiness and pollution calculation. *)
Definition updateHappiness (neighboringBuildings localPollution
    nearbyJobs : R) (z : t) : t :=
  let happiness := 60%R in
  let happiness :=
    if hasAllBasicInfrastructure z then (happiness + 20)%R
    else (happiness - 10)%R in
  let happiness := (happiness - localPollution)%R in
  let happiness := (happiness + Rmin 10 (neighboringBuildings * 2))%R in
  let happiness :=
    if decide (type z = RESIDENTIAL) then (happiness + Rmin 15 nearbyJobs)%R
    else happiness in
  putHappiness (Rmax 0 (Rmin 100 happiness)) z.

(** The first argument is not read by the body. *)
Definition updatePollution `{BuildingStats} (buildingPollution
    nearbyIndustrialPollution : R) (z : t) : t :=
  let pollution := 0%R in
  let pollution :=
    match building z with
    | Some b => (pollution + Building_getPollution b)%R
    | None => pollution
    end in
  let pollution := (pollution + nearbyIndustrialPollution)%R in
  putPollution (Rmin 100 pollution) z.

(** Utility methods.  [ZoneCell] has no block fields. *)
Record ZoneCell := mkZoneCell {
  zc_x : Z;
  zc_y : Z;
  zc_zoneType : option ZoneType;
  zc_infrastructure : list InfrastructureType;
  zc_building : option Building.t;
  zc_happiness : R;
  zc_pollution : R
}.

Definition toZoneCell (z : t) : ZoneCell :=
  mkZoneCell (x z) (y z) (Some (type z)) (infrastructure z) (building z)
    (happiness z) (pollution z).

(** [fromZoneCell] assigns the fields directly: happiness and pollution
    are not clamped here. *)
Definition fromZoneCell (cell : ZoneCell) : t :=
  let zone := new (zc_x cell) (zc_y cell) (zc_zoneType cell) in
  mk (x zone) (y zone) (type zone) (zc_infrastructure cell)
     (match zc_building cell with
      | Some b => Some (Building.fromJSON b)
      | None => None
      end)
     (zc_happiness cell) (zc_pollution cell)
     (blockZoneId zone) (blockZoneX zone) (blockZoneY zone).

End Zone.

(** ** modules/WeatherManager.ts *)

Module WeatherManager.

Record WeatherEffect := mkEffect {
  effect_type : WeatherType;
  duration : Z;
  happinessModifier : R;
  pollutionModifier : R;
  growthModifier : R
}.

Definition WEATHER_EFFECTS (k : WeatherType) : WeatherEffect :=
  match k with
  | SUNNY => mkEffect SUNNY 5 5 (-2) 1.2
  | CLOUDY => mkEffect CLOUDY 3 0 0 1.0
  | RAINY => mkEffect RAINY 4 (-3) (-5) 0.8
  | STORMY => mkEffect STORMY 2 (-8) (-10) 0.5
  | FOGGY => mkEffect FOGGY 3 (-2) 3 0.9
  end.

Definition weatherChangeChance : R := 0.3.

(** [Object.values(WeatherType)] *)
Definition weatherTypes : list WeatherType :=
  [SUNNY; CLOUDY; RAINY; STORMY; FOGGY].

Definition getCurrentWeather : M WeatherType :=
  '(k, _) ← getWeather; mret k.

Definition getCurrentWeatherEffect : M WeatherEffect :=
  k ← getCurrentWeather; mret (WEATHER_EFFECTS k).

(** [Math.random()] lies in [0,1), so the index is one of 0..4; the
    embedding leaves the weather as it is at any other index. *)
Definition changeWeather : M unit :=
  r ← Math_random;
  let i := Zfloor (r * IZR (Z.of_nat (length weatherTypes))) in
  match (if i <? 0 then None else weatherTypes !! Z.to_nat i) with
  | Some newWeather =>
      putWeather newWeather (duration (WEATHER_EFFECTS newWeather))
  | None => mret tt
  end.

(** The random draw is made only when the duration has not run out. *)
Definition updateWeather : M unit :=
  '(k, d) ← getWeather;
  _ ← putWeather k (d - 1);
  if d - 1 <=? 0 then changeWeather
  else
    r ← Math_random;
    if Rltb r weatherChangeChance then changeWeather else mret tt.

(** [applyWeatherPollutionEffect(zone)], given the current effect. *)
Definition applyWeatherPollutionEffect `{BuildingStats}
    (effect : WeatherEffect) (zone : Zone.t) : Zone.t :=
  let currentPollution := Zone.getPollution zone in
  let newPollution :=
    Rmax 0 (Rmin 100 (currentPollution + pollutionModifier effect)) in
  Zone.updatePollution 0 (newPollution - currentPollution) zone.

Definition getGrowthModifier : M R :=
  e ← getCurrentWeatherEffect; mret (growthModifier e).

Definition canGrowInCurrentWeather : M bool :=
  effect ← getCurrentWeatherEffect;
  r ← Math_random;
  mret (Rltb r (growthModifier effect)).

(** [applyWeatherEffects(zones)].  [applyWeatherHappinessEffect] writes
    the happiness of the building object, which no function embedded here
    reads; the embedding keeps no such field and the call has no effect
    on the state it does keep. *)
Definition applyWeatherEffects `{BuildingStats}
    (zones : list (list Zone.t)) : M (list (list Zone.t)) :=
  effect ← getCurrentWeatherEffect;
  mret (map (map (applyWeatherPollutionEffect effect)) zones).

Definition setWeather (weatherType : WeatherType) (duration' : option Z) :
    M unit :=
  putWeather weatherType
    (match duration' with
     | Some d => if d =? 0 then duration (WEATHER_EFFECTS weatherType) else d
     | None => duration (WEATHER_EFFECTS weatherType)
     end).

(** [weatherTypes[Math.floor(r * weatherTypes.length)]]; [None] is
    [undefined]. *)
Definition pickWeather (r : R) : option WeatherType :=
  let i := Zfloor (r * IZR (Z.of_nat (length weatherTypes))) in
  if i <? 0 then None else weatherTypes !! Z.to_nat i.

(** The loop of [getWeatherForecast] with [turns] rounds to go.  The
    result is [None] where the source ends in a TypeError, reading
    [duration] of [WEATHER_EFFECTS[undefined]]. *)
Fixpoint forecastLoop (turns : nat) (currentWeather : WeatherType)
    (remainingDuration : Z) : M (option (list WeatherType)) :=
  match turns with
  | O => mret (Some [])
  | S turns' =>
      if 0 <? remainingDuration then
        rest ← forecastLoop turns' currentWeather (remainingDuration - 1);
        mret (cons currentWeather <$> rest)
      else
        r ← Math_random;
        match pickWeather r with
        | None => mret None
        | Some newWeather =>
            rest ← forecastLoop turns' newWeather
                     (duration (WEATHER_EFFECTS newWeather) - 1);
            mret (cons newWeather <$> rest)
        end
  end.

(** [getWeatherForecast(turns)] for a whole number of turns. *)
Definition getWeatherForecast (turns : Z) :
    M (option (list WeatherType)) :=
  '(k, d) ← getWeather;
  forecastLoop (Z.to_nat turns) k d.

Definition isSevereWeather : M bool :=
  k ← getCurrentWeather; mret (bool_decide (k = STORMY)).

End WeatherManager.

(** ** modules/HappinessManager.ts *)

(** The cells [(nx, ny)] that the neighbourhood loops
    [for dy = -radius..radius { for dx = -radius..radius { ... } }] reach
    past both guards, [nx >= 0 && nx < gridWidth && ny >= 0 && ny <
    gridHeight] and [distance <= radius], in execution order.  The loops
    then read [zones[ny][nx]] and skip the cell if it is undefined; the
    embedding also skips it where the row [zones[ny]] itself is missing,
    which in the source is a TypeError: the scans below agree with the
    source on arrays that have a row for every [ny < gridHeight]. *)
Definition inBounds (nx ny gridWidth gridHeight : Z) : bool :=
  (0 <=? nx) && (nx <? gridWidth) && (0 <=? ny) && (ny <? gridHeight).

Definition cellsWithin (x y radius gridWidth gridHeight : Z) :
    list (Z * Z) :=
  (fun d => (x + d.1, y + d.2)) <$>
    filter (fun d =>
              inBounds (x + d.1) (y + d.2) gridWidth gridHeight
              && distanceWithin x y (x + d.1) (y + d.2) radius = true)
           (scanBox radius).

Module HappinessManager.
Section WithStats.
Context `{BuildingStats}.

Definition BASE_HAPPINESS : R := 60.
Definition INFRASTRUCTURE_BONUS : R := 20.
Definition INFRASTRUCTURE_PENALTY : R := -10.
Definition NEIGHBOR_BONUS_PER_BUILDING : R := 2.
Definition MAX_NEIGHBOR_BONUS : R := 10.
Definition EMPLOYMENT_BONUS_PER_JOB : R := 1.
Definition MAX_EMPLOYMENT_BONUS : R := 15.
Definition POLLUTION_RADIUS : Z := 3.
Definition JOB_SEARCH_RADIUS : Z := 5.
Definition SERVICE_BUILDING_RADIUS : Z := 8.

Definition calculateZoneHappiness (zone : Zone.t)
    (neighboringBuildings localPollution nearbyJobs : R) : R :=
  let happiness := BASE_HAPPINESS in
  let happiness :=
    if Zone.hasAllBasicInfrastructure zone
    then (happiness + INFRASTRUCTURE_BONUS)%R
    else (happiness + INFRASTRUCTURE_PENALTY)%R in
  let happiness := (happiness - localPollution)%R in
  let happiness :=
    (happiness + Rmin MAX_NEIGHBOR_BONUS
       (neighboringBuildings * NEIGHBOR_BONUS_PER_BUILDING))%R in
  let happiness :=
    if decide (Zone.getType zone = Some RESIDENTIAL)
    then (happiness + Rmin MAX_EMPLOYMENT_BONUS
            (nearbyJobs * EMPLOYMENT_BONUS_PER_JOB))%R
    else happiness in
  clamp happiness 0 100.

Definition getServiceBuildingEffect (building : Building.t)
    (distance maxRadius : R) : R :=
  let distanceFactor := (1 - distance / maxRadius)%R in
  match Building.getServiceType building with
  | None => 0%R
  | Some PARK =>
      if Rleb distance 3 then (15 * distanceFactor)%R else 0%R
  | Some SCHOOL =>
      if Rleb distance 5 then (10 * distanceFactor)%R else 0%R
  | Some HOSPITAL => (8 * distanceFactor)%R
  | Some POWERPLANT =>
      if Rleb distance 2 then (-20)%R
      else if Rleb distance 5 then (5 * distanceFactor)%R
      else 0%R
  | Some _ => 0%R
  end.

Definition calculateServiceBuildingEffects (x y : Z)
    (zones : list (list Zone.t)) (gridWidth gridHeight : Z) : R :=
  let radius := SERVICE_BUILDING_RADIUS in
  fold_left
    (fun serviceBonus '(nx, ny) =>
       let distance := calculateDistance x y nx ny in
       match at2 zones nx ny with
       | Some neighborZone =>
           match Zone.getBuilding neighborZone with
           | Some building =>
               if Building.isServiceBuilding building then
                 (serviceBonus
                  + getServiceBuildingEffect building distance
                      (IZR radius))%R
               else serviceBonus
           | None => serviceBonus
           end
       | None => serviceBonus
       end)
    (cellsWithin x y radius gridWidth gridHeight) 0%R.

Definition calculateLocalPollution (x y : Z)
    (zones : list (list Zone.t)) (gridWidth gridHeight : Z) : R :=
  let radius := POLLUTION_RADIUS in
  fold_left
    (fun pollution '(nx, ny) =>
       let distance := calculateDistance x y nx ny in
       match at2 zones nx ny with
       | Some neighborZone =>
           match Zone.getBuilding neighborZone with
           | Some building =>
               if decide (Building.getType building = INDUSTRIAL) then
                 let distanceFactor := (1 - distance / IZR radius)%R in
                 (pollution
                  + Building_getPollution building * distanceFactor * 0.2)%R
               else pollution
           | None => pollution
           end
       | None => pollution
       end)
    (cellsWithin x y radius gridWidth gridHeight) 0%R.

Definition countNearbyJobs (x y : Z) (zones : list (list Zone.t))
    (gridWidth gridHeight : Z) : Z :=
  let radius := JOB_SEARCH_RADIUS in
  let jobs :=
    fold_left
      (fun jobs '(nx, ny) =>
         let distance := calculateDistance x y nx ny in
         match at2 zones nx ny with
         | Some neighborZone =>
             match Zone.getBuilding neighborZone with
             | Some building =>
                 if Rgtb (Building_getJobs building) 0 then
                   let distanceFactor := (1 - distance / IZR radius)%R in
                   (jobs + Building_getJobs building * distanceFactor * 0.1)%R
                 else jobs
             | None => jobs
             end
         | None => jobs
         end)
      (cellsWithin x y radius gridWidth gridHeight) 0%R in
  Zfloor jobs.

(** The eight neighbours; the centre is skipped and there is no distance
    guard. *)
Definition countNeighboringBuildings (x y : Z)
    (zones : list (list Zone.t)) (gridWidth gridHeight : Z) : Z :=
  fold_left
    (fun count '(dx, dy) =>
       if (dx =? 0) && (dy =? 0) then count
       else
         let nx := x + dx in
         let ny := y + dy in
         if inBounds nx ny gridWidth gridHeight then
           match at2 zones nx ny with
           | Some neighborZone =>
               match Zone.getBuilding neighborZone with
               | Some _ => count + 1
               | None => count
               end
           | None => count
           end
         else count)
    (scanBox 1) 0.

(** One iteration of the loop body of [updateAllZoneHappiness]. *)
Definition updateZoneHappinessAt (gridWidth gridHeight : Z)
    (zones : list (list Zone.t)) (xy : Z * Z) : list (list Zone.t) :=
  let '(x, y) := xy in
  match at2 zones x y with
  | None => zones
  | Some zone =>
      match Zone.getType zone with
      | None => zones
      | Some _ =>
          let neighboringBuildings :=
            countNeighboringBuildings x y zones gridWidth gridHeight in
          let localPollution :=
            calculateLocalPollution x y zones gridWidth gridHeight in
          let nearbyJobs :=
            countNearbyJobs x y zones gridWidth gridHeight in
          let serviceEffects :=
            calculateServiceBuildingEffects x y zones gridWidth gridHeight in
          let happiness :=
            calculateZoneHappiness zone (IZR neighboringBuildings)
              localPollution (IZR nearbyJobs) in
          let happiness := (happiness + serviceEffects)%R in
          let happiness := clamp happiness 0 100 in
          alter2 (Zone.setHappiness happiness) x y zones
      end
  end.

Definition updateAllZoneHappiness (zones : list (list Zone.t))
    (gridWidth gridHeight : Z) : list (list Zone.t) :=
  fold_left (updateZoneHappinessAt gridWidth gridHeight)
    (coords gridWidth gridHeight) zones.

(** [calculateAverageHappiness(zones)]: the zones counted are those with
    a building or a type, in the order of the loops over the rows; the
    average of no zone is 50. *)
Definition isCounted (zone : Zone.t) : bool :=
  match Zone.getBuilding zone, Zone.getType zone with
  | None, None => false
  | _, _ => true
  end.

Definition calculateAverageHappiness (zones : list (list Zone.t)) : R :=
  let counted := filter (fun zone => isCounted zone = true) (concat zones) in
  let totalHappiness :=
    fold_left (fun total zone => (total + Zone.getHappiness zone)%R)
              counted 0%R in
  let zonesWithBuildings := Z.of_nat (length counted) in
  if 0 <? zonesWithBuildings
  then (totalHappiness / IZR zonesWithBuildings)%R
  else 50%R.

End WithStats.
End HappinessManager.

(** ** modules/TransportManager.ts *)

Module TransportManager.

Definition MAX_CONNECTIVITY_RANGE : Z := 5.
Definition ROAD_EFFICIENCY : R := 0.8.
Definition POWER_EFFICIENCY : R := 0.9.
Definition WATER_EFFICIENCY : R := 0.85.

Definition calculateConnectivity (x y : Z) (zones : list (list Zone.t))
    (gridWidth gridHeight : Z) : R :=
  let range := MAX_CONNECTIVITY_RANGE in
  let connectivity :=
    fold_left
      (fun connectivity '(nx, ny) =>
         let distance := calculateDistance x y nx ny in
         match at2 zones nx ny with
         | Some neighborZone =>
             if 0 <? Z.of_nat (length (Zone.getInfrastructure neighborZone))
             then
               let distanceFactor := (1 - distance / IZR range)%R in
               (connectivity
                + distanceFactor
                  * INR (length (Zone.getInfrastructure neighborZone)))%R
             else connectivity
         | None => connectivity
         end)
      (cellsWithin x y range gridWidth gridHeight) 0%R in
  Rmin 100 connectivity.

Definition isWellConnected (x y : Z) (zones : list (list Zone.t))
    (gridWidth gridHeight : Z) : bool :=
  Rgtb (calculateConnectivity x y zones gridWidth gridHeight) 30.

(** The [switch] over one entry of the infrastructure list. *)
Definition infrastructureEfficiency (infra : InfrastructureType) : R :=
  match infra with
  | road => ROAD_EFFICIENCY
  | power => POWER_EFFICIENCY
  | water => WATER_EFFICIENCY
  end.

Definition calculateTransportEfficiency (zone : Zone.t)
    (zones : list (list Zone.t)) (gridWidth gridHeight : Z) : R :=
  let efficiency :=
    fold_left (fun efficiency infra =>
                 (efficiency + infrastructureEfficiency infra)%R)
              (Zone.getInfrastructure zone) 0%R in
  let connectivity :=
    calculateConnectivity (Zone.getX zone) (Zone.getY zone) zones
      gridWidth gridHeight in
  Rmin 1 (efficiency + connectivity / 100).

End TransportManager.

(** ** modules/City.ts *)

(** [SimulationUpdate] of types.ts.  Of [economics] the embedding keeps the
    population, the sum over the buildings handed to
    [EconomyManager.calculateEconomicStats]; the other economic figures are
    computed from the same arguments and are not needed below. *)
Record PowerGridSummary := mkPowerSummary {
  summary_totalCapacity : Z;
  summary_totalDemand : Z;
  summary_efficiency : R;
  isOverloaded : bool;
  shortageAreas : nat
}.

Record ConnectivitySummary := mkConnSummary {
  totalBuildings : Z;
  fullyConnected : Z;
  partiallyConnected : Z;
  poorlyConnected : Z;
  averageEfficiency : R;
  roadCoverage : R;
  powerCoverage : R;
  waterCoverage : R
}.

Record SimulationUpdate := mkUpdate {
  buildings : list Building.t;
  economics_population : R;
  update_happiness : R;
  update_pollution : R;
  powerGrid : option PowerGridSummary;
  connectivity : option ConnectivitySummary
}.

Module City.

Record t := mk {
  zones : list (list Zone.t);
  gridWidth : Z;
  gridHeight : Z
}.

(** The shape the constructor gives [zones] and every method keeps:
    [gridHeight] rows of [gridWidth] zones.  Where a loop of this class
    indexes [zones] without a guard the index is therefore defined; the
    embedding leaves the state as it is at an undefined index. *)
Definition wf (c : t) : Prop :=
  0 <= gridWidth c /\ 0 <= gridHeight c /\
  length (zones c) = Z.to_nat (gridHeight c) /\
  Forall (fun row => length row = Z.to_nat (gridWidth c)) (zones c).

Definition initializeZones (gridWidth gridHeight : Z) :
    list (list Zone.t) :=
  map (fun y =>
         map (fun x => Zone.new (Z.of_nat x) (Z.of_nat y) None)
             (seq 0 (Z.to_nat gridWidth)))
      (seq 0 (Z.to_nat gridHeight)).

(** [new City(gridWidth, gridHeight)] *)
Definition new (gridWidth gridHeight : Z) : t :=
  mk (initializeZones gridWidth gridHeight) gridWidth gridHeight.

Definition setZones (zs : list (list Zone.t)) (c : t) : t :=
  mk zs (gridWidth c) (gridHeight c).

Definition outOfBounds (x y : Z) (c : t) : bool :=
  (x <? 0) || (gridWidth c <=? x) || (y <? 0) || (gridHeight c <=? y).

(** [addZone].  [None] is the TypeError of reading [zones[y][x]] where it
    is undefined. *)
Definition addZone (x y : Z) (zoneType : ZoneType) (c : t) :
    option (bool * t) :=
  if outOfBounds x y c then Some (false, c)
  else
    zone ← at2 (zones c) x y;
    if decide (Zone.getType zone <> None) then Some (false, c)
    else Some (true, setZones (alter2 (Zone.setType (Some zoneType)) x y
                                 (zones c)) c).

(** [addInfrastructure], with the same reading of [None]. *)
Definition addInfrastructure (x y : Z) (type : InfrastructureType)
    (c : t) : option (bool * t) :=
  if outOfBounds x y c then Some (false, c)
  else
    zone ← at2 (zones c) x y;
    let '(added, zone') := Zone.addInfrastructure type zone in
    Some (added, setZones (alter2 (fun _ => zone') x y (zones c)) c).

Definition getZone (x y : Z) (c : t) : option Zone.t :=
  if outOfBounds x y c then None else at2 (zones c) x y.

Definition getZones (c : t) := zones c.
Definition getGridWidth (c : t) := gridWidth c.
Definition getGridHeight (c : t) := gridHeight c.

(** [canZoneGrow]: the weather draw is made whatever the other two
    conditions are. *)
Definition canZoneGrow (zone : Zone.t) : M bool :=
  let hasInfrastructure :=
    0 <? Z.of_nat (length (Zone.getInfrastructure zone)) in
  weatherAllowsGrowth ← WeatherManager.canGrowInCurrentWeather;
  let happinessThreshold := Rgtb (Zone.getHappiness zone) 30 in
  mret (hasInfrastructure && weatherAllowsGrowth && happinessThreshold).

(** The four cells of a block, in the order of the nested loops
    [for dy < 2 { for dx < 2 { ... } }]. *)
Definition blockCells (blockX blockY : Z) : list (Z * Z) :=
  [(blockX, blockY); (blockX + 1, blockY);
   (blockX, blockY + 1); (blockX + 1, blockY + 1)].

(** The first loop of [addZoneBlock]: [Some false] at the first cell
    that already has a type; [None] is the TypeError of reading an
    undefined zone. *)
Fixpoint blockFree (c : t) (cells : list (Z * Z)) : option bool :=
  match cells with
  | [] => Some true
  | (bx, by_) :: rest =>
      zone ← at2 (zones c) bx by_;
      if decide (Zone.getType zone <> None) then Some false
      else blockFree c rest
  end.

(** [addZoneBlock] *)
Definition addZoneBlock (x y : Z) (zoneType : ZoneType) (c : t) :
    M (option (bool * t)) :=
  if (x <? 0) || (gridWidth c <=? x + 1) || (y <? 0)
     || (gridHeight c <=? y + 1)
  then mret (Some (false, c))
  else
    match blockFree c (blockCells x y) with
    | None => mret None
    | Some false => mret (Some (false, c))
    | Some true =>
        now ← Date_now;
        let blockId := zone_block now x y in
        let mark zone :=
          Zone.setBlockZoneY (Some y)
            (Zone.setBlockZoneX (Some x)
               (Zone.setBlockZoneId (Some blockId)
                  (Zone.setType (Some zoneType) zone))) in
        mret (Some (true,
                    setZones
                      (fold_left (fun zs '(bx, by_) => alter2 mark bx by_ zs)
                                 (blockCells x y) (zones c))
                      c))
    end.

(** The scan shared by [canBlockZoneGrow] and [createBlockBuilding]: it
    stops at the first cell that is missing or lacks a basic
    infrastructure, and otherwise returns the happiness summed so far and
    the number of cells counted. *)
Fixpoint scanBlock (c : t) (cells : list (Z * Z)) (averageHappiness : R)
    (cellCount : Z) : option (R * Z) :=
  match cells with
  | [] => Some (averageHappiness, cellCount)
  | (bx, by_) :: rest =>
      match getZone bx by_ c with
      | Some blockZone =>
          if Zone.hasAllBasicInfrastructure blockZone then
            scanBlock c rest
              (averageHappiness + Zone.getHappiness blockZone)%R
              (cellCount + 1)
          else None
      | None => None
      end
  end.

Definition canBlockZoneGrow (zone : Zone.t) (c : t) : M bool :=
  match Zone.getBlockZoneX zone, Zone.getBlockZoneY zone with
  | Some blockX, Some blockY =>
      match scanBlock c (blockCells blockX blockY) 0%R 0 with
      | None => mret false
      | Some (averageHappiness, cellCount) =>
          weatherAllowsGrowth ← WeatherManager.canGrowInCurrentWeather;
          let happinessThreshold :=
            Rgtb (averageHappiness / IZR cellCount) 40 in
          mret (weatherAllowsGrowth && happinessThreshold)
      end
  | _, _ => mret false
  end.

Definition canBuildingUpgrade (zone : Zone.t) : M bool :=
  match Zone.getBuilding zone with
  | None => mret false
  | Some building =>
      if decide (Building.getSize building = LARGE) then mret false
      else
        let happinessThreshold := Rgtb (Zone.getHappiness zone) 50 in
        weatherAllowsGrowth ← WeatherManager.canGrowInCurrentWeather;
        mret (happinessThreshold && weatherAllowsGrowth)
  end.

(** City.ts imports [ZoneType], [InfrastructureType], [SimulationUpdate]
    and [GridCell] from [../types] and nothing else of it: the enums
    [BuildingType] and [BuildingSize] are not bound in this module.
    Reading a member of either, written [unbound v] for the member that
    would have had the value [v], ends in a ReferenceError, [None]. *)
Definition unbound {A} (v : A) : option A := None.

(** [getBlockBuildingType]: every case of the [switch], the default
    included, reads [BuildingType]. *)
Definition getBlockBuildingType (zoneType : ZoneType) :
    option BuildingType :=
  match zoneType with
  | RESIDENTIAL => unbound RESIDENTIAL_BLOCK
  | COMMERCIAL => unbound COMMERCIAL_BLOCK
  | INDUSTRIAL => unbound INDUSTRIAL_BLOCK
  end.

(** [createBlockBuilding].  The outer [None] is the ReferenceError of
    [getBlockBuildingType] or of [BuildingSize.BLOCK_2X2]; it is raised
    once the scan of the four cells has passed, before any zone is
    written. *)
Definition createBlockBuilding (x y : Z) (zoneType : ZoneType) (c : t) :
    M (option (option Building.t * t)) :=
  match getZone x y c with
  | None => mret (Some (None, c))
  | Some zone =>
      if negb (Zone.isBlockZone zone) then mret (Some (None, c))
      else
        match Zone.getBlockZoneX zone, Zone.getBlockZoneY zone with
        | Some blockX, Some blockY =>
            match scanBlock c (blockCells blockX blockY) 0%R 0 with
            | None => mret (Some (None, c))
            | Some _ =>
                now ← Date_now;
                let buildingId := block_building_id now blockX blockY in
                match getBlockBuildingType zoneType with
                | None => mret None
                | Some buildingType =>
                    match unbound BLOCK_2X2 with
                    | None => mret None
                    | Some size =>
                        let building :=
                          Building.newBlock buildingId blockX blockY
                            zoneType size buildingType true 2 2 in
                        match getZone blockX blockY c with
                        | Some _ =>
                            mret (Some
                                    (Some building,
                                     setZones
                                       (alter2
                                          (Zone.setBuilding (Some building))
                                          blockX blockY (zones c)) c))
                        | None => mret (Some (Some building, c))
                        end
                    end
                end
            end
        | _, _ => mret (Some (None, c))
        end
  end.

(** The branch of [simulateBuildingGrowth] for a zoned cell without a
    building that is not part of a block. *)
Definition growSingleCell (zone : Zone.t) : M Zone.t :=
  go ← canZoneGrow zone;
  if go : bool then
    now ← Date_now;
    r ← Math_random;
    let buildingId := building_id now r in
    '(_, zone') ← Zone.createBuilding buildingId zone;
    mret zone'
  else mret zone.

(** The branch for a cell that holds a building. *)
Definition upgradeCell (zone : Zone.t) : M Zone.t :=
  go ← canBuildingUpgrade zone;
  if go : bool then
    '(_, zone') ← Zone.upgradeBuilding zone;
    mret zone'
  else mret zone.

(** The body of the loops of [simulateBuildingGrowth] at [(x, y)].  The
    result is [None] where [createBlockBuilding] ends in its
    ReferenceError. *)
Definition growCell (c : t) (xy : Z * Z) : M (option t) :=
  let '(x, y) := xy in
  match at2 (zones c) x y with
  | None => mret (Some c)
  | Some zone =>
      match Zone.getType zone, Zone.getBuilding zone with
      | Some zoneType, None =>
          if Zone.isBlockZone zone then
            if bool_decide (Zone.getBlockZoneX zone = Some x)
               && bool_decide (Zone.getBlockZoneY zone = Some y) then
              go ← canBlockZoneGrow zone c;
              if go : bool then
                created ← createBlockBuilding x y zoneType c;
                mret (snd <$> created)
              else mret (Some c)
            else mret (Some c)
          else
            zone' ← growSingleCell zone;
            mret (Some (setZones (alter2 (fun _ => zone') x y (zones c)) c))
      | _, Some _ =>
          zone' ← upgradeCell zone;
          mret (Some (setZones (alter2 (fun _ => zone') x y (zones c)) c))
      | None, None => mret (Some c)
      end
  end.

(** A loop whose body may end in an error: the error ends the loop. *)
Fixpoint foldM {A B} (f : A -> B -> M (option A)) (l : list B) (a : A) :
    M (option A) :=
  match l with
  | [] => mret (Some a)
  | b :: l' =>
      r ← f a b;
      match r with
      | Some a' => foldM f l' a'
      | None => mret None
      end
  end.

(** [simulateBuildingGrowth]; [None] is the ReferenceError of
    [createBlockBuilding], which leaves the pass and its callers. *)
Definition simulateBuildingGrowth (c : t) : M (option t) :=
  foldM growCell (coords (gridWidth c) (gridHeight c)) c.

Definition getAllBuildings (c : t) : list Building.t :=
  omap (fun '(x, y) => zone ← at2 (zones c) x y; Zone.getBuilding zone)
       (coords (gridWidth c) (gridHeight c)).

(** The zones the averaging loops count: those with a type. *)
Definition zonedCells (c : t) : list Zone.t :=
  omap (fun '(x, y) =>
          zone ← at2 (zones c) x y;
          _ ← Zone.getType zone;
          Some zone)
       (coords (gridWidth c) (gridHeight c)).

Definition calculateAverageHappiness (c : t) : R :=
  let totalHappiness :=
    fold_left (fun total zone => (total + Zone.getHappiness zone)%R)
              (zonedCells c) 0%R in
  let zoneCount := Z.of_nat (length (zonedCells c)) in
  if 0 <? zoneCount then (totalHappiness / IZR zoneCount)%R else 0%R.

Definition calculateAveragePollution (c : t) : R :=
  let totalPollution :=
    fold_left (fun total zone => (total + Zone.getPollution zone)%R)
              (zonedCells c) 0%R in
  let zoneCount := Z.of_nat (length (zonedCells c)) in
  if 0 <? zoneCount then (totalPollution / IZR zoneCount)%R else 0%R.

(** [EconomyManager.calculateTotalPopulation] *)
Definition calculateTotalPopulation `{BuildingStats}
    (buildings : list Building.t) : R :=
  fold_left (fun total building =>
               (total + Building_getPopulation building)%R)
            buildings 0%R.

(** [simulate()].  [TransportManager.applyTransportHappinessEffect], run
    between the happiness pass and the growth pass, ends in
    [building.setHappiness] and changes nothing else; like the weather's
    write to the same field it has no effect on the state kept here.  The
    [powerGrid] and [connectivity] fields are filled in by
    [SimulationEngine.simulate].  The result is [None] where the growth
    pass ends in its ReferenceError: nothing is aggregated then. *)
Definition simulate `{BuildingStats} (c : t) :
    M (option (SimulationUpdate * t)) :=
  _ ← WeatherManager.updateWeather;
  zones1 ← WeatherManager.applyWeatherEffects (zones c);
  let zones2 :=
    HappinessManager.updateAllZoneHappiness zones1 (gridWidth c)
      (gridHeight c) in
  grown ← simulateBuildingGrowth (setZones zones2 c);
  match grown with
  | None => mret None
  | Some c' =>
      let buildings := getAllBuildings c' in
      let population := calculateTotalPopulation buildings in
      mret (Some (mkUpdate (map Building.toJSON buildings) population
                    (calculateAverageHappiness c')
                    (calculateAveragePollution c') None None,
                  c'))
  end.

Definition toGridCell (zone : Zone.t) : GridCell :=
  mkCell (Zone.getX zone) (Zone.getY zone) (Zone.getType zone)
    (Zone.getInfrastructure zone) (Zone.getBuilding zone)
    (Zone.getHappiness zone) (Zone.getPollution zone)
    (Zone.isBlockZone zone) (Zone.getBlockZoneId zone)
    (Zone.getBlockZoneX zone) (Zone.getBlockZoneY zone)
    false None 0 0 false false None None.

(** [toGridFormat()] *)
Definition toGridFormat (c : t) : list (list GridCell) :=
  map (fun y =>
         omap (fun x => toGridCell <$> at2 (zones c) (Z.of_nat x)
                                           (Z.of_nat y))
              (seq 0 (Z.to_nat (gridWidth c))))
      (seq 0 (Z.to_nat (gridHeight c))).

(** The body of the loops of [fromGridFormat] for one cell. *)
Definition loadCell (cell : GridCell) (zone : Zone.t) : Zone.t :=
  let zone :=
    match zoneType cell with
    | Some ty => Zone.setType (Some ty) zone
    | None => zone
    end in
  let zone :=
    fold_left (fun z infra => snd (Zone.addInfrastructure infra z))
              (cell_infrastructure cell) zone in
  let zone :=
    match cell_building cell with
    | Some b => Zone.setBuilding (Some (Building.fromJSON b)) zone
    | None => zone
    end in
  let zone := Zone.setHappiness (cell_happiness cell) zone in
  let zone := Zone.setPollution (cell_pollution cell) zone in
  if isBlockZone cell then
    let zone :=
      Zone.setBlockZoneId
        (Some (default empty_block_id (cell_blockZoneId cell))) zone in
    let zone :=
      Zone.setBlockZoneX (Some (default 0 (cell_blockZoneX cell))) zone in
    Zone.setBlockZoneY (Some (default 0 (cell_blockZoneY cell))) zone
  else zone.

(** [fromGridFormat(grid)]: the zones are made afresh, then every cell of
    [grid] that lies inside the city is loaded. *)
Definition fromGridFormat (grid : list (list GridCell)) (c : t) : t :=
  setZones
    (imap (fun y row =>
             imap (fun x zone =>
                     match grid !! y ≫= (.!! x) with
                     | Some cell => loadCell cell zone
                     | None => zone
                     end) row)
          (initializeZones (gridWidth c) (gridHeight c)))
    c.

End City.

(** ** modules/PowerGridManager.ts *)

Record PowerNode := mkNode {
  node_id : NodeId;
  node_x : Z;
  node_y : Z;
  node_type : NodeType;
  capacity : Z;
  demand : Z;
  connected : bool;
  node_powerSource : option NodeId
}.

Record PowerConnection := mkConnection {
  from : NodeId;
  to : NodeId;
  conn_capacity : Z;
  conn_distance : R;
  conn_efficiency : R
}.

Record PowerGrid := mkPowerGrid {
  nodes : list PowerNode;
  connections : list PowerConnection;
  totalCapacity : Z;
  totalDemand : Z;
  efficiency : R
}.

Module PowerGridManager.

Definition POWER_TRANSMISSION_RANGE : Z := 8.
Definition POWER_LINE_EFFICIENCY : R := 0.95.
Definition BASE_POWER_DEMAND : Z := 10.
Definition POWERPLANT_CAPACITY : Z := 1000.
Definition POWER_OVERLOAD_THRESHOLD : R := 0.9.

Definition isPowerSource (building : Building.t) : bool :=
  bool_decide (Building.getBuildingType building = Some POWERPLANT).

Definition isPowerConsumer (building : Building.t) : bool :=
  bool_decide (Building.getBuildingType building <> Some POWERPLANT).

Definition getPowerSourceCapacity (building : Building.t) : Z :=
  if decide (Building.getBuildingType building = Some POWERPLANT)
  then POWERPLANT_CAPACITY else 0.

(** The factor 1.5 of block buildings is applied to an even number, so
    the demand stays an integer. *)
Definition getBuildingPowerDemand (building : Building.t) : Z :=
  let baseDemand := BASE_POWER_DEMAND in
  let sizeMultiplier :=
    match Building.getSize building with
    | SMALL => 1 | MEDIUM => 2 | LARGE => 4 | BLOCK_2X2 => 6
    end in
  if Building.isServiceBuilding building then
    baseDemand * sizeMultiplier * 2
  else if Building.getIsBlock building then
    baseDemand * sizeMultiplier * 3 / 2
  else baseDemand * sizeMultiplier.

(** The nodes pushed for the cell at [(x, y)]. *)
Definition nodesOfCell (x y : Z) (cell : GridCell) : list PowerNode :=
  match cell_building cell with
  | None => []
  | Some building =>
      (if isPowerSource building then
         [mkNode (power_source x y) x y source
                 (getPowerSourceCapacity building) 0 true
                 (Some (power_source x y))]
       else [])
      ++
      (if isPowerConsumer building then
         [mkNode (power_consumer x y) x y consumer 0
                 (getBuildingPowerDemand building) false None]
       else [])
  end.

Definition buildPowerNodes (grid : list (list GridCell)) :
    list PowerNode :=
  concat (imap (fun y row =>
                  concat (imap (fun x cell =>
                                  nodesOfCell (Z.of_nat x) (Z.of_nat y) cell)
                               row))
               grid).

(** [Math.round(start + (d * i) / steps)] for integers and [steps > 0]:
    rounding to the nearest integer, halves upwards. *)
Definition roundedStep (start d i steps : Z) : Z :=
  start + (2 * (d * i) + steps) / (2 * steps).

(** The loop of [hasPowerLinePath] over the rasterised points.  [None] is
    a TypeError: [grid[0].length] on an empty grid, or
    [cell.infrastructure] on an undefined cell. *)
Fixpoint checkPowerLine (grid : list (list GridCell))
    (points : list (Z * Z)) : option bool :=
  match points with
  | [] => Some true
  | (x, y) :: rest =>
      if 0 <=? x then
        row0 ← head grid;
        if (x <? Z.of_nat (length row0)) && (0 <=? y)
           && (y <? Z.of_nat (length grid)) then
          cell ← at2 grid x y;
          if negb (includes (cell_infrastructure cell) power)
          then Some false
          else checkPowerLine grid rest
        else checkPowerLine grid rest
      else checkPowerLine grid rest
  end.

(** With [steps = 0] both coordinates are [NaN], every comparison of the
    guard fails and the loop ends after its single round. *)
Definition hasPowerLinePath (startX startY endX endY : Z)
    (grid : list (list GridCell)) : option bool :=
  let dx := endX - startX in
  let dy := endY - startY in
  let steps := Z.max (Z.abs dx) (Z.abs dy) in
  if steps =? 0 then Some true
  else
    checkPowerLine grid
      (map (fun i => (roundedStep startX dx (Z.of_nat i) steps,
                      roundedStep startY dy (Z.of_nat i) steps))
           (seq 0 (Z.to_nat (steps + 1)))).

Definition canTransmitPower (consumer source : PowerNode)
    (grid : list (list GridCell)) : option bool :=
  hasPowerLinePath (node_x consumer) (node_y consumer)
                   (node_x source) (node_y source) grid.

(** [findNearestPowerSource].  Distances are compared on their squares;
    [minDistance = None] is [Infinity]. *)
Definition findNearestPowerSource (consumer : PowerNode)
    (sources : list PowerNode) : option PowerNode :=
  fst
    (fold_left
       (fun '(nearestSource, minDistance) source =>
          let d := distanceSq (node_x consumer) (node_y consumer)
                              (node_x source) (node_y source) in
          if (match minDistance with
              | None => true
              | Some m => d <? m
              end)
             && (d <=? POWER_TRANSMISSION_RANGE * POWER_TRANSMISSION_RANGE)
          then (Some source, Some d)
          else (nearestSource, minDistance))
       sources (None, None)).

Definition markConnected (s : NodeId) (n : PowerNode) : PowerNode :=
  mkNode (node_id n) (node_x n) (node_y n) (node_type n) (capacity n)
         (demand n) true (Some s).

(** The loop of [buildPowerConnections] over the nodes; only consumers
    are visited.  It returns the connections and the nodes with the
    consumers it connected marked. *)
Fixpoint connectConsumers (powerSources : list PowerNode)
    (grid : list (list GridCell)) (ns : list PowerNode) :
    option (list PowerConnection * list PowerNode) :=
  match ns with
  | [] => Some ([], [])
  | n :: rest =>
      if decide (node_type n = consumer) then
        match findNearestPowerSource n powerSources with
        | Some nearestSource =>
            ok ← canTransmitPower n nearestSource grid;
            '(cs, rest') ← connectConsumers powerSources grid rest;
            if ok : bool then
              let distance :=
                calculateDistance (node_x n) (node_y n)
                  (node_x nearestSource) (node_y nearestSource) in
              let efficiency :=
                Rmax 0.1 (POWER_LINE_EFFICIENCY - distance * 0.01) in
              Some (mkConnection (node_id nearestSource) (node_id n)
                      (Z.min (capacity nearestSource) (demand n))
                      distance efficiency :: cs,
                    markConnected (node_id nearestSource) n :: rest')
            else Some (cs, n :: rest')
        | None =>
            '(cs, rest') ← connectConsumers powerSources grid rest;
            Some (cs, n :: rest')
        end
      else
        '(cs, rest') ← connectConsumers powerSources grid rest;
        Some (cs, n :: rest')
  end.

Definition buildPowerConnections (nodes : list PowerNode)
    (grid : list (list GridCell)) :
    option (list PowerConnection * list PowerNode) :=
  let powerSources :=
    filter (fun node => node_type node = source) nodes in
  connectConsumers powerSources grid nodes.

(** [nodes.find(node => node.id === id)] *)
Fixpoint findNode (id : NodeId) (nodes : list PowerNode) :
    option PowerNode :=
  match nodes with
  | [] => None
  | node :: rest =>
      if decide (node_id node = id) then Some node else findNode id rest
  end.

(** A write to the object [nodes.find] returned: the first node with that
    id changes, in place. *)
Fixpoint updateNode (id : NodeId) (f : PowerNode -> PowerNode)
    (nodes : list PowerNode) : list PowerNode :=
  match nodes with
  | [] => []
  | n :: rest =>
      if decide (node_id n = id) then f n :: rest
      else n :: updateNode id f rest
  end.

Definition resetNode (n : PowerNode) : PowerNode :=
  if decide (node_type n = consumer) then
    mkNode (node_id n) (node_x n) (node_y n) (node_type n) (capacity n)
           (demand n) false None
  else n.

Definition setCapacity (c : Z) (n : PowerNode) : PowerNode :=
  mkNode (node_id n) (node_x n) (node_y n) (node_type n) c (demand n)
         (connected n) (node_powerSource n).

Definition setDemand (d : Z) (n : PowerNode) : PowerNode :=
  mkNode (node_id n) (node_x n) (node_y n) (node_type n) (capacity n) d
         (connected n) (node_powerSource n).

(** The body of the loop of [simulatePowerFlow] for one connection. *)
Definition flowStep (nodes : list PowerNode) (connection : PowerConnection) :
    list PowerNode :=
  match findNode (from connection) nodes, findNode (to connection) nodes with
  | Some sourceNode, Some consumerNode =>
      let availablePower := capacity sourceNode in
      let requiredPower := demand consumerNode in
      if requiredPower <=? availablePower then
        let nodes :=
          updateNode (to connection)
            (markConnected (node_id sourceNode)) nodes in
        updateNode (from connection)
          (fun n => setCapacity (capacity n - requiredPower) n) nodes
      else
        let nodes :=
          updateNode (to connection)
            (fun n => setDemand availablePower
                        (markConnected (node_id sourceNode) n)) nodes in
        updateNode (from connection) (setCapacity 0) nodes
  | _, _ => nodes
  end.

Definition simulatePowerFlow (nodes : list PowerNode)
    (connections : list PowerConnection) : list PowerNode :=
  fold_left flowStep connections (map resetNode nodes).

Definition sumCapacity (nodes : list PowerNode) : Z :=
  fold_left (fun sum node => sum + capacity node)
    (filter (fun node => node_type node = source) nodes) 0.

Definition sumDemand (nodes : list PowerNode) : Z :=
  fold_left (fun sum node => sum + demand node)
    (filter (fun node => node_type node = consumer) nodes) 0.

(** [calculatePowerDistribution]: the statistics are taken from the node
    objects after [simulatePowerFlow] has written to them. *)
Definition calculatePowerDistribution (grid : list (list GridCell)) :
    option PowerGrid :=
  let nodes := buildPowerNodes grid in
  '(connections, nodes) ← buildPowerConnections nodes grid;
  let nodes := simulatePowerFlow nodes connections in
  let totalCapacity := sumCapacity nodes in
  let totalDemand := sumDemand nodes in
  let efficiency :=
    if 0 <? totalCapacity
    then Rmin 1 (IZR totalDemand / IZR totalCapacity)
    else 0%R in
  Some (mkPowerGrid nodes connections totalCapacity totalDemand efficiency).

Definition setPower (hp : bool) (ps : option NodeId) (pc pd : Z)
    (cell : GridCell) : GridCell :=
  mkCell (cell_x cell) (cell_y cell) (zoneType cell)
    (cell_infrastructure cell) (cell_building cell) (cell_happiness cell)
    (cell_pollution cell) (isBlockZone cell) (cell_blockZoneId cell)
    (cell_blockZoneX cell) (cell_blockZoneY cell)
    hp ps pc pd (hasRoad cell) (hasWater cell)
    (connectivityStatus cell) (connectivityEfficiency cell).

(** [updateGridPowerStatus].  It is reached with the nodes of this very
    grid, so [grid[0]] is defined whenever there is a node. *)
Definition updateGridPowerStatus (grid : list (list GridCell))
    (powerGrid : PowerGrid) : list (list GridCell) :=
  let grid := map (map (setPower false None 0 0)) grid in
  fold_left
    (fun grid node =>
       match head grid with
       | Some row0 =>
           if inBounds (node_x node) (node_y node)
                (Z.of_nat (length row0)) (Z.of_nat (length grid))
           then alter2 (setPower (connected node) (node_powerSource node)
                          (capacity node) (demand node))
                  (node_x node) (node_y node) grid
           else grid
       | None => grid
       end)
    (nodes powerGrid) grid.

(** [hasBuildingPower]; [None] is the TypeError of [grid[0].length] on an
    empty grid or of reading [hasPower] of an undefined cell. *)
Definition hasBuildingPower (x y : Z) (grid : list (list GridCell)) :
    option bool :=
  if 0 <=? x then
    row0 ← head grid;
    if (x <? Z.of_nat (length row0)) && (0 <=? y)
       && (y <? Z.of_nat (length grid))
    then cell ← at2 grid x y; Some (hasPower cell)
    else Some false
  else Some false.

Definition getPowerGridEfficiency (powerGrid : PowerGrid) : R :=
  efficiency powerGrid.

Definition isPowerGridOverloaded (powerGrid : PowerGrid) : bool :=
  Rgtb (efficiency powerGrid) POWER_OVERLOAD_THRESHOLD.

Definition getPowerShortageAreas (powerGrid : PowerGrid) :
    list PowerNode :=
  filter (fun node => node_type node = consumer /\ connected node = false)
         (nodes powerGrid).

End PowerGridManager.

(** ** modules/InfrastructureConnectivityManager.ts *)

Module InfrastructureConnectivityManager.

Definition ROAD_CONNECTION_RANGE : Z := 1.
Definition POWER_CONNECTION_RANGE : Z := 8.
Definition WATER_CONNECTION_RANGE : Z := 6.

(** [getNeighbors(x, y, range, grid)]: the entries [grid[ny][nx]] for the
    offsets that are not the centre, lie inside
    [grid[0].length x grid.length] and are within [range]; an entry is
    [None] where the row is too short.  [grid[0]] has been read by every
    caller before. *)
Definition getNeighbors (x y range : Z) (grid : list (list GridCell)) :
    option (list (option GridCell)) :=
  row0 ← head grid;
  Some
    (omap (fun '(dx, dy) =>
             let nx := x + dx in
             let ny := y + dy in
             if ((dx =? 0) && (dy =? 0))
                || (nx <? 0) || (Z.of_nat (length row0) <=? nx)
                || (ny <? 0) || (Z.of_nat (length grid) <=? ny)
             then None
             else if distanceWithin x y nx ny range
                  then Some (at2 grid nx ny)
                  else None)
          (scanBox range)).

(** [neighbors.some(neighbor => hasInfrastructure(neighbor, type))];
    [None] is the TypeError of reading [infrastructure] of an undefined
    neighbour, met before any neighbour carried the flag. *)
Fixpoint someHasInfrastructure (type : InfrastructureType)
    (neighbors : list (option GridCell)) : option bool :=
  match neighbors with
  | [] => Some false
  | None :: _ => None
  | Some neighbor :: rest =>
      if hasInfrastructure (cell_infrastructure neighbor) type
      then Some true
      else someHasInfrastructure type rest
  end.

(** The common body of the three connectivity checks. *)
Definition hasConnectivity (type : InfrastructureType) (range : Z)
    (x y : Z) (grid : list (list GridCell)) : option bool :=
  if x <? 0 then Some false
  else
    row0 ← head grid;
    if (Z.of_nat (length row0) <=? x) || (y <? 0)
       || (Z.of_nat (length grid) <=? y)
    then Some false
    else
      cell ← at2 grid x y;
      if hasInfrastructure (cell_infrastructure cell) type then Some true
      else
        neighbors ← getNeighbors x y range grid;
        someHasInfrastructure type neighbors.

Definition hasRoadConnectivity (x y : Z) (grid : list (list GridCell)) :
    option bool :=
  hasConnectivity road ROAD_CONNECTION_RANGE x y grid.

Definition hasPowerConnectivity (x y : Z) (grid : list (list GridCell)) :
    option bool :=
  hasConnectivity power POWER_CONNECTION_RANGE x y grid.

Definition hasWaterConnectivity (x y : Z) (grid : list (list GridCell)) :
    option bool :=
  hasConnectivity water WATER_CONNECTION_RANGE x y grid.

Record Connectivity := mkConnectivity {
  conn_road : bool;
  conn_power : bool;
  conn_water : bool;
  conn_status : ConnectivityStatus;
  conn_eff : R
}.

Definition getBuildingConnectivity `{BuildingStats} (x y : Z)
    (grid : list (list GridCell)) : option Connectivity :=
  road ← hasRoadConnectivity x y grid;
  power ← hasPowerConnectivity x y grid;
  water ← hasWaterConnectivity x y grid;
  cell ← at2 grid x y;
  match cell_building cell with
  | Some building =>
      Some (mkConnectivity road power water
              (Building_getConnectivityStatus building road power water)
              (Building_getInfrastructureEfficiency building road power
                 water))
  | None =>
      let connectedCount :=
        length (filter (fun b => b = true) [road; power; water]) in
      if decide (connectedCount = 3%nat) then
        Some (mkConnectivity road power water bright 1.0)
      else if decide (2 <= connectedCount)%nat then
        Some (mkConnectivity road power water dim 0.6)
      else Some (mkConnectivity road power water dark 0.3)
  end.

Definition setConnectivity (k : Connectivity) (cell : GridCell) :
    GridCell :=
  mkCell (cell_x cell) (cell_y cell) (zoneType cell)
    (cell_infrastructure cell) (cell_building cell) (cell_happiness cell)
    (cell_pollution cell) (isBlockZone cell) (cell_blockZoneId cell)
    (cell_blockZoneX cell) (cell_blockZoneY cell)
    (conn_power k) (powerSource cell) (powerCapacity cell)
    (powerDemand cell) (conn_road k) (conn_water k)
    (Some (conn_status k)) (Some (conn_eff k)).

(** The cells [(x, y, cell)] of [for y < grid.length { for x <
    grid[y].length { ... } }] that hold a building. *)
Definition buildingCells (grid : list (list GridCell)) :
    list (Z * Z * GridCell) :=
  concat
    (imap (fun y row =>
             omap (fun '(x, cell) =>
                     match cell_building cell with
                     | Some _ => Some (Z.of_nat x, Z.of_nat y, cell)
                     | None => None
                     end)
                  (imap (fun x cell => (x, cell)) row))
          grid).

Definition updateGridConnectivity `{BuildingStats}
    (grid : list (list GridCell)) : option (list (list GridCell)) :=
  fold_left
    (fun acc '(x, y, _) =>
       g ← acc;
       k ← getBuildingConnectivity x y g;
       Some (alter2 (setConnectivity k) x y g))
    (buildingCells grid) (Some grid).

(** The range [isInfrastructureConnected] picks for a type. *)
Definition connectionRange (type : InfrastructureType) : Z :=
  match type with
  | road => ROAD_CONNECTION_RANGE
  | power => POWER_CONNECTION_RANGE
  | water => WATER_CONNECTION_RANGE
  end.

Definition isInfrastructureConnected (x y : Z) (type : InfrastructureType)
    (grid : list (list GridCell)) : option bool :=
  if x <? 0 then Some false
  else
    row0 ← head grid;
    if (Z.of_nat (length row0) <=? x) || (y <? 0)
       || (Z.of_nat (length grid) <=? y)
    then Some false
    else
      cell ← at2 grid x y;
      if negb (hasInfrastructure (cell_infrastructure cell) type)
      then Some false
      else
        neighbors ← getNeighbors x y (connectionRange type) grid;
        someHasInfrastructure type neighbors.

End InfrastructureConnectivityManager.

Module ConnectivityStats.

(** The running totals of [getGridConnectivityStats]. *)
Record Totals := mkTotals {
  t_totalBuildings : Z;
  t_fullyConnected : Z;
  t_partiallyConnected : Z;
  t_poorlyConnected : Z;
  t_totalEfficiency : R;
  t_roadConnected : Z;
  t_powerConnected : Z;
  t_waterConnected : Z
}.

Definition zero : Totals := mkTotals 0 0 0 0 0 0 0 0.

Definition count (b : bool) (n : Z) : Z := if b then n + 1 else n.

Definition add (k : InfrastructureConnectivityManager.Connectivity)
    (t : Totals) : Totals :=
  let status := InfrastructureConnectivityManager.conn_status k in
  mkTotals
    (t_totalBuildings t + 1)
    (count (bool_decide (status = bright)) (t_fullyConnected t))
    (count (bool_decide (status = dim)) (t_partiallyConnected t))
    (count (bool_decide (status = dark)) (t_poorlyConnected t))
    (t_totalEfficiency t + InfrastructureConnectivityManager.conn_eff k)%R
    (count (InfrastructureConnectivityManager.conn_road k)
           (t_roadConnected t))
    (count (InfrastructureConnectivityManager.conn_power k)
           (t_powerConnected t))
    (count (InfrastructureConnectivityManager.conn_water k)
           (t_waterConnected t)).

Definition ratio (a : R) (totalBuildings : Z) : R :=
  if 0 <? totalBuildings then (a / IZR totalBuildings)%R else 0%R.

Definition finish (t : Totals) : ConnectivitySummary :=
  mkConnSummary (t_totalBuildings t) (t_fullyConnected t)
    (t_partiallyConnected t) (t_poorlyConnected t)
    (ratio (t_totalEfficiency t) (t_totalBuildings t))
    (ratio (IZR (t_roadConnected t)) (t_totalBuildings t))
    (ratio (IZR (t_powerConnected t)) (t_totalBuildings t))
    (ratio (IZR (t_waterConnected t)) (t_totalBuildings t)).

End ConnectivityStats.

(** [InfrastructureConnectivityManager.getGridConnectivityStats] *)
Definition getGridConnectivityStats `{BuildingStats}
    (grid : list (list GridCell)) : option ConnectivitySummary :=
  ConnectivityStats.finish <$>
    fold_left
      (fun acc '(x, y, _) =>
         t ← acc;
         k ← InfrastructureConnectivityManager.getBuildingConnectivity x y grid;
         Some (ConnectivityStats.add k t))
      (InfrastructureConnectivityManager.buildingCells grid)
      (Some ConnectivityStats.zero).

(** ** modules/SimulationEngine.ts *)

Module SimulationEngine.

(** The snapshot [cityGrid] shares its [Building] objects with the city:
    a cell that held a building when the snapshot was taken sees the
    writes the city passes make to that object (an upgrade changes it in
    place), and a cell that held none still holds none afterwards. *)
Definition setCellBuilding (b : option Building.t) (cell : GridCell) :
    GridCell :=
  mkCell (cell_x cell) (cell_y cell) (zoneType cell)
    (cell_infrastructure cell) b (cell_happiness cell)
    (cell_pollution cell) (isBlockZone cell) (cell_blockZoneId cell)
    (cell_blockZoneX cell) (cell_blockZoneY cell)
    (hasPower cell) (powerSource cell) (powerCapacity cell)
    (powerDemand cell) (hasRoad cell) (hasWater cell)
    (connectivityStatus cell) (connectivityEfficiency cell).

Definition sharedBuildings (cityGrid : list (list GridCell)) (c : City.t) :
    list (list GridCell) :=
  imap (fun y row =>
          imap (fun x cell =>
                  match cell_building cell,
                        at2 (City.zones c) (Z.of_nat x) (Z.of_nat y) with
                  | Some _, Some zone =>
                      setCellBuilding (Zone.getBuilding zone) cell
                  | _, _ => cell
                  end) row)
       cityGrid.

Definition powerGridSummary (powerGrid : PowerGrid) : PowerGridSummary :=
  mkPowerSummary (totalCapacity powerGrid) (totalDemand powerGrid)
    (efficiency powerGrid)
    (PowerGridManager.isPowerGridOverloaded powerGrid)
    (length (PowerGridManager.getPowerShortageAreas powerGrid)).

Definition withSummaries (p : PowerGridSummary) (k : ConnectivitySummary)
    (u : SimulationUpdate) : SimulationUpdate :=
  mkUpdate (buildings u) (economics_population u) (update_happiness u)
    (update_pollution u) (Some p) (Some k).

(** [simulate(grid)] on the engine's city [c].  The result is [None]
    where the source ends in an error: a TypeError of the passes over the
    snapshot, or the ReferenceError of the city's growth pass. *)
Definition simulate `{BuildingStats} (grid : option (list (list GridCell)))
    (c : City.t) : M (option (SimulationUpdate * City.t)) :=
  let c :=
    match grid with
    | Some grid => City.fromGridFormat grid c
    | None => c
    end in
  let cityGrid := City.toGridFormat c in
  match PowerGridManager.calculatePowerDistribution cityGrid with
  | None => mret None
  | Some powerGrid =>
      let cityGrid :=
        PowerGridManager.updateGridPowerStatus cityGrid powerGrid in
      match InfrastructureConnectivityManager.updateGridConnectivity
              cityGrid with
      | None => mret None
      | Some cityGrid =>
          ticked ← City.simulate c;
          match ticked with
          | None => mret None
          | Some (update, c') =>
              let cityGrid := sharedBuildings cityGrid c' in
              match getGridConnectivityStats cityGrid with
              | None => mret None
              | Some connectivityStats =>
                  mret (Some (withSummaries (powerGridSummary powerGrid)
                                connectivityStats update,
                              c'))
              end
          end
      end
  end.

(** [getAllBuildings()] of the engine: a [flatMap] over the rows. *)
Definition getAllBuildings (c : City.t) : list Building.t :=
  row ← City.getZones c;
  omap (fun zone => Building.toJSON <$> Zone.getBuilding zone) row.

End SimulationEngine.

(** ** Definitions used to state the properties *)

(** The array has a row for every [y] below [gridHeight]: the loops of
    [HappinessManager] and [TransportManager], which read [zones[y][x]]
    for [y < gridHeight], find the row they index.  Where a row is
    missing the source ends in a TypeError and the embedding skips the
    cell, so what is stated of these loops is stated under this
    condition. *)
Definition rowsCover {A} (zones : list (list A)) (gridHeight : Z) : Prop :=
  gridHeight <= Z.of_nat (length zones).


(** The bound the specification puts on a cell's happiness. *)
Definition happinessInRange (z : Zone.t) : Prop :=
  (0 <= Zone.happiness z <= 100)%R.

(** A city of one row and one zone. *)
Definition singleZoneCity (zone : Zone.t) : City.t := City.mk [[zone]] 1 1.

(** The sum of a list of reals, added from the left. *)
Definition sumR (l : list R) : R := fold_left Rplus l 0%R.

(** The service-building rule in the words of the specification (section
    4.2): each type decays over its own range. *)
Definition specServiceEffect (serviceType : option BuildingType)
    (distance : R) : R :=
  match serviceType with
  | Some PARK =>
      if Rleb distance 3 then (15 * (1 - distance / 3))%R else 0%R
  | Some SCHOOL =>
      if Rleb distance 5 then (10 * (1 - distance / 5))%R else 0%R
  | Some HOSPITAL => (8 * (1 - distance / 8))%R
  | Some POWERPLANT =>
      if Rleb distance 2 then (-20)%R
      else if Rleb distance 5 then (5 * (1 - distance / 5))%R
      else 0%R
  | _ => 0%R
  end.

(** The same rule with every decay taken over the scan radius 8. *)
Definition radius8ServiceEffect (serviceType : option BuildingType)
    (distance : R) : R :=
  match serviceType with
  | Some PARK =>
      if Rleb distance 3 then (15 * (1 - distance / 8))%R else 0%R
  | Some SCHOOL =>
      if Rleb distance 5 then (10 * (1 - distance / 8))%R else 0%R
  | Some HOSPITAL => (8 * (1 - distance / 8))%R
  | Some POWERPLANT =>
      if Rleb distance 2 then (-20)%R
      else if Rleb distance 5 then (5 * (1 - distance / 8))%R
      else 0%R
  | _ => 0%R
  end.

(** What the cell at [(nx, ny)] adds to the service bonus of [(x, y)]. *)
Definition serviceContribution (zones : list (list Zone.t)) (x y : Z)
    (n : Z * Z) : R :=
  match at2 zones n.1 n.2 ≫= Zone.getBuilding with
  | Some building =>
      if Building.isServiceBuilding building
      then radius8ServiceEffect (Building.getServiceType building)
             (calculateDistance x y n.1 n.2)
      else 0%R
  | None => 0%R
  end.

(** A grid all of whose rows have the length of the first one. *)
Definition rectangular {A} (grid : list (list A)) : Prop :=
  Forall (fun row => length row = length (default [] (head grid))) grid.

(** Some cell of the grid within the Euclidean radius [range] of [(x, y)],
    the cell itself included, carries the flag [type]. *)
Definition carriesWithin (type : InfrastructureType) (range : Z) (x y : Z)
    (grid : list (list GridCell)) : Prop :=
  exists nx ny neighbor,
    at2 grid nx ny = Some neighbor
    /\ (calculateDistance x y nx ny <= IZR range)%R
    /\ hasInfrastructure (cell_infrastructure neighbor) type = true.

(** A cell as the tests of the repository make it: no zone, happiness 50,
    pollution 0, no power or connectivity annotation. *)
Definition plainCell (x y : Z) (infrastructure : list InfrastructureType)
    (building : option Building.t) : GridCell :=
  mkCell x y None infrastructure building 50 0 false None None None
    false None 0 0 false false None None.

(** Sums over the nodes of a power grid. *)
Definition sumOver (f : PowerNode -> Z) (nodes : list PowerNode) : Z :=
  foldr (fun n acc => f n + acc) 0 nodes.

(** The capacity a node holds as a source. *)
Definition sourceCapacity (n : PowerNode) : Z :=
  if decide (node_type n = source) then capacity n else 0.

(** The demand allotted to a node: its demand if it is a connected
    consumer. *)
Definition allotment (n : PowerNode) : Z :=
  if decide (node_type n = consumer)
  then if connected n then demand n else 0
  else 0.

Definition allottedDemand (nodes : list PowerNode) : Z :=
  sumOver allotment nodes.

(** The node type an id spells out. *)
Definition idKind (id : NodeId) : NodeType :=
  match id with
  | power_source _ _ => source
  | power_consumer _ _ => consumer
  end.

(** What [buildPowerNodes] establishes of every node and the flow keeps. *)
Definition nodeOk (n : PowerNode) : Prop :=
  node_type n = idKind (node_id n) /\ 0 <= capacity n /\ 0 <= demand n.

Definition connectionOk (c : PowerConnection) : Prop :=
  idKind (from c) = source /\ idKind (to c) = consumer.

(** The scenario of section 8: one power plant of capacity 1000 and 150
    reachable consumers of demand 10.  The grid is 15 x 15, every cell
    carries the power flag, the plant stands at (7, 7) and small houses
    stand on the first 150 cells, in scan order, within distance 8 of
    it. *)
Definition scenarioPlant : Building.t :=
  Building.mk (given_id 0) 7 7 INDUSTRIAL LARGE (Some POWERPLANT) false 1 1
    false (Some POWERPLANT).

Definition scenarioHouse (x y : Z) : Building.t :=
  Building.mk (given_id (1 + x + 15 * y)) x y RESIDENTIAL SMALL (Some HOUSE)
    false 1 1 false None.

Definition scenarioHouses : list (Z * Z) :=
  take 150 (filter (fun p => p <> (7, 7)) (cellsWithin 7 7 8 15 15)).

Definition scenarioGrid : list (list GridCell) :=
  map (fun y =>
         map (fun x =>
                plainCell (Z.of_nat x) (Z.of_nat y) [power]
                  (if bool_decide ((Z.of_nat x, Z.of_nat y) = (7, 7))
                   then Some scenarioPlant
                   else if bool_decide
                             ((Z.of_nat x, Z.of_nat y) ∈ scenarioHouses)
                        then Some (scenarioHouse (Z.of_nat x) (Z.of_nat y))
                        else None))
             (seq 0 15))
      (seq 0 15).

(** An implementation of the stats interface with every figure 0 and every
    status dark, to state closed examples; what the examples show holds for
    every implementation (see [tick_spawns_unpowered_house]). *)
Definition zeroStats : BuildingStats :=
  {| Building_getPollution := fun _ => 0%R;
     Building_getJobs := fun _ => 0%R;
     Building_getPopulation := fun _ => 0%R;
     Building_getConnectivityStatus := fun _ _ _ _ => dark;
     Building_getInfrastructureEfficiency := fun _ _ _ _ => 0.1%R |}.

(** A one-cell input grid: a residential cell with road, power and water
    and no building. *)
Definition servedCell : GridCell :=
  mkCell 0 0 (Some RESIDENTIAL) [road; power; water] None 50 0 false None
    None None false None 0 0 false false None None.

(** A world under sunny weather in which every draw is 1/2. *)
Definition calmWorld : World := mkWorld (fun _ => 0.5%R) 0 0 SUNNY 5.

(** The snapshot [cityGrid] as [SimulationEngine.simulate] has it when it
    computes the connectivity summary. *)
Definition snapshotAfterTick `{BuildingStats} (c0 c' : City.t)
    (powerGrid : PowerGrid) : option (list (list GridCell)) :=
  (fun cityGrid => SimulationEngine.sharedBuildings cityGrid c') <$>
    InfrastructureConnectivityManager.updateGridConnectivity
      (PowerGridManager.updateGridPowerStatus (City.toGridFormat c0)
         powerGrid).

(** Two grids of the same shape, related cell by cell. *)
Definition cellwise (P : GridCell -> GridCell -> Prop)
    (before after : list (list GridCell)) : Prop :=
  Forall2 (Forall2 P) before after.

Definition sameBuilding (a b : GridCell) : Prop :=
  cell_building b = cell_building a.

(** A cell that held no building holds none afterwards. *)
Definition noNewBuilding (a b : GridCell) : Prop :=
  cell_building a = None -> cell_building b = None.

(** The zone [servedCell] loads into, the house the growth pass puts on it
    in [calmWorld], and the zone after that tick. *)
Definition servedZone : Zone.t :=
  Zone.mk 0 0 RESIDENTIAL [road; power; water] None 50 0 None None None.

Definition spawnedHouse : Building.t :=
  Building.new (building_id 0 0.5) 0 0 RESIDENTIAL.

Definition grownZone : Zone.t :=
  Zone.mk 0 0 RESIDENTIAL [road; power; water] (Some spawnedHouse) 80 0
    None None None.

(** ** Definitions used to state the further properties *)

(** Every draw of [Math.random()] lies in [0, 1). *)
Definition unitDraws (w : World) : Prop :=
  forall i, (0 <= randoms w i < 1)%R.

(** No zone holds a building. *)
Definition buildingFree (zones : list (list Zone.t)) : Prop :=
  Forall (Forall (fun zone => Zone.getBuilding zone = None)) zones.

(** The happiness of a zone with no building in reach: the base 60, plus
    20 with road, power and water, minus 10 otherwise. *)
Definition restingHappiness (zone : Zone.t) : R :=
  if Zone.hasAllBasicInfrastructure zone then 80 else 50.

(** What the growth pass may do to a zone: nothing but put a building on
    it, unless it is part of a block, or change the building it has. *)
Definition grownFrom (z z' : Zone.t) : Prop :=
  Zone.x z' = Zone.x z /\ Zone.y z' = Zone.y z
  /\ Zone.type z' = Zone.type z
  /\ Zone.infrastructure z' = Zone.infrastructure z
  /\ Zone.happiness z' = Zone.happiness z
  /\ Zone.pollution z' = Zone.pollution z
  /\ Zone.blockZoneId z' = Zone.blockZoneId z
  /\ Zone.blockZoneX z' = Zone.blockZoneX z
  /\ Zone.blockZoneY z' = Zone.blockZoneY z
  /\ (is_Some (Zone.building z) -> is_Some (Zone.building z'))
  /\ (Zone.isBlockZone z = true -> Zone.building z = None ->
      Zone.building z' = None).

(** Two zone arrays of the same shape, related zone by zone. *)
Definition zonewise (P : Zone.t -> Zone.t -> Prop)
    (before after : list (list Zone.t)) : Prop :=
  Forall2 (Forall2 P) before after.

(** The shape of a city: [gridHeight] rows of [gridWidth] zones. *)
Definition shaped (c : City.t) : Prop :=
  length (City.zones c) = Z.to_nat (City.gridHeight c)
  /\ Forall (fun row => length row = Z.to_nat (City.gridWidth c))
       (City.zones c).

(** The distance between two nodes, and its square. *)
Definition nodeDistanceSq (n s : PowerNode) : Z :=
  distanceSq (node_x n) (node_y n) (node_x s) (node_y s).

Definition nodeDistance (n s : PowerNode) : R :=
  calculateDistance (node_x n) (node_y n) (node_x s) (node_y s).

(** No cell of the grid holds a power plant. *)
Definition noPowerPlant (grid : list (list GridCell)) : Prop :=
  Forall (Forall (fun cell =>
                    forall b, cell_building cell = Some b ->
                              PowerGridManager.isPowerSource b = false)) grid.

(** A consumer that no source serves. *)
Definition unserved (n : PowerNode) : Prop :=
  node_type n = consumer /\ connected n = false /\ node_powerSource n = None.

(** What [buildPowerConnections] records in a connection from the source
    [s] to the consumer [n]. *)
Definition connects (n s : PowerNode) (conn : PowerConnection) : Prop :=
  node_type n = consumer
  /\ from conn = node_id s /\ to conn = node_id n
  /\ conn_capacity conn = Z.min (capacity s) (demand n)
  /\ conn_distance conn = nodeDistance n s
  /\ conn_efficiency conn
     = Rmax 0.1 (PowerGridManager.POWER_LINE_EFFICIENCY - nodeDistance n s * 0.01).

(** The cell a node stands for. *)
Definition nodePosition (n : PowerNode) : Z * Z := (node_x n, node_y n).

(** What the running totals of [getGridConnectivityStats] satisfy after
    [n] buildings. *)
Definition tallied (n : Z) (t : ConnectivityStats.Totals) : Prop :=
  ConnectivityStats.t_totalBuildings t = n
  /\ ConnectivityStats.t_fullyConnected t
     + ConnectivityStats.t_partiallyConnected t
     + ConnectivityStats.t_poorlyConnected t = n
  /\ 0 <= ConnectivityStats.t_fullyConnected t
  /\ 0 <= ConnectivityStats.t_partiallyConnected t
  /\ 0 <= ConnectivityStats.t_poorlyConnected t
  /\ 0 <= ConnectivityStats.t_roadConnected t <= n
  /\ 0 <= ConnectivityStats.t_powerConnected t <= n
  /\ 0 <= ConnectivityStats.t_waterConnected t <= n.

(** Some cell of the grid other than [(x, y)], within the Euclidean radius
    [range] of it, carries the flag [type]. *)
Definition neighbourCarries (type : InfrastructureType) (range : Z)
    (x y : Z) (grid : list (list GridCell)) : Prop :=
  exists nx ny neighbor,
    (nx, ny) <> (x, y)
    /\ at2 grid nx ny = Some neighbor
    /\ (calculateDistance x y nx ny <= IZR range)%R
    /\ hasInfrastructure (cell_infrastructure neighbor) type = true.

(** What a zone must satisfy to come out of [fromGridFormat]. *)
Definition sanitised (x y : Z) (zone : Zone.t) : Prop :=
  Zone.x zone = x /\ Zone.y zone = y
  /\ NoDup (Zone.infrastructure zone)
  /\ (0 <= Zone.happiness zone <= 100)%R
  /\ (0 <= Zone.pollution zone <= 100)%R.

(** A grid cell that [fromGridFormat] takes over as it is: it sits at its
    own coordinates, is zoned, lists no flag twice, has happiness and
    pollution in range and carries block data exactly when it is marked
    as part of a block. *)
Definition normalCell (x y : Z) (cell : GridCell) : Prop :=
  cell_x cell = x /\ cell_y cell = y
  /\ is_Some (zoneType cell)
  /\ NoDup (cell_infrastructure cell)
  /\ (0 <= cell_happiness cell <= 100)%R
  /\ (0 <= cell_pollution cell <= 100)%R
  /\ (if isBlockZone cell
      then is_Some (cell_blockZoneId cell) /\ is_Some (cell_blockZoneX cell)
           /\ is_Some (cell_blockZoneY cell)
      else cell_blockZoneId cell = None /\ cell_blockZoneX cell = None
           /\ cell_blockZoneY cell = None).

(** The cell with its building passed through [Building.fromJSON] and its
    power and connectivity annotations as [toGridFormat] writes them. *)
Definition reloaded (cell : GridCell) : GridCell :=
  mkCell (cell_x cell) (cell_y cell) (zoneType cell)
    (cell_infrastructure cell) (Building.fromJSON <$> cell_building cell)
    (cell_happiness cell) (cell_pollution cell) (isBlockZone cell)
    (cell_blockZoneId cell) (cell_blockZoneX cell) (cell_blockZoneY cell)
    false None 0 0 false false None None.

(** Two cells with the same infrastructure flags and the same building,
    and the same for two entries of a neighbour list, where a position
    outside the grid gives no cell. *)
Definition sameFlags (a b : GridCell) : Prop :=
  cell_infrastructure b = cell_infrastructure a
  /\ cell_building b = cell_building a.

Definition sameFlagsOpt (a b : option GridCell) : Prop :=
  match a, b with
  | Some a, Some b => sameFlags a b
  | None, None => True
  | _, _ => False
  end.

(** A grid none of whose cells is marked as part of a block, and the same
    for the zones of a city. *)
Definition noBlockCells (grid : list (list GridCell)) : Prop :=
  Forall (Forall (fun cell => isBlockZone cell = false)) grid.

Definition noBlockZones (zones : list (list Zone.t)) : Prop :=
  Forall (Forall (fun zone => Zone.isBlockZone zone = false)) zones.

Ltac munfold := unfold mbind, mret, M_bind, M_ret in *.

(** * Properties *)

(** ** Basic facts *)

Lemma Rltb_true a b : (a < b)%R -> Rltb a b = true.
Proof. intros. unfold Rltb. destruct (Rlt_dec a b); [done | lra]. Qed.

Lemma Rltb_false a b : (b <= a)%R -> Rltb a b = false.
Proof. intros. unfold Rltb. destruct (Rlt_dec a b); [lra | done]. Qed.

Lemma Rltb_spec a b : Rltb a b = true <-> (a < b)%R.
Proof. unfold Rltb. destruct (Rlt_dec a b); split; intros; try done; lra. Qed.

Lemma Rleb_true a b : (a <= b)%R -> Rleb a b = true.
Proof. intros. unfold Rleb. destruct (Rle_dec a b); [done | lra]. Qed.

Lemma Rleb_false a b : (b < a)%R -> Rleb a b = false.
Proof. intros. unfold Rleb. destruct (Rle_dec a b); [lra | done]. Qed.

Lemma Rgtb_spec a b : Rgtb a b = true <-> (a > b)%R.
Proof. unfold Rgtb. rewrite Rltb_spec. lra. Qed.

Lemma Rmax_Rmin_bounds lo hi v :
  (lo <= hi)%R -> (lo <= Rmax lo (Rmin hi v) <= hi)%R.
Proof.
  intros. unfold Rmax, Rmin.
  destruct (Rle_dec hi v); destruct (Rle_dec lo _); lra.
Qed.

Lemma clamp_bounds v lo hi : (lo <= hi)%R -> (lo <= clamp v lo hi <= hi)%R.
Proof.
  intros. unfold clamp, Rmax, Rmin.
  destruct (Rle_dec v lo); destruct (Rle_dec _ hi); lra.
Qed.

Lemma clamp_id v lo hi : (lo <= v <= hi)%R -> clamp v lo hi = v.
Proof.
  intros. unfold clamp, Rmax, Rmin.
  destruct (Rle_dec v lo); destruct (Rle_dec _ hi); lra.
Qed.

Lemma includes_spec l t : includes l t = true <-> t ∈ l.
Proof. unfold includes. apply bool_decide_eq_true. Qed.

(** [at2] and [alter2]. *)

Lemma at2_alter2 {A} (f : A -> A) x y (a : list (list A)) :
  at2 (alter2 f x y a) x y = f <$> at2 a x y.
Proof.
  unfold at2, alter2. destruct ((x <? 0) || (y <? 0)); [done |].
  rewrite list_lookup_alter_eq.
  destruct (a !! Z.to_nat y) as [row |]; simpl; [| done].
  apply list_lookup_alter_eq.
Qed.

Lemma at2_alter2_ne {A} (f : A -> A) x y x' y' (a : list (list A)) :
  0 <= x' -> 0 <= y' -> (x, y) <> (x', y') ->
  at2 (alter2 f x y a) x' y' = at2 a x' y'.
Proof.
  intros Hx Hy Hne. unfold at2, alter2.
  destruct ((x <? 0) || (y <? 0)) eqn:E; [done |].
  apply orb_false_iff in E as [Ex Ey].
  apply Z.ltb_ge in Ex, Ey.
  destruct ((x' <? 0) || (y' <? 0)); [done |].
  destruct (decide (Z.to_nat y = Z.to_nat y')) as [Hy' | Hy'].
  - rewrite <- Hy', list_lookup_alter_eq.
    destruct (a !! Z.to_nat y) as [row |]; simpl; [| done].
    apply list_lookup_alter_ne. intros Hx'.
    apply Hne. f_equal; lia.
  - by rewrite list_lookup_alter_ne.
Qed.

Lemma at2_negative {A} (a : list (list A)) x y :
  x < 0 \/ y < 0 -> at2 a x y = None.
Proof.
  intros Hneg. unfold at2.
  replace ((x <? 0) || (y <? 0)) with true; [done |].
  symmetry. apply orb_true_iff.
  destruct Hneg; [left | right]; by apply Z.ltb_lt.
Qed.



Lemma at2_Some_bounds {A} (a : list (list A)) x y v :
  at2 a x y = Some v -> 0 <= x /\ 0 <= y.
Proof.
  unfold at2. destruct ((x <? 0) || (y <? 0)) eqn:E; [done |].
  apply orb_false_iff in E as [Ex Ey]. apply Z.ltb_ge in Ex, Ey. done.
Qed.

(** In a well-formed city every index inside the bounds is defined. *)
Lemma City_wf_at2 c x y :
  City.wf c -> City.outOfBounds x y c = false ->
  exists zone, at2 (City.zones c) x y = Some zone.
Proof.
  intros (Hw & Hh & Hlen & Hrows) Hb.
  unfold City.outOfBounds in Hb.
  repeat (apply orb_false_iff in Hb as [Hb ?]).
  apply Z.ltb_ge in Hb. apply Z.leb_gt in H. apply Z.ltb_ge in H0.
  apply Z.leb_gt in H1.
  unfold at2.
  replace ((x <? 0) || (y <? 0)) with false
    by (symmetry; apply orb_false_iff; split; apply Z.ltb_ge; lia).
  destruct (City.zones c !! Z.to_nat y) as [row |] eqn:Hrow.
  - simpl.
    assert (Hl : length row = Z.to_nat (City.gridWidth c)).
    { rewrite Forall_lookup in Hrows. by eapply Hrows. }
    destruct (row !! Z.to_nat x) as [zone |] eqn:Hz; [by eexists |].
    apply lookup_ge_None in Hz. lia.
  - apply lookup_ge_None in Hrow. lia.
Qed.

Lemma City_new_wf w h : 0 <= w -> 0 <= h -> City.wf (City.new w h).
Proof.
  intros. unfold City.wf, City.new, City.initializeZones. simpl.
  repeat split; try done.
  - by rewrite length_map, length_seq.
  - apply Forall_map, Forall_forall. intros. simpl.
    by rewrite length_map, length_seq.
Qed.

(** ** Zone designation (C5) *)

(** C5 (the code departs from the claim).  The claim: adding a zone at
    in-bounds coordinates of a cell that has not been zoned, such as any
    cell of a fresh grid, returns true and sets the cell's type.  The code:
    the constructor of [Zone] replaces a null type by residential, so
    [getType()] is never null and [addZone] takes its "zone already exists"
    exit: on every well-formed city, and so on a fresh one, it returns
    false and changes nothing, whatever the coordinates. *)
Theorem C5_addZone_always_refuses :
  forall (c : City.t) (x y : Z) (zoneType : ZoneType),
    City.wf c -> City.addZone x y zoneType c = Some (false, c).
Proof.
  intros c x y zoneType Hwf. unfold City.addZone.
  destruct (City.outOfBounds x y c) eqn:Hb; [done |].
  destruct (City_wf_at2 c x y Hwf Hb) as [zone ->]. simpl.
  unfold Zone.getType. by destruct (decide (Some (Zone.type zone) <> None)).
Qed.

Lemma C5_addZone_fresh_city :
  City.wf (City.new 2 2)
  /\ City.addZone 0 0 COMMERCIAL (City.new 2 2) = Some (false, City.new 2 2)
  /\ (Zone.getType <$> at2 (City.zones (City.new 2 2)) 0 0)
     = Some (Some RESIDENTIAL).
Proof.
  split; [apply City_new_wf; lia |].
  split; [| reflexivity].
  apply (C5_addZone_always_refuses (City.new 2 2) 0 0 COMMERCIAL).
  apply City_new_wf; lia.
Defined.

(** ** Infrastructure flags (C10) *)

Lemma Zone_addInfrastructure_cases ty z :
  Zone.addInfrastructure ty z
  = if Zone.hasInfrastructure ty z then (false, z)
    else (true, Zone.putInfrastructure (Zone.infrastructure z ++ [ty]) z).
Proof.
  unfold Zone.addInfrastructure, Zone.hasInfrastructure.
  by destruct (includes (Zone.infrastructure z) ty).
Qed.












(** ** Growth of single cells (C2) *)

Lemma canGrowInCurrentWeather_run w :
  WeatherManager.canGrowInCurrentWeather w
  = (Rltb (randoms w (drawn w))
          (WeatherManager.growthModifier
             (WeatherManager.WEATHER_EFFECTS (currentWeather w))),
     mkWorld (randoms w) (S (drawn w)) (clock w) (currentWeather w)
             (weatherDuration w)).
Proof. reflexivity. Qed.

Lemma hasAll_length z :
  Zone.hasAllBasicInfrastructure z = true ->
  (0 <? Z.of_nat (length (Zone.getInfrastructure z))) = true.
Proof.
  unfold Zone.hasAllBasicInfrastructure, hasAllBasicInfrastructure,
    hasInfrastructure, Zone.getInfrastructure.
  intros Hall. apply andb_true_iff in Hall as [Hall _].
  apply andb_true_iff in Hall as [Hroad _]. apply includes_spec in Hroad.
  destruct (Zone.infrastructure z); [by apply elem_of_nil in Hroad |].
  simpl. apply Z.ltb_lt. lia.
Qed.

(** What the single-cell branch leaves in the zone. *)
Lemma growSingleCell_building zone w :
  Zone.getBuilding zone = None ->
  Zone.getBuilding (fst (City.growSingleCell zone w))
  = if Zone.hasAllBasicInfrastructure zone
       && Rltb (randoms w (drawn w))
               (WeatherManager.growthModifier
                  (WeatherManager.WEATHER_EFFECTS (currentWeather w)))
       && Rgtb (Zone.happiness zone) 30
       && Rltb (randoms w (2 + drawn w))
               (0.3 + INR (length (Zone.infrastructure zone)) * 0.1
                + Zone.happiness zone / 200)
    then Some (Building.new (building_id (clock w) (randoms w (1 + drawn w)))
                 (Zone.x zone) (Zone.y zone) (Zone.type zone))
    else None.
Proof.
  intros Hnone. unfold Zone.getBuilding in *.
  unfold City.growSingleCell, City.canZoneGrow. munfold.
  rewrite canGrowInCurrentWeather_run. cbn beta iota.
  unfold Zone.getHappiness.
  assert (Hcreate : forall i w0,
            Zone.createBuilding i zone w0
            = if Zone.hasAllBasicInfrastructure zone
                 && Rltb (randoms w0 (drawn w0))
                      (0.3 + INR (length (Zone.infrastructure zone)) * 0.1
                       + Zone.happiness zone / 200)
              then (let b := Building.new i (Zone.x zone) (Zone.y zone)
                                 (Zone.type zone) in
                    (Some b, Zone.setBuilding (Some b) zone),
                    mkWorld (randoms w0) (S (drawn w0)) (clock w0)
                      (currentWeather w0) (weatherDuration w0))
              else if Zone.hasAllBasicInfrastructure zone
                   then ((None, zone),
                         mkWorld (randoms w0) (S (drawn w0)) (clock w0)
                           (currentWeather w0) (weatherDuration w0))
                   else ((None, zone), w0)).
  { intros i w0. unfold Zone.createBuilding. rewrite Hnone. munfold.
    unfold Zone.shouldCreateBuilding.
    destruct (Zone.hasAllBasicInfrastructure zone); cbn; [| done].
    munfold. unfold Math_random. cbn. by destruct (Rltb _ _). }
  destruct (Zone.hasAllBasicInfrastructure zone) eqn:Hall.
  - rewrite (hasAll_length zone Hall). cbn [andb].
    destruct (Rltb _ _) eqn:Hweather; cbn [andb]; [| by cbn].
    destruct (Rgtb _ _) eqn:Hhappy; cbn [andb]; [| by cbn].
    unfold Date_now, Math_random. cbn. rewrite Hcreate. cbn.
    by destruct (Rltb (randoms w (S (S (drawn w)))) _).
  - cbn [andb].
    destruct (0 <? _); cbn [andb]; [| by cbn].
    destruct (Rltb _ _); cbn [andb]; [| by cbn].
    destruct (Rgtb _ _); cbn [andb]; [| by cbn].
    unfold Date_now, Math_random. cbn. rewrite Hcreate. by cbn.
Qed.

Lemma growCell_single c x y zone w :
  at2 (City.zones c) x y = Some zone ->
  Zone.isBlockZone zone = false ->
  Zone.getBuilding zone = None ->
  exists c',
    fst (City.growCell c (x, y) w) = Some c'
    /\ at2 (City.zones c') x y = Some (fst (City.growSingleCell zone w)).
Proof.
  intros Hz Hblock Hnone. unfold City.growCell. rewrite Hz.
  unfold Zone.getType. rewrite Hnone, Hblock. munfold.
  destruct (City.growSingleCell zone w) as [zone' w']. simpl.
  eexists. split; [reflexivity |]. simpl. by rewrite at2_alter2, Hz.
Qed.

(** C2 (amended).  For a cell that is not part of a block and holds no
    building, the growth pass returns from the cell, and it has put a
    building on it exactly when the cell
    carries all three basic infrastructure flags (road, power and water),
    the weather check permits growth, the cell's happiness exceeds 30 and
    the uniform draw falls below 0.3 + 0.1 x (number of flags) +
    happiness/200; for a draw in [0,1) that is the event of probability
    clamp(0.3 + 0.1 x flags + happiness/200, 0, 1). *)
Theorem C2_single_cell_growth :
  forall (c : City.t) (x y : Z) (zone : Zone.t) (w : World),
    at2 (City.zones c) x y = Some zone ->
    Zone.isBlockZone zone = false ->
    Zone.getBuilding zone = None ->
    let weatherDraw := randoms w (drawn w) in
    let spawnDraw := randoms w (2 + drawn w) in
    let chance :=
      (0.3 + INR (length (Zone.infrastructure zone)) * 0.1
       + Zone.happiness zone / 200)%R in
    exists c',
      fst (City.growCell c (x, y) w) = Some c'
      /\ ((exists b, at2 (City.zones c') x y ≫= Zone.getBuilding = Some b)
          <-> Zone.hasAllBasicInfrastructure zone = true
              /\ (weatherDraw
                  < WeatherManager.growthModifier
                      (WeatherManager.WEATHER_EFFECTS (currentWeather w)))%R
              /\ (Zone.happiness zone > 30)%R
              /\ (spawnDraw < chance)%R)
      /\ ((0 <= spawnDraw < 1)%R ->
          ((spawnDraw < chance)%R <-> (spawnDraw < clamp chance 0 1)%R)).
Proof.
  intros c x y zone w Hz Hblock Hnone weatherDraw spawnDraw chance.
  destruct (growCell_single c x y zone w Hz Hblock Hnone)
    as (c' & Hrun & Hc').
  exists c'. split; [exact Hrun |].
  split.
  - rewrite Hc'. simpl.
    rewrite (growSingleCell_building zone w Hnone).
    fold weatherDraw spawnDraw chance.
    rewrite <- (Rltb_spec weatherDraw), <- Rgtb_spec, <- (Rltb_spec spawnDraw).
    destruct (Zone.hasAllBasicInfrastructure zone);
      destruct (Rltb weatherDraw _); destruct (Rgtb _ _);
      destruct (Rltb spawnDraw _); cbn [andb];
      split; try (intros (b & [=])); try (intros (? & ? & ? & ?));
      try done; by eexists.
  - intros Hdraw. unfold clamp, Rmax, Rmin.
    destruct (Rle_dec chance 0); destruct (Rle_dec _ 1); lra.
Qed.

Lemma C2_single_cell_growth_witness :
  let zone :=
    Zone.mk 0 0 RESIDENTIAL [road; power; water] None 50 0 None None None in
  let w := mkWorld (fun _ => 0%R) 0 0 SUNNY 5 in
  exists c' b,
    fst (City.growCell (singleZoneCity zone) (0, 0) w) = Some c'
    /\ at2 (City.zones c') 0 0 ≫= Zone.getBuilding = Some b.
Proof.
  intros zone w.
  destruct (C2_single_cell_growth (singleZoneCity zone) 0 0 zone w
              eq_refl eq_refl eq_refl) as (c' & Hrun & Hiff & _).
  exists c'.
  destruct (proj2 Hiff) as [b Hb].
  { split; [reflexivity |]. simpl. lra. }
  by exists b.
Defined.

(** C2 as claimed fails: a cell with one infrastructure flag (a road),
    happiness 50 and a weather check that permits growth gets no building,
    although the draw, 0, is below the claimed probability
    clamp(0.3 + 0.1 + 50/200, 0, 1) = 0.65. *)
Lemma C2_counterexample :
  let zone := Zone.mk 0 0 RESIDENTIAL [road] None 50 0 None None None in
  let w := mkWorld (fun _ => 0%R) 0 0 SUNNY 5 in
  let chance :=
    (0.3 + INR (length (Zone.infrastructure zone)) * 0.1
     + Zone.happiness zone / 200)%R in
  (1 <= length (Zone.infrastructure zone))%nat
  /\ fst (WeatherManager.canGrowInCurrentWeather w) = true
  /\ (Zone.happiness zone > 30)%R
  /\ (randoms w (2 + drawn w) < clamp chance 0 1)%R
  /\ exists c',
       fst (City.growCell (singleZoneCity zone) (0, 0) w) = Some c'
       /\ at2 (City.zones c') 0 0 ≫= Zone.getBuilding = None.
Proof.
  intros zone w chance.
  split; [simpl; lia |].
  split; [rewrite canGrowInCurrentWeather_run; apply Rltb_true; simpl; lra |].
  split; [simpl; lra |].
  split.
  - subst chance. simpl. unfold clamp, Rmax, Rmin.
    destruct (Rle_dec _ 0); destruct (Rle_dec _ 1); lra.
  - destruct (growCell_single (singleZoneCity zone) 0 0 zone w
                eq_refl eq_refl eq_refl) as (c' & Hrun & Hc').
    exists c'. split; [exact Hrun |].
    rewrite Hc'. simpl. by rewrite growSingleCell_building.
Qed.

(** ** Upgrades (C7) *)

Lemma upgradeCell_building zone b w :
  Zone.getBuilding zone = Some b ->
  Zone.getBuilding (fst (City.upgradeCell zone w))
  = Some (if negb (bool_decide (Building.size b = LARGE))
             && Rgtb (Zone.happiness zone) 50
             && Rltb (randoms w (drawn w))
                     (WeatherManager.growthModifier
                        (WeatherManager.WEATHER_EFFECTS (currentWeather w)))
             && Zone.hasAllBasicInfrastructure zone
             && Rgtb (Zone.happiness zone) 60
             && Rltb (randoms w (1 + drawn w)) 0.2
          then snd (Building.upgrade b) else b).
Proof.
  intros Hb. unfold Zone.getBuilding in *.
  unfold City.upgradeCell, City.canBuildingUpgrade, Zone.getBuilding.
  rewrite Hb. unfold Building.getSize, Zone.getHappiness.
  destruct (decide (Building.size b = LARGE)) as [Hl | Hl].
  - rewrite (bool_decide_eq_true_2 _ Hl). munfold. cbn. by rewrite Hb.
  - rewrite (bool_decide_eq_false_2 _ Hl). munfold.
    rewrite canGrowInCurrentWeather_run. cbn [negb andb].
    destruct (Rgtb (Zone.happiness zone) 50) eqn:H50; cbn [andb];
      [| cbn; by rewrite Hb].
    destruct (Rltb (randoms w (drawn w)) _) eqn:Hw; cbn [andb];
      [| cbn; by rewrite Hb].
    unfold Zone.upgradeBuilding, Zone.shouldUpgradeBuilding. rewrite Hb.
    unfold Building.getSize. munfold.
    destruct (decide (Building.size b = LARGE)); [done |].
    destruct (Zone.hasAllBasicInfrastructure zone); cbn [andb];
      [| cbn; by rewrite Hb].
    destruct (Rgtb (Zone.happiness zone) 60); cbn [andb];
      [| cbn; by rewrite Hb].
    unfold Math_random. cbn.
    destruct (Rltb (randoms w (S (drawn w))) 0.2); cbn; [| by rewrite Hb].
    by destruct (Building.upgrade b).
Qed.

Lemma growCell_upgrade c x y zone b w :
  at2 (City.zones c) x y = Some zone ->
  Zone.getBuilding zone = Some b ->
  exists c',
    fst (City.growCell c (x, y) w) = Some c'
    /\ at2 (City.zones c') x y = Some (fst (City.upgradeCell zone w)).
Proof.
  intros Hz Hb. unfold City.growCell. rewrite Hz.
  unfold Zone.getType. rewrite Hb. munfold.
  destruct (City.upgradeCell zone w) as [zone' w']. simpl.
  eexists. split; [reflexivity |]. simpl. by rewrite at2_alter2, Hz.
Qed.

(** C7 (amended).  For a cell that holds a building, the growth pass
    returns from the cell, and it moves the building one step up (small to
    medium, medium to large) exactly when its size is below large, the
    cell's happiness exceeds 60, the cell carries road, power and water,
    the weather check permits growth and the upgrade draw falls below 0.2;
    in every other case the building is left as it is.  The size never
    decreases, and a block-2x2 building keeps its size. *)
Theorem C7_upgrade_step :
  forall (c : City.t) (x y : Z) (zone : Zone.t) (b : Building.t) (w : World),
    at2 (City.zones c) x y = Some zone ->
    Zone.getBuilding zone = Some b ->
    let weatherDraw := randoms w (drawn w) in
    let upgradeDraw := randoms w (1 + drawn w) in
    let upgrades :=
      (Building.size b = SMALL \/ Building.size b = MEDIUM)
      /\ (Zone.happiness zone > 60)%R
      /\ Zone.hasAllBasicInfrastructure zone = true
      /\ (weatherDraw
          < WeatherManager.growthModifier
              (WeatherManager.WEATHER_EFFECTS (currentWeather w)))%R
      /\ (upgradeDraw < 0.2)%R in
    exists c' b',
      fst (City.growCell c (x, y) w) = Some c'
      /\ at2 (City.zones c') x y ≫= Zone.getBuilding = Some b'
      /\ (upgrades ->
          Building.sizeRank (Building.size b')
          = Building.sizeRank (Building.size b) + 1)
      /\ (~ upgrades -> b' = b)
      /\ Building.sizeRank (Building.size b)
         <= Building.sizeRank (Building.size b')
      /\ (Building.size b = BLOCK_2X2 -> Building.size b' = BLOCK_2X2).
Proof.
  intros c x y zone b w Hz Hb weatherDraw upgradeDraw upgrades.
  destruct (growCell_upgrade c x y zone b w Hz Hb) as (c' & Hrun & Hc').
  exists c'. eexists. split; [exact Hrun |]. split.
  { rewrite Hc'. simpl. apply (upgradeCell_building zone b w Hb). }
  fold weatherDraw upgradeDraw.
  assert (H50 : Rgtb (Zone.happiness zone) 60 = true ->
                Rgtb (Zone.happiness zone) 50 = true).
  { rewrite !Rgtb_spec. lra. }
  subst upgrades.
  rewrite <- (Rltb_spec weatherDraw), <- Rgtb_spec, <- (Rltb_spec upgradeDraw).
  destruct (Rgtb (Zone.happiness zone) 60) eqn:H60;
    [rewrite (H50 eq_refl) |];
    destruct (Rgtb (Zone.happiness zone) 50);
    destruct (Rltb weatherDraw _);
    destruct (Zone.hasAllBasicInfrastructure zone);
    destruct (Rltb upgradeDraw _);
    unfold Building.upgrade;
    destruct (Building.size b) eqn:Hsize;
    case_bool_decide; try done; cbn [negb andb snd];
    (split; [| split; [| split]]);
    try (intros _; cbn; rewrite ?Hsize; done);
    try (intros Hno; done);
    try (intros Hno; exfalso; apply Hno; naive_solver);
    try (intros ([? | ?] & ? & ? & ? & ?); done);
    cbn; rewrite ?Hsize; cbn; lia.
Qed.

Lemma C7_upgrade_step_witness :
  let b := Building.new (given_id 1) 0 0 RESIDENTIAL in
  let zone :=
    Zone.mk 0 0 RESIDENTIAL [road; power; water] (Some b) 70 0
      None None None in
  let w := mkWorld (fun _ => 0%R) 0 0 SUNNY 5 in
  exists c' b',
    fst (City.growCell (singleZoneCity zone) (0, 0) w) = Some c'
    /\ at2 (City.zones c') 0 0 ≫= Zone.getBuilding = Some b'
    /\ Building.sizeRank (Building.size b')
       = Building.sizeRank (Building.size b) + 1.
Proof.
  intros b zone w.
  destruct (C7_upgrade_step (singleZoneCity zone) 0 0 zone b w
              eq_refl eq_refl) as (c' & b' & Hrun & Hb' & Hup & _).
  exists c', b'. split; [exact Hrun |]. split; [exact Hb' |]. apply Hup.
  split; [by left |]. simpl. repeat split; lra.
Defined.

(** C7 as claimed fails: a small building on a cell with road, power and
    water, happiness 55 (above 50) and a weather check that permits growth
    stays small. *)
Lemma C7_counterexample :
  let b := Building.new (given_id 1) 0 0 RESIDENTIAL in
  let zone :=
    Zone.mk 0 0 RESIDENTIAL [road; power; water] (Some b) 55 0
      None None None in
  let w := mkWorld (fun _ => 0%R) 0 0 SUNNY 5 in
  Building.size b = SMALL
  /\ (Zone.happiness zone > 50)%R
  /\ fst (WeatherManager.canGrowInCurrentWeather w) = true
  /\ exists c',
       fst (City.growCell (singleZoneCity zone) (0, 0) w) = Some c'
       /\ at2 (City.zones c') 0 0 ≫= Zone.getBuilding = Some b.
Proof.
  intros b zone w.
  split; [done |]. split; [simpl; lra |].
  split; [rewrite canGrowInCurrentWeather_run; apply Rltb_true; simpl; lra |].
  destruct (growCell_upgrade (singleZoneCity zone) 0 0 zone b w
              eq_refl eq_refl) as (c' & Hrun & Hc').
  exists c'. split; [exact Hrun |].
  rewrite Hc'. simpl. rewrite (upgradeCell_building zone b w eq_refl).
  replace (Rgtb (Zone.happiness zone) 60) with false
    by (symmetry; apply Rltb_false; simpl; lra).
  by rewrite !andb_false_r.
Qed.

(** ** Bounds of happiness and pollution (C4) *)

Lemma Zone_setHappiness_bounds h z :
  (0 <= Zone.happiness (Zone.setHappiness h z) <= 100)%R.
Proof. simpl. apply Rmax_Rmin_bounds. lra. Qed.

Lemma Zone_setPollution_bounds p z :
  (0 <= Zone.pollution (Zone.setPollution p z) <= 100)%R.
Proof. simpl. apply Rmax_Rmin_bounds. lra. Qed.

Lemma Zone_updateHappiness_bounds a b c z :
  (0 <= Zone.happiness (Zone.updateHappiness a b c z) <= 100)%R.
Proof. unfold Zone.updateHappiness. simpl. apply Rmax_Rmin_bounds. lra. Qed.

Lemma Zone_updatePollution_upper `{BuildingStats} a b z :
  (Zone.pollution (Zone.updatePollution a b z) <= 100)%R.
Proof. unfold Zone.updatePollution. simpl. apply Rmin_l. Qed.

(** The happiness pass keeps every happiness inside [0,100]. *)
Lemma updateAllZoneHappiness_bounds `{BuildingStats} zones w h :
  Forall (Forall happinessInRange) zones ->
  Forall (Forall happinessInRange)
    (HappinessManager.updateAllZoneHappiness zones w h).
Proof.
  unfold HappinessManager.updateAllZoneHappiness.
  generalize (coords w h). intros l. revert zones.
  induction l as [| [x y] l IH]; intros zones Hz; simpl; [done |].
  apply IH. unfold HappinessManager.updateZoneHappinessAt.
  destruct (at2 zones x y) as [zone |]; [| done]. cbn.
  unfold alter2. destruct ((x <? 0) || (y <? 0)); [done |].
  apply Forall_alter; [done |]. intros row _ Hrow.
  apply Forall_alter; [done |]. intros z _ _.
  apply Zone_setHappiness_bounds.
Qed.

(** C4 (the code departs from the claim).  Happiness is clamped into
    [0,100] by every write, and pollution never exceeds 100; but
    [Zone.updatePollution], through which the weather pass writes, has no
    lower clamp and rebuilds the pollution from the building's output plus
    the delta it is handed: a zone without a building whose pollution is 50
    comes out of the sunny-weather effect (modifier -2) with pollution
    -2. *)
Theorem C4_weather_pollution_below_zero :
  forall (S : BuildingStats),
    (forall h z, (0 <= Zone.happiness (Zone.setHappiness h z) <= 100)%R)
    /\ (forall a b c z,
          (0 <= Zone.happiness (Zone.updateHappiness a b c z) <= 100)%R)
    /\ (forall p z, (0 <= Zone.pollution (Zone.setPollution p z) <= 100)%R)
    /\ (forall a b z, (Zone.pollution (Zone.updatePollution a b z) <= 100)%R)
    /\ (let zone := Zone.setPollution 50 (Zone.new 0 0 None) in
        Zone.pollution zone = 50%R
        /\ Zone.pollution
             (WeatherManager.applyWeatherPollutionEffect
                (WeatherManager.WEATHER_EFFECTS SUNNY) zone)
           = (-2)%R).
Proof.
  intros S.
  split; [apply Zone_setHappiness_bounds |].
  split; [apply Zone_updateHappiness_bounds |].
  split; [apply Zone_setPollution_bounds |].
  split; [apply Zone_updatePollution_upper |].
  assert (H50 : Rmax 0 (Rmin 100 50) = 50%R).
  { unfold Rmax, Rmin. destruct (Rle_dec 100 50); destruct (Rle_dec 0 _); lra. }
  split; [exact H50 |].
  unfold WeatherManager.applyWeatherPollutionEffect, Zone.updatePollution,
    Zone.getPollution.
  simpl. rewrite H50.
  unfold Rmax, Rmin.
  destruct (Rle_dec 100 (50 + -2)); destruct (Rle_dec 0 _);
    destruct (Rle_dec 100 _); lra.
Qed.

(** ** Geometry of the neighbourhood scans *)

Lemma distanceSq_nonneg x1 y1 x2 y2 : 0 <= distanceSq x1 y1 x2 y2.
Proof.
  unfold distanceSq.
  pose proof (Z.square_nonneg (x2 - x1)).
  pose proof (Z.square_nonneg (y2 - y1)). lia.
Qed.

(** The test on the squares decides the test on the Euclidean distance. *)
Lemma distanceWithin_sqrt x1 y1 x2 y2 r :
  0 <= r ->
  distanceWithin x1 y1 x2 y2 r = true
  <-> (calculateDistance x1 y1 x2 y2 <= IZR r)%R.
Proof.
  intros Hr. unfold distanceWithin, calculateDistance.
  pose proof (distanceSq_nonneg x1 y1 x2 y2) as Hd.
  set (d := distanceSq x1 y1 x2 y2) in *.
  assert (Hsq : sqrt (IZR (r * r)) = IZR r).
  { rewrite mult_IZR. apply sqrt_square. by apply IZR_le. }
  rewrite Z.leb_le. split; intros H.
  - rewrite <- Hsq. apply sqrt_le_1_alt. by apply IZR_le.
  - destruct (Z_le_gt_dec d (r * r)) as [| Hgt]; [done |].
    exfalso. apply Z.gt_lt, IZR_lt in Hgt.
    assert (Hlt : (sqrt (IZR (r * r)) < sqrt (IZR d))%R).
    { apply sqrt_lt_1_alt. split; [apply IZR_le; nia | done]. }
    rewrite Hsq in Hlt. lra.
Qed.

Lemma elem_of_offsets r d : 0 <= r -> d ∈ offsets r <-> - r <= d <= r.
Proof.
  intros Hr. unfold offsets. rewrite list_elem_of_fmap. split.
  - intros (i & -> & Hi). apply elem_of_seq in Hi. lia.
  - intros Hd. exists (Z.to_nat (d + r)). split; [lia |].
    apply elem_of_seq. lia.
Qed.

Lemma elem_of_scanBox r dx dy :
  0 <= r -> (dx, dy) ∈ scanBox r <-> (- r <= dx <= r /\ - r <= dy <= r).
Proof.
  intros Hr. unfold scanBox. rewrite list_elem_of_bind. split.
  - intros (dy' & Hin & Hdy). apply list_elem_of_bind in Hin.
    destruct Hin as (dx' & Hin & Hdx).
    apply list_elem_of_singleton in Hin. injection Hin as -> ->.
    apply elem_of_offsets in Hdx, Hdy; done.
  - intros [Hdx Hdy]. exists dy. split; [| by apply elem_of_offsets].
    apply list_elem_of_bind. exists dx. split; [| by apply elem_of_offsets].
    by apply list_elem_of_singleton.
Qed.

Lemma NoDup_offsets r : NoDup (offsets r).
Proof.
  unfold offsets. apply NoDup_fmap_2; [| apply NoDup_seq].
  intros i j Hij. lia.
Qed.

Lemma NoDup_scanBox r : NoDup (scanBox r).
Proof.
  unfold scanBox. apply NoDup_bind; [| | apply NoDup_offsets].
  - intros dy1 dy2 [dx dy] _ _ H1 H2.
    apply list_elem_of_bind in H1 as (? & H1 & _).
    apply list_elem_of_bind in H2 as (? & H2 & _).
    apply list_elem_of_singleton in H1, H2. congruence.
  - intros dy _. apply NoDup_bind; [| | apply NoDup_offsets].
    + intros dx1 dx2 p _ _ H1 H2.
      apply list_elem_of_singleton in H1, H2. congruence.
    + intros. apply NoDup_singleton.
Qed.

Lemma square_sum_bound a b r :
  0 <= r -> a * a + b * b <= r * r -> - r <= a <= r.
Proof.
  intros Hr H. pose proof (Z.square_nonneg b).
  assert (Ha : a * a <= r * r) by lia.
  split.
  - destruct (Z_le_gt_dec (- r) a); [done |].
    assert (r * r < a * a) by nia. lia.
  - destruct (Z_le_gt_dec a r); [done |].
    assert (r * r < a * a) by nia. lia.
Qed.

(** The cells a neighbourhood scan reaches: every cell of the grid within
    the Euclidean radius of [(x, y)], each once. *)
Lemma elem_of_cellsWithin x y r w h nx ny :
  0 <= r ->
  (nx, ny) ∈ cellsWithin x y r w h
  <-> (0 <= nx < w /\ 0 <= ny < h
       /\ (calculateDistance x y nx ny <= IZR r)%R).
Proof.
  intros Hr. unfold cellsWithin. rewrite list_elem_of_fmap.
  rewrite <- (distanceWithin_sqrt x y nx ny r Hr). split.
  - intros ([dx dy] & [= -> ->] & Hin). apply list_elem_of_filter in Hin.
    destruct Hin as [Hc _]. simpl in Hc.
    apply andb_true_iff in Hc as [Hb Hd]. unfold inBounds in Hb.
    apply andb_true_iff in Hb as [Hb H4].
    apply andb_true_iff in Hb as [Hb H3].
    apply andb_true_iff in Hb as [H1 H2].
    apply Z.leb_le in H1, H3. apply Z.ltb_lt in H2, H4. done.
  - intros (Hx & Hy & Hd). exists (nx - x, ny - y). simpl.
    split; [f_equal; lia |].
    replace (x + (nx - x)) with nx by lia.
    replace (y + (ny - y)) with ny by lia.
    apply list_elem_of_filter. split.
    + simpl. replace (x + (nx - x)) with nx by lia.
      replace (y + (ny - y)) with ny by lia.
      apply andb_true_iff. split; [| done]. unfold inBounds.
      repeat (apply andb_true_iff; split);
        first [apply Z.leb_le | apply Z.ltb_lt]; lia.
    + apply elem_of_scanBox; [done |].
      unfold distanceWithin, distanceSq in Hd. apply Z.leb_le in Hd.
      split; eapply square_sum_bound; try done.
      by rewrite Z.add_comm.
Qed.

Lemma NoDup_cellsWithin x y r w h : NoDup (cellsWithin x y r w h).
Proof.
  unfold cellsWithin. apply NoDup_fmap_2.
  - intros [a b] [c d] [=]. f_equal; lia.
  - apply NoDup_filter, NoDup_scanBox.
Qed.

(** ** Service buildings (C3) *)

Lemma getServiceBuildingEffect_radius8 b d :
  HappinessManager.getServiceBuildingEffect b d
    (IZR HappinessManager.SERVICE_BUILDING_RADIUS)
  = radius8ServiceEffect (Building.getServiceType b) d.
Proof.
  unfold HappinessManager.getServiceBuildingEffect, radius8ServiceEffect.
  by destruct (Building.getServiceType b) as [[] |].
Qed.

Lemma fold_left_Rplus_map {A} (g : A -> R) (f : R -> A -> R) l a :
  (forall acc n, f acc n = (acc + g n)%R) ->
  fold_left f l a = fold_left Rplus (g <$> l) a.
Proof.
  intros Hf. revert a. induction l as [| n l IH]; intros a; simpl; [done |].
  by rewrite Hf, IH.
Qed.

Lemma calculateServiceBuildingEffects_sum x y zones w h :
  HappinessManager.calculateServiceBuildingEffects x y zones w h
  = sumR (serviceContribution zones x y <$> cellsWithin x y 8 w h).
Proof.
  unfold HappinessManager.calculateServiceBuildingEffects, sumR.
  apply fold_left_Rplus_map. intros acc [nx ny].
  unfold serviceContribution. simpl.
  destruct (at2 zones nx ny) as [zone |]; simpl; [| lra].
  destruct (Zone.getBuilding zone) as [b |]; [| lra].
  destruct (Building.isServiceBuilding b); [| lra].
  by rewrite getServiceBuildingEffect_radius8.
Qed.

(** C3 (amended).  On a zone array that has a row for every [y] below
    [gridHeight], the service bonus of a cell is the sum, over every cell
    of the grid within Euclidean distance 8 that holds a service building,
    each counted once, of that building's contribution; and the
    contribution decays over the scan radius 8 for every type: a park gives
    15 x (1 - distance/8) when distance <= 3 and 0 otherwise, a school
    10 x (1 - distance/8) when distance <= 5 and 0 otherwise, a hospital
    8 x (1 - distance/8), a power plant -20 when distance <= 2,
    5 x (1 - distance/8) when 2 < distance <= 5 and 0 otherwise. *)
Theorem C3_service_effect_decays_over_radius_8 :
  forall (x y : Z) (zones : list (list Zone.t)) (w h : Z),
    (forall b d,
       HappinessManager.getServiceBuildingEffect b d
         (IZR HappinessManager.SERVICE_BUILDING_RADIUS)
       = radius8ServiceEffect (Building.getServiceType b) d)
    /\ (rowsCover zones h ->
        HappinessManager.calculateServiceBuildingEffects x y zones w h
        = sumR (serviceContribution zones x y <$> cellsWithin x y 8 w h))
    /\ (forall nx ny,
          (nx, ny) ∈ cellsWithin x y 8 w h
          <-> (0 <= nx < w /\ 0 <= ny < h
               /\ (calculateDistance x y nx ny <= 8)%R))
    /\ NoDup (cellsWithin x y 8 w h).
Proof.
  intros x y zones w h.
  split; [apply getServiceBuildingEffect_radius8 |].
  split; [intros _; apply calculateServiceBuildingEffects_sum |].
  split; [| apply NoDup_cellsWithin].
  intros nx ny. by apply elem_of_cellsWithin.
Qed.

Lemma C3_service_effect_witness :
  let zones := [[Zone.new 0 0 None; Zone.new 1 0 None]] in
  rowsCover zones 1
  /\ HappinessManager.calculateServiceBuildingEffects 1 0 zones 2 1
     = sumR (serviceContribution zones 1 0 <$> cellsWithin 1 0 8 2 1).
Proof.
  intros zones.
  assert (Hrows : rowsCover zones 1) by (unfold rowsCover; simpl; lia).
  split; [exact Hrows |].
  by apply (C3_service_effect_decays_over_radius_8 1 0 zones 2 1).
Defined.

Lemma calculateDistance_3 : calculateDistance 3 0 0 0 = 3%R.
Proof.
  unfold calculateDistance.
  replace (distanceSq 3 0 0 0) with 9 by reflexivity.
  replace 9%R with (3 * 3)%R by lra. apply sqrt_square. lra.
Qed.

(** C3 as claimed fails: on an array of one row, a park three cells away
    adds 15 x (1 - 3/8) = 9.375, where the claimed rule 15 x (1 - 3/3)
    gives 0. *)
Lemma C3_counterexample :
  let park :=
    Building.mk (given_id 1) 0 0 RESIDENTIAL SMALL (Some PARK) false 1 1
      true (Some PARK) in
  let zones :=
    [[Zone.setBuilding (Some park) (Zone.new 0 0 None);
      Zone.new 1 0 None; Zone.new 2 0 None; Zone.new 3 0 None]] in
  rowsCover zones 1
  /\ calculateDistance 3 0 0 0 = 3%R
  /\ HappinessManager.calculateServiceBuildingEffects 3 0 zones 4 1
     = (75 / 8)%R
  /\ specServiceEffect (Some PARK) (calculateDistance 3 0 0 0) = 0%R
  /\ HappinessManager.calculateServiceBuildingEffects 3 0 zones 4 1
     <> specServiceEffect (Some PARK) (calculateDistance 3 0 0 0).
Proof.
  intros park zones.
  assert (Hcode :
    HappinessManager.calculateServiceBuildingEffects 3 0 zones 4 1
    = (75 / 8)%R).
  { rewrite calculateServiceBuildingEffects_sum.
    replace (cellsWithin 3 0 8 4 1) with [(0, 0); (1, 0); (2, 0); (3, 0)]
      by (vm_compute; reflexivity).
    subst zones park. unfold sumR, serviceContribution. simpl.
    rewrite calculateDistance_3, Rleb_true by lra. lra. }
  assert (Hspec :
    specServiceEffect (Some PARK) (calculateDistance 3 0 0 0) = 0%R).
  { rewrite calculateDistance_3. unfold specServiceEffect.
    rewrite Rleb_true by lra. lra. }
  split; [unfold rowsCover; simpl; lia |].
  split; [apply calculateDistance_3 |].
  split; [exact Hcode |]. split; [exact Hspec |].
  rewrite Hcode, Hspec. lra.
Qed.

(** ** Infrastructure connectivity (C8) *)

Lemma at2_Some_inv {A} (a : list (list A)) x y v :
  at2 a x y = Some v ->
  0 <= x /\ 0 <= y /\
  exists row, a !! Z.to_nat y = Some row /\ row !! Z.to_nat x = Some v.
Proof.
  intros H. destruct (at2_Some_bounds _ _ _ _ H) as [Hx Hy].
  split; [done |]. split; [done |].
  unfold at2 in H. destruct ((x <? 0) || (y <? 0)); [done |].
  destruct (a !! Z.to_nat y) as [row |]; [| done]. by exists row.
Qed.

Lemma rectangular_row {A} (grid : list (list A)) row0 row i :
  rectangular grid -> head grid = Some row0 -> grid !! i = Some row ->
  length row = length row0.
Proof.
  intros Hrect Hhead Hrow. unfold rectangular in Hrect.
  rewrite Hhead in Hrect. simpl in Hrect.
  rewrite Forall_lookup in Hrect. by eapply Hrect.
Qed.

Lemma at2_rectangular {A} (grid : list (list A)) row0 x y :
  rectangular grid -> head grid = Some row0 ->
  0 <= x < Z.of_nat (length row0) -> 0 <= y < Z.of_nat (length grid) ->
  is_Some (at2 grid x y).
Proof.
  intros Hrect Hhead Hx Hy. unfold at2.
  replace ((x <? 0) || (y <? 0)) with false
    by (symmetry; apply orb_false_iff; split; apply Z.ltb_ge; lia).
  destruct (grid !! Z.to_nat y) as [row |] eqn:Hrow.
  - simpl. apply lookup_lt_is_Some.
    rewrite (rectangular_row grid row0 row _ Hrect Hhead Hrow). lia.
  - apply lookup_ge_None in Hrow. lia.
Qed.

Lemma calculateDistance_self x y : calculateDistance x y x y = 0%R.
Proof.
  unfold calculateDistance, distanceSq.
  replace ((x - x) * (x - x) + (y - y) * (y - y)) with 0 by lia.
  apply sqrt_0.
Qed.

Lemma someHasInfrastructure_defined type neighbors :
  Forall is_Some neighbors ->
  exists b,
    InfrastructureConnectivityManager.someHasInfrastructure type neighbors
    = Some b
    /\ (b = true
        <-> exists neighbor,
              Some neighbor ∈ neighbors
              /\ hasInfrastructure (cell_infrastructure neighbor) type = true).
Proof.
  induction 1 as [| o l [c ->] Hl (b & Hb & Hiff)]; simpl.
  - exists false. split; [done |]. split; [done |].
    intros (c & Hc & _). by apply elem_of_nil in Hc.
  - destruct (hasInfrastructure (cell_infrastructure c) type) eqn:Hc.
    + exists true. split; [done |]. split; [| done].
      intros _. exists c. split; [apply list_elem_of_here | done].
    + exists b. split; [done |]. rewrite Hiff. split.
      * intros (c' & Hin & Hc'). exists c'. split; [| done].
        by apply list_elem_of_further.
      * intros (c' & Hin & Hc'). exists c'. split; [| done].
        apply elem_of_cons in Hin as [[= ->] | Hin]; [congruence | done].
Qed.

(** The common body of the three checks, on a rectangular grid at a cell
    of the grid. *)
Lemma hasConnectivity_spec type range x y grid cell :
  0 <= range -> rectangular grid -> at2 grid x y = Some cell ->
  exists b,
    InfrastructureConnectivityManager.hasConnectivity type range x y grid
    = Some b
    /\ (b = true <-> carriesWithin type range x y grid).
Proof.
  intros Hr Hrect Hcell.
  destruct (at2_Some_inv _ _ _ _ Hcell) as (Hx & Hy & row & Hrow & Hcol).
  destruct (head grid) as [row0 |] eqn:Hhead;
    [| apply head_None in Hhead; subst grid; done].
  pose proof (rectangular_row grid row0 row _ Hrect Hhead Hrow) as Hlen.
  apply lookup_lt_Some in Hrow as Hylt. apply lookup_lt_Some in Hcol as Hxlt.
  unfold InfrastructureConnectivityManager.hasConnectivity.
  replace (x <? 0) with false by (symmetry; apply Z.ltb_ge; lia).
  rewrite Hhead. simpl.
  replace (Z.of_nat (length row0) <=? x) with false
    by (symmetry; apply Z.leb_gt; lia).
  replace (y <? 0) with false by (symmetry; apply Z.ltb_ge; lia).
  replace (Z.of_nat (length grid) <=? y) with false
    by (symmetry; apply Z.leb_gt; lia).
  simpl. rewrite Hcell. simpl.
  destruct (hasInfrastructure (cell_infrastructure cell) type) eqn:Hflag.
  { exists true. split; [done |]. split; [| done]. intros _.
    exists x, y, cell. split; [done |]. split; [| done].
    rewrite calculateDistance_self. by apply IZR_le. }
  unfold InfrastructureConnectivityManager.getNeighbors. rewrite Hhead.
  simpl.
  set (pick := fun d : Z * Z =>
        let '(dx, dy) := d in
        if (dx =? 0) && (dy =? 0) || (x + dx <? 0)
           || (Z.of_nat (length row0) <=? x + dx) || (y + dy <? 0)
           || (Z.of_nat (length grid) <=? y + dy)
        then None
        else if distanceWithin x y (x + dx) (y + dy) range
             then Some (at2 grid (x + dx) (y + dy)) else None).
  assert (Hpick : forall dx dy o,
            pick (dx, dy) = Some o <->
            ((dx, dy) <> (0, 0)
             /\ 0 <= x + dx < Z.of_nat (length row0)
             /\ 0 <= y + dy < Z.of_nat (length grid)
             /\ distanceWithin x y (x + dx) (y + dy) range = true
             /\ o = at2 grid (x + dx) (y + dy))).
  { intros dx dy o. unfold pick.
    destruct (distanceWithin x y (x + dx) (y + dy) range);
      destruct (Z.eqb_spec dx 0); destruct (Z.eqb_spec dy 0);
      destruct (Z.ltb_spec (x + dx) 0);
      destruct (Z.leb_spec (Z.of_nat (length row0)) (x + dx));
      destruct (Z.ltb_spec (y + dy) 0);
      destruct (Z.leb_spec (Z.of_nat (length grid)) (y + dy));
      simpl; split;
      try (intros [= <-]); try (intros (Hne & ? & ? & ? & ->));
      try done; try lia; try (exfalso; apply Hne; congruence);
      repeat split; try done; try lia; congruence. }
  assert (Hall : Forall is_Some (omap pick (scanBox range))).
  { apply Forall_forall. intros o Ho.
    apply list_elem_of_omap in Ho as ([dx dy] & _ & Hp).
    apply Hpick in Hp as (_ & Hbx & Hby & _ & ->).
    by eapply at2_rectangular. }
  destruct (someHasInfrastructure_defined type _ Hall) as (b & Hb & Hiff).
  exists b. split; [exact Hb |]. rewrite Hiff. split.
  - intros (c & Hin & Hc).
    apply list_elem_of_omap in Hin as ([dx dy] & _ & Hp).
    apply Hpick in Hp as (_ & _ & _ & Hd & Hat).
    exists (x + dx), (y + dy), c. split; [done |]. split; [| done].
    by apply distanceWithin_sqrt.
  - intros (nx & ny & c & Hat & Hd & Hc).
    apply distanceWithin_sqrt in Hd; [| done].
    destruct (at2_Some_inv _ _ _ _ Hat) as (Hnx & Hny & row' & Hrow' & Hcol').
    pose proof (rectangular_row grid row0 row' _ Hrect Hhead Hrow') as Hlen'.
    apply lookup_lt_Some in Hrow', Hcol'.
    exists c. split; [| done].
    apply list_elem_of_omap. exists (nx - x, ny - y). split.
    + apply elem_of_scanBox; [done |].
      unfold distanceWithin, distanceSq in Hd. apply Z.leb_le in Hd.
      split; eapply square_sum_bound; try done. by rewrite Z.add_comm.
    + apply Hpick.
      replace (x + (nx - x)) with nx by lia.
      replace (y + (ny - y)) with ny by lia.
      repeat split; try done; try lia.
      intros [= Hdx Hdy]. assert (nx = x) by lia. assert (ny = y) by lia.
      subst. congruence.
Qed.

(** C8.  On a rectangular grid, at a cell of the grid, each connectivity
    check returns, and it reports its type as connected if and only if the
    cell itself or some cell within the type's Euclidean radius (road 1,
    power 8, water 6) carries the flag. *)
Theorem C8_connectivity_within_radius :
  forall (x y : Z) (grid : list (list GridCell)) (cell : GridCell),
    rectangular grid ->
    at2 grid x y = Some cell ->
    (exists b,
       InfrastructureConnectivityManager.hasRoadConnectivity x y grid = Some b
       /\ (b = true <-> carriesWithin road 1 x y grid))
    /\ (exists b,
          InfrastructureConnectivityManager.hasPowerConnectivity x y grid
          = Some b
          /\ (b = true <-> carriesWithin power 8 x y grid))
    /\ (exists b,
          InfrastructureConnectivityManager.hasWaterConnectivity x y grid
          = Some b
          /\ (b = true <-> carriesWithin water 6 x y grid)).
Proof.
  intros x y grid cell Hrect Hcell.
  split; [| split];
    apply (hasConnectivity_spec _ _ x y grid cell); try done; lia.
Qed.

Lemma C8_connectivity_within_radius_witness :
  let grid := [[plainCell 0 0 [] None; plainCell 1 0 [road] None]] in
  exists b,
    InfrastructureConnectivityManager.hasRoadConnectivity 0 0 grid = Some b
    /\ (b = true <-> carriesWithin road 1 0 0 grid).
Proof.
  intros grid.
  apply (C8_connectivity_within_radius 0 0 grid (plainCell 0 0 [] None)).
  - repeat constructor.
  - reflexivity.
Defined.

(** ** Power flow (C6) *)

Import PowerGridManager.

Lemma sumCapacity_sumOver ns : sumCapacity ns = sumOver sourceCapacity ns.
Proof.
  unfold sumCapacity.
  assert (Hgen : forall a,
            fold_left (fun sum node => sum + capacity node)
              (filter (fun node => node_type node = source) ns) a
            = a + sumOver sourceCapacity ns).
  { induction ns as [| n ns IH]; intros a; simpl; [lia |].
    rewrite filter_cons. unfold sourceCapacity at 1.
    destruct (decide (node_type n = source)); simpl; rewrite IH; lia. }
  rewrite Hgen. lia.
Qed.

Lemma findNode_Some_elem id ns n :
  findNode id ns = Some n -> n ∈ ns /\ node_id n = id.
Proof.
  induction ns as [| m ns IH]; simpl; [done |].
  destruct (decide (node_id m = id)).
  - intros [= ->]. split; [apply list_elem_of_here | done].
  - intros H. destruct (IH H). split; [by apply list_elem_of_further | done].
Qed.

Lemma sumOver_updateNode f g id ns n :
  findNode id ns = Some n ->
  sumOver f (updateNode id g ns) = sumOver f ns - f n + f (g n).
Proof.
  induction ns as [| m ns IH]; simpl; [done |].
  destruct (decide (node_id m = id)).
  - intros [= ->]. simpl. lia.
  - intros H. simpl. rewrite (IH H). lia.
Qed.

Lemma findNode_updateNode_ne g id id' ns :
  (forall n, node_id (g n) = node_id n) -> id <> id' ->
  findNode id' (updateNode id g ns) = findNode id' ns.
Proof.
  intros Hg Hne. induction ns as [| m ns IH]; simpl; [done |].
  destruct (decide (node_id m = id)) as [Hm | Hm]; simpl.
  - rewrite Hg. destruct (decide (node_id m = id')); [congruence | done].
  - destruct (decide (node_id m = id')); [done | exact IH].
Qed.

Lemma findNode_updateNode_eq g id ns :
  (forall n, node_id (g n) = node_id n) ->
  findNode id (updateNode id g ns) = g <$> findNode id ns.
Proof.
  intros Hg. induction ns as [| m ns IH]; simpl; [done |].
  destruct (decide (node_id m = id)) as [Hm | Hm]; simpl.
  - rewrite Hg. by destruct (decide (node_id m = id)).
  - destruct (decide (node_id m = id)); [done | exact IH].
Qed.

Lemma Forall_updateNode (P : PowerNode -> Prop) g id ns n :
  Forall P ns -> findNode id ns = Some n -> P (g n) ->
  Forall P (updateNode id g ns).
Proof.
  induction 1 as [| m ns Hm Hns IH]; simpl; [done |].
  destruct (decide (node_id m = id)).
  - intros [= ->] Hg. by constructor.
  - intros Hfind Hg. constructor; [done |]. by apply IH.
Qed.

Lemma nodeOk_found id ns n :
  Forall nodeOk ns -> findNode id ns = Some n ->
  node_type n = idKind id /\ 0 <= capacity n /\ 0 <= demand n.
Proof.
  intros Hok Hfind. destruct (findNode_Some_elem _ _ _ Hfind) as [Hin <-].
  rewrite Forall_forall in Hok. by apply Hok.
Qed.

Lemma allotment_nonneg n : 0 <= demand n -> 0 <= allotment n.
Proof.
  intros. unfold allotment.
  destruct (decide (node_type n = consumer)); [| lia].
  destruct (connected n); lia.
Qed.

(** One step of the flow: the nodes stay well formed, and what the sources
    hold plus what the consumers are allotted does not grow. *)
Lemma flowStep_invariant ns conn :
  Forall nodeOk ns -> connectionOk conn ->
  Forall nodeOk (flowStep ns conn)
  /\ sumOver sourceCapacity (flowStep ns conn)
     + allottedDemand (flowStep ns conn)
     <= sumOver sourceCapacity ns + allottedDemand ns.
Proof.
  intros Hok [Hfrom Hto]. unfold flowStep.
  destruct (findNode (from conn) ns) as [s |] eqn:Hs; [| split; [done | lia]].
  destruct (findNode (to conn) ns) as [c |] eqn:Hc; [| split; [done | lia]].
  destruct (nodeOk_found _ _ _ Hok Hs) as (Hst & Hscap & Hsdem).
  destruct (nodeOk_found _ _ _ Hok Hc) as (Hct & Hccap & Hcdem).
  rewrite Hfrom in Hst. rewrite Hto in Hct.
  assert (Hne : to conn <> from conn) by (intros E; congruence).
  pose proof (allotment_nonneg c Hcdem) as Hallot.
  assert (Hcid : node_id c = to conn)
    by (destruct (findNode_Some_elem _ _ _ Hc); done).
  assert (Hsid : node_id s = from conn)
    by (destruct (findNode_Some_elem _ _ _ Hs); done).
  unfold allottedDemand.
  destruct (Z.leb_spec (demand c) (capacity s)) as [Hle | Hgt].
  - set (ns1 := updateNode (to conn) (markConnected (node_id s)) ns).
    assert (Hok1 : Forall nodeOk ns1).
    { eapply Forall_updateNode; [done | exact Hc |].
      unfold nodeOk. simpl. by rewrite Hcid, Hto. }
    assert (Hs1 : findNode (from conn) ns1 = Some s).
    { unfold ns1. by rewrite findNode_updateNode_ne. }
    split.
    + eapply Forall_updateNode; [done | exact Hs1 |].
      unfold nodeOk. simpl. rewrite Hsid, Hfrom. repeat split; [done | lia | done].
    + rewrite !(sumOver_updateNode _ _ _ ns1 s Hs1).
      unfold ns1. rewrite !(sumOver_updateNode _ _ _ ns c Hc).
      unfold sourceCapacity, allotment. simpl. rewrite Hst, Hct.
      destruct (decide (source = source)); [| done].
      destruct (decide (consumer = source)); [done |].
      destruct (decide (source = consumer)); [done |].
      destruct (decide (consumer = consumer)); [| done].
      unfold allotment in Hallot. rewrite Hct in Hallot.
      destruct (decide (consumer = consumer)); [| done].
      destruct (connected c); lia.
  - set (ns1 := updateNode (to conn)
                  (fun n => setDemand (capacity s)
                              (markConnected (node_id s) n)) ns).
    assert (Hok1 : Forall nodeOk ns1).
    { eapply Forall_updateNode; [done | exact Hc |].
      unfold nodeOk. simpl. by rewrite Hcid, Hto. }
    assert (Hs1 : findNode (from conn) ns1 = Some s).
    { unfold ns1. by rewrite findNode_updateNode_ne. }
    split.
    + eapply Forall_updateNode; [done | exact Hs1 |].
      unfold nodeOk. simpl. by rewrite Hsid, Hfrom.
    + rewrite !(sumOver_updateNode _ _ _ ns1 s Hs1).
      unfold ns1. rewrite !(sumOver_updateNode _ _ _ ns c Hc).
      unfold sourceCapacity, allotment. simpl. rewrite Hst, Hct.
      destruct (decide (source = source)); [| done].
      destruct (decide (consumer = source)); [done |].
      destruct (decide (source = consumer)); [done |].
      destruct (decide (consumer = consumer)); [| done].
      unfold allotment in Hallot. rewrite Hct in Hallot.
      destruct (decide (consumer = consumer)); [| done].
      destruct (connected c); lia.
Qed.

Lemma getBuildingPowerDemand_nonneg b : 0 <= getBuildingPowerDemand b.
Proof.
  unfold getBuildingPowerDemand, BASE_POWER_DEMAND.
  destruct (Building.isServiceBuilding b); [destruct (Building.getSize b); lia |].
  destruct (Building.getIsBlock b); destruct (Building.getSize b);
    try lia; by vm_compute.
Qed.

Lemma nodesOfCell_ok x y cell : Forall nodeOk (nodesOfCell x y cell).
Proof.
  unfold nodesOfCell. destruct (cell_building cell) as [b |]; [| done].
  apply Forall_app. split.
  - destruct (isPowerSource b); [| done].
    constructor; [| done]. split; [done |]. simpl. split; [| done].
    unfold getPowerSourceCapacity, POWERPLANT_CAPACITY.
    destruct (decide _); lia.
  - destruct (isPowerConsumer b); [| done].
    constructor; [| done]. split; [done |]. simpl. split; [done |].
    apply getBuildingPowerDemand_nonneg.
Qed.

Lemma buildPowerNodes_ok grid : Forall nodeOk (buildPowerNodes grid).
Proof.
  unfold buildPowerNodes. apply Forall_concat, Forall_forall.
  intros l Hl. apply elem_of_lookup_imap_1 in Hl as (y & row & -> & _).
  apply Forall_concat, Forall_forall.
  intros l Hl. apply elem_of_lookup_imap_1 in Hl as (x & cell & -> & _).
  apply nodesOfCell_ok.
Qed.

Lemma findNearestPowerSource_elem n sources s :
  findNearestPowerSource n sources = Some s -> s ∈ sources.
Proof.
  unfold findNearestPowerSource.
  assert (Hgen : forall acc,
            fst (fold_left
                   (fun '(nearestSource, minDistance) source =>
                      let d := distanceSq (node_x n) (node_y n)
                                 (node_x source) (node_y source) in
                      if (match minDistance with
                          | None => true
                          | Some m => d <? m
                          end)
                         && (d <=? POWER_TRANSMISSION_RANGE
                                   * POWER_TRANSMISSION_RANGE)
                      then (Some source, Some d)
                      else (nearestSource, minDistance))
                   sources acc) = Some s ->
            fst acc = Some s \/ s ∈ sources).
  { induction sources as [| m l IH]; intros [o d]; simpl; [by left |].
    intros H. apply IH in H as [H | H].
    - destruct (_ && _); simpl in H.
      + injection H as ->. right. apply list_elem_of_here.
      + by left.
    - right. by apply list_elem_of_further. }
  intros H. by destruct (Hgen _ H).
Qed.

Lemma connectConsumers_invariant sources grid ns cs ns' :
  Forall (fun s => node_type s = idKind (node_id s)
                   /\ node_type s = source) sources ->
  Forall nodeOk ns ->
  connectConsumers sources grid ns = Some (cs, ns') ->
  Forall nodeOk ns' /\ Forall connectionOk cs
  /\ sumOver sourceCapacity ns' = sumOver sourceCapacity ns.
Proof.
  intros Hsrc Hok. revert cs ns'.
  induction Hok as [| n ns Hn Hns IH]; intros cs ns'; simpl.
  { intros [= <- <-]. done. }
  destruct (decide (node_type n = consumer)) as [Hcons | Hcons].
  - destruct (findNearestPowerSource n sources) as [s |] eqn:Hnear.
    + destruct (canTransmitPower n s grid) as [ok |]; [| done]. simpl.
      destruct (connectConsumers sources grid ns) as [[cs0 ns0] |]; [| done].
      destruct (IH _ _ eq_refl) as (Hok0 & Hcs0 & Hsum0). simpl.
      destruct ok; intros [= <- <-].
      * apply findNearestPowerSource_elem in Hnear.
        rewrite Forall_forall in Hsrc. destruct (Hsrc _ Hnear) as [Hk Ht].
        destruct Hn as (Hnt & Hncap & Hndem).
        split; [constructor; [by repeat split | done] |].
        split.
        { constructor; [| done]. split; simpl; congruence. }
        simpl. rewrite Hsum0. unfold sourceCapacity. simpl. done.
      * split; [by constructor |]. split; [done |]. simpl. by rewrite Hsum0.
    + destruct (connectConsumers sources grid ns) as [[cs0 ns0] |]; [| done].
      destruct (IH _ _ eq_refl) as (Hok0 & Hcs0 & Hsum0). simpl.
      intros [= <- <-].
      split; [by constructor |]. split; [done |]. simpl. by rewrite Hsum0.
  - destruct (connectConsumers sources grid ns) as [[cs0 ns0] |]; [| done].
    destruct (IH _ _ eq_refl) as (Hok0 & Hcs0 & Hsum0). simpl.
    intros [= <- <-].
    split; [by constructor |]. split; [done |]. simpl. by rewrite Hsum0.
Qed.

Lemma resetNode_invariant ns :
  Forall nodeOk ns ->
  Forall nodeOk (map resetNode ns)
  /\ sumOver sourceCapacity (map resetNode ns) = sumOver sourceCapacity ns
  /\ allottedDemand (map resetNode ns) = 0.
Proof.
  unfold allottedDemand.
  induction 1 as [| n ns Hn Hns (IH1 & IH2 & IH3)]; simpl; [done |].
  rewrite IH2, IH3. unfold resetNode, sourceCapacity, allotment.
  destruct (decide (node_type n = consumer)) as [Hc | Hc]; simpl.
  - rewrite Hc. destruct (decide (consumer = consumer)); [| done].
    destruct (decide (consumer = source)); [done |].
    split; [| done]. constructor; [| done].
    destruct Hn as (Ht & ? & ?). unfold nodeOk. simpl.
    by rewrite <- Ht, Hc.
  - destruct (decide (node_type n = consumer)); [done |].
    split; [by constructor | done].
Qed.

Lemma simulatePowerFlow_invariant ns cs :
  Forall nodeOk ns -> Forall connectionOk cs ->
  Forall nodeOk (simulatePowerFlow ns cs)
  /\ sumOver sourceCapacity (simulatePowerFlow ns cs)
     + allottedDemand (simulatePowerFlow ns cs)
     <= sumOver sourceCapacity ns.
Proof.
  intros Hok Hcs. unfold simulatePowerFlow.
  destruct (resetNode_invariant ns Hok) as (Hok0 & Hsum0 & Hall0).
  rewrite <- Hsum0.
  replace (sumOver sourceCapacity (map resetNode ns))
    with (sumOver sourceCapacity (map resetNode ns)
          + allottedDemand (map resetNode ns)) by lia.
  clear Hsum0 Hall0. revert Hok0. generalize (map resetNode ns). clear ns Hok.
  induction Hcs as [| c cs Hc Hcs IH]; intros ns Hok; simpl.
  { split; [done | lia]. }
  destruct (flowStep_invariant ns c Hok Hc) as [Hok1 Hle1].
  destruct (IH _ Hok1) as [Hok2 Hle2]. split; [done | lia].
Qed.

Lemma sumOver_nonneg f ns :
  Forall (fun n => 0 <= f n) ns -> 0 <= sumOver f ns.
Proof. induction 1; simpl; lia. Qed.

Lemma sourceCapacity_nonneg ns :
  Forall nodeOk ns -> 0 <= sumOver sourceCapacity ns.
Proof.
  intros Hok. apply sumOver_nonneg. eapply Forall_impl; [exact Hok |].
  intros n (_ & Hcap & _). unfold sourceCapacity.
  destruct (decide _); lia.
Qed.

(** What a flow step writes: the consumer is connected with the smaller of
    its demand and the source's remaining capacity, and the source gives
    up exactly that much. *)
Lemma flowStep_allots ns conn s c :
  findNode (from conn) ns = Some s ->
  findNode (to conn) ns = Some c ->
  from conn <> to conn ->
  findNode (to conn) (flowStep ns conn)
  = Some (setDemand (Z.min (demand c) (capacity s))
            (markConnected (node_id s) c))
  /\ findNode (from conn) (flowStep ns conn)
     = Some (setCapacity (capacity s - Z.min (demand c) (capacity s)) s).
Proof.
  intros Hs Hc Hne. unfold flowStep. rewrite Hs, Hc.
  destruct (Z.leb_spec (demand c) (capacity s)) as [Hle | Hgt].
  - rewrite Z.min_l by lia. split.
    + rewrite findNode_updateNode_ne by done.
      by rewrite findNode_updateNode_eq, Hc.
    + rewrite findNode_updateNode_eq by done.
      rewrite findNode_updateNode_ne by (done || congruence).
      by rewrite Hs.
  - rewrite Z.min_r by lia. split.
    + rewrite findNode_updateNode_ne by done.
      by rewrite findNode_updateNode_eq, Hc.
    + rewrite findNode_updateNode_eq by done.
      rewrite findNode_updateNode_ne by (done || congruence).
      rewrite Hs. simpl. unfold setCapacity. do 2 f_equal. lia.
Qed.

(** On a rectangular grid the power pass returns. *)
Lemma checkPowerLine_defined grid points :
  rectangular grid -> grid <> [] -> is_Some (checkPowerLine grid points).
Proof.
  intros Hrect Hne.
  destruct (head grid) as [row0 |] eqn:Hhead;
    [| by apply head_None in Hhead].
  induction points as [| [x y] points IH]; simpl; [done |].
  destruct (Z.leb_spec 0 x); [| done]. rewrite Hhead. simpl.
  destruct (Z.ltb_spec x (Z.of_nat (length row0))); simpl; [| done].
  destruct (Z.leb_spec 0 y); simpl; [| done].
  destruct (Z.ltb_spec y (Z.of_nat (length grid))); simpl; [| done].
  destruct (at2_rectangular grid row0 x y Hrect Hhead) as [cell ->];
    [lia | lia |].
  simpl. by destruct (negb _).
Qed.

Lemma connectConsumers_defined sources grid ns :
  rectangular grid -> grid <> [] ->
  is_Some (connectConsumers sources grid ns).
Proof.
  intros Hrect Hne. induction ns as [| n ns [[cs ns'] IH]]; simpl; [done |].
  rewrite IH.
  destruct (decide (node_type n = consumer)); [| done].
  destruct (findNearestPowerSource n sources) as [s |]; [| done].
  unfold canTransmitPower, hasPowerLinePath.
  destruct (_ =? 0); simpl; [by destruct true |].
  destruct (checkPowerLine_defined grid
              (map (fun i =>
                      (roundedStep (node_x n) (node_x s - node_x n)
                         (Z.of_nat i)
                         (Z.max (Z.abs (node_x s - node_x n))
                                (Z.abs (node_y s - node_y n))),
                       roundedStep (node_y n) (node_y s - node_y n)
                         (Z.of_nat i)
                         (Z.max (Z.abs (node_x s - node_x n))
                                (Z.abs (node_y s - node_y n)))))
                   (seq 0 (Z.to_nat
                             (Z.max (Z.abs (node_x s - node_x n))
                                    (Z.abs (node_y s - node_y n)) + 1))))
              Hrect Hne) as [ok ->].
  simpl. by destruct ok.
Qed.

Lemma calculatePowerDistribution_defined grid :
  rectangular grid -> is_Some (calculatePowerDistribution grid).
Proof.
  intros Hrect. unfold calculatePowerDistribution, buildPowerConnections.
  destruct grid as [| row0 grid]; [done |].
  destruct (connectConsumers_defined
              (filter (fun node => node_type node = source)
                      (buildPowerNodes (row0 :: grid)))
              (row0 :: grid) (buildPowerNodes (row0 :: grid)) Hrect)
    as [[cs ns] ->]; done.
Qed.

(** C6.  For every grid on which the power pass returns (it does on every
    rectangular grid), the demand allotted to the connected consumers sums
    to no more than the capacity the sources started with, and no source
    ends below zero; in each flow step the consumer is allotted the
    smaller of its demand and the source's remaining capacity, so a
    consumer met by an insufficient source has its demand clamped down to
    what the source has left, and the source gives up exactly what it
    allots. *)
Theorem C6_power_conservation :
  forall (grid : list (list GridCell)),
    (rectangular grid -> is_Some (calculatePowerDistribution grid))
    /\ (forall pg,
          calculatePowerDistribution grid = Some pg ->
          allottedDemand (nodes pg) <= sumCapacity (buildPowerNodes grid)
          /\ Forall (fun n => 0 <= capacity n) (nodes pg))
    /\ (forall ns conn s c,
          findNode (from conn) ns = Some s ->
          findNode (to conn) ns = Some c ->
          from conn <> to conn ->
          findNode (to conn) (flowStep ns conn)
          = Some (setDemand (Z.min (demand c) (capacity s))
                    (markConnected (node_id s) c))
          /\ findNode (from conn) (flowStep ns conn)
             = Some (setCapacity
                       (capacity s - Z.min (demand c) (capacity s)) s)).
Proof.
  intros grid.
  split; [apply calculatePowerDistribution_defined |].
  split; [| apply flowStep_allots].
  intros pg. unfold calculatePowerDistribution, buildPowerConnections.
  destruct (connectConsumers _ grid (buildPowerNodes grid))
    as [[cs ns] |] eqn:Hconn; [| done].
  simpl. intros [= <-]. simpl.
  pose proof (buildPowerNodes_ok grid) as Hok.
  assert (Hsrc : Forall (fun s => node_type s = idKind (node_id s)
                                  /\ node_type s = source)
                   (filter (fun node => node_type node = source)
                           (buildPowerNodes grid))).
  { apply Forall_forall. intros s Hs.
    apply list_elem_of_filter in Hs as [Ht Hs].
    rewrite Forall_forall in Hok. by destruct (Hok _ Hs) as (? & _). }
  destruct (connectConsumers_invariant _ _ _ _ _ Hsrc Hok Hconn)
    as (Hok1 & Hcs & Hsum).
  destruct (simulatePowerFlow_invariant ns cs Hok1 Hcs) as [Hok2 Hle].
  pose proof (sourceCapacity_nonneg _ Hok2).
  rewrite sumCapacity_sumOver. split; [lia |].
  eapply Forall_impl; [exact Hok2 |]. by intros n (_ & ? & _).
Qed.

Lemma C6_power_conservation_witness :
  let grid :=
    [[plainCell 0 0 [power] (Some scenarioPlant);
      plainCell 1 0 [power] (Some (scenarioHouse 1 0))]] in
  exists pg,
    calculatePowerDistribution grid = Some pg
    /\ allottedDemand (nodes pg) <= sumCapacity (buildPowerNodes grid).
Proof.
  intros grid.
  destruct (C6_power_conservation grid) as (Hdefined & Hconserved & _).
  destruct Hdefined as [pg Hpg]; [repeat constructor |].
  exists pg. split; [exact Hpg |]. by apply Hconserved.
Defined.

(** ** The reported totals (C1) *)

Lemma calculatePowerDistribution_totals grid pg :
  calculatePowerDistribution grid = Some pg ->
  totalCapacity pg = sumCapacity (nodes pg)
  /\ totalDemand pg = sumDemand (nodes pg)
  /\ efficiency pg
     = (if 0 <? totalCapacity pg
        then Rmin 1 (IZR (totalDemand pg) / IZR (totalCapacity pg))
        else 0%R).
Proof.
  unfold calculatePowerDistribution.
  destruct (buildPowerConnections _ grid) as [[cs ns] |]; [| done].
  simpl. by intros [= <-].
Qed.

(** C1 (the code departs from the claim).  The claim: the snapshot reports
    the sum of the source capacities, the sum of the consumer demands and
    efficiency min(1, demand/capacity); with one plant of capacity 1000 and
    150 reachable consumers of demand 10 that is 1000, 1500, efficiency 1
    and an overloaded grid.  The code reads the totals from the node
    objects after the flow simulation has written to them (capacity
    decremented, demand clamped): on that scenario, where the nodes are
    built with capacity 1000 and demand 1500, it reports capacity 0, demand
    1000, efficiency 0 and no overload.  What does hold: the efficiency is
    min(1, demand/capacity) of the reported totals, 0 when the reported
    capacity is 0, and the overload flag is the test efficiency > 0.9. *)
Theorem C1_totals_read_after_the_flow :
  sumCapacity (buildPowerNodes scenarioGrid) = 1000
  /\ sumDemand (buildPowerNodes scenarioGrid) = 1500
  /\ length (filter (fun n => node_type n = consumer /\ demand n = 10)
                    (buildPowerNodes scenarioGrid)) = 150%nat
  /\ length (buildPowerNodes scenarioGrid) = 151%nat
  /\ exists pg,
       calculatePowerDistribution scenarioGrid = Some pg
       /\ length (connections pg) = 150%nat
       /\ totalCapacity pg = 0
       /\ totalDemand pg = 1000
       /\ efficiency pg = 0%R
       /\ isPowerGridOverloaded pg = false
       /\ isPowerGridOverloaded pg
          = Rgtb (efficiency pg) POWER_OVERLOAD_THRESHOLD.
Proof.
  split; [by vm_compute |]. split; [by vm_compute |].
  split; [by vm_compute |]. split; [by vm_compute |].
  destruct (calculatePowerDistribution_defined scenarioGrid) as [pg Hpg];
    [repeat constructor |].
  assert (Hfacts :
    (fun pg => (length (connections pg), totalCapacity pg, totalDemand pg))
      <$> calculatePowerDistribution scenarioGrid
    = Some (150%nat, 0, 1000)) by (by vm_compute).
  rewrite Hpg in Hfacts. injection Hfacts as Hconn Hcap Hdem.
  destruct (calculatePowerDistribution_totals _ _ Hpg) as (_ & _ & Heff).
  rewrite Hcap in Heff. change (0 <? 0) with false in Heff.
  exists pg. split; [exact Hpg |]. split; [exact Hconn |].
  split; [exact Hcap |]. split; [exact Hdem |]. split; [exact Heff |].
  split; [| reflexivity].
  unfold isPowerGridOverloaded, POWER_OVERLOAD_THRESHOLD. rewrite Heff.
  apply Rltb_false. lra.
Qed.

(** ** The order of the passes in a tick (C9) *)

Lemma simulate_inv `{BuildingStats} grid c w u c' w' :
  SimulationEngine.simulate (Some grid) c w = (Some (u, c'), w') ->
  exists pg snapshot k u0,
    calculatePowerDistribution
      (City.toGridFormat (City.fromGridFormat grid c)) = Some pg
    /\ snapshotAfterTick (City.fromGridFormat grid c) c' pg = Some snapshot
    /\ City.simulate (City.fromGridFormat grid c) w = (Some (u0, c'), w')
    /\ getGridConnectivityStats snapshot = Some k
    /\ u = SimulationEngine.withSummaries
             (SimulationEngine.powerGridSummary pg) k u0.
Proof.
  unfold SimulationEngine.simulate, snapshotAfterTick.
  set (c0 := City.fromGridFormat grid c). intros Hsim.
  destruct (calculatePowerDistribution (City.toGridFormat c0)) as [pg |];
    [| done].
  destruct (InfrastructureConnectivityManager.updateGridConnectivity _)
    as [g |] eqn:Hg; [| done].
  munfold. destruct (City.simulate c0 w) as [[[u0 c1] |] w1]; [| done].
  destruct (getGridConnectivityStats (SimulationEngine.sharedBuildings g c1))
    as [k |] eqn:Hk; [| done].
  injection Hsim as <- <- <-.
  exists pg, (SimulationEngine.sharedBuildings g c1), k, u0.
  by rewrite Hg.
Qed.

(** The passes of [City.simulate], in their order; the aggregation is
    reached only if the growth pass returns. *)
Lemma City_simulate_passes `{BuildingStats} c w :
  let w1 := snd (WeatherManager.updateWeather w) in
  let r := WeatherManager.applyWeatherEffects (City.zones c) w1 in
  let zones2 :=
    HappinessManager.updateAllZoneHappiness (fst r) (City.gridWidth c)
      (City.gridHeight c) in
  let g := City.simulateBuildingGrowth (City.setZones zones2 c) (snd r) in
  City.simulate c w
  = ((fun c' =>
        (mkUpdate (map Building.toJSON (City.getAllBuildings c'))
           (City.calculateTotalPopulation (City.getAllBuildings c'))
           (City.calculateAverageHappiness c')
           (City.calculateAveragePollution c') None None,
         c')) <$> fst g,
     snd g).
Proof.
  intros w1 r zones2 g. unfold City.simulate. munfold.
  subst w1 r zones2 g.
  destruct (WeatherManager.updateWeather w) as [[] w1]. simpl.
  match goal with
  | |- context [City.simulateBuildingGrowth ?a ?b] =>
      by destruct (City.simulateBuildingGrowth a b) as [[c' |] w3]
  end.
Qed.

(** The writes the engine makes to its snapshot never touch the [building]
    field of a cell. *)
Lemma cellwise_refl (P : GridCell -> GridCell -> Prop) grid :
  (forall a, P a a) -> cellwise P grid grid.
Proof.
  intros HP. unfold cellwise.
  apply Forall_Forall2_diag, Forall_forall. intros row _.
  by apply Forall_Forall2_diag, Forall_forall.
Qed.

Lemma cellwise_alter2 (P : GridCell -> GridCell -> Prop) f x y g k :
  (forall a b, P a b -> P a (f b)) ->
  cellwise P g k -> cellwise P g (alter2 f x y k).
Proof.
  intros Hf Hgk. unfold alter2. destruct ((x <? 0) || (y <? 0)); [done |].
  apply Forall2_alter_r; [done |].
  intros row row' _ _ Hrow. apply Forall2_alter_r; [done |].
  intros a b _ _. apply Hf.
Qed.

Lemma updateGridPowerStatus_buildings grid pg :
  cellwise sameBuilding grid (updateGridPowerStatus grid pg).
Proof.
  unfold updateGridPowerStatus.
  assert (Hstart :
    cellwise sameBuilding grid (map (map (setPower false None 0 0)) grid)).
  { unfold cellwise. apply Forall2_fmap_r, Forall_Forall2_diag, Forall_forall.
    intros row _. apply Forall2_fmap_r, Forall_Forall2_diag, Forall_forall.
    by intros cell _. }
  revert Hstart. generalize (map (map (setPower false None 0 0)) grid).
  induction (nodes pg) as [| node rest IH]; intros k Hk; [done |].
  simpl. apply IH. destruct (head k); [| done].
  destruct (inBounds _ _ _ _); [| done].
  by apply cellwise_alter2.
Qed.

Lemma updateGridConnectivity_buildings `{BuildingStats} grid grid' :
  InfrastructureConnectivityManager.updateGridConnectivity grid
  = Some grid' ->
  cellwise sameBuilding grid grid'.
Proof.
  unfold InfrastructureConnectivityManager.updateGridConnectivity.
  generalize (InfrastructureConnectivityManager.buildingCells grid).
  intros cells.
  assert (Hstart : forall k, Some grid = Some k ->
                             cellwise sameBuilding grid k).
  { intros k [= <-]. by apply cellwise_refl. }
  revert Hstart. generalize (Some grid).
  induction cells as [| [[x y] cell] rest IH]; intros acc Hacc Hfold.
  - by apply Hacc.
  - simpl in Hfold. eapply IH; [| exact Hfold].
    intros k Hk. destruct acc as [g |]; [| done]. simpl in Hk.
    destruct (InfrastructureConnectivityManager.getBuildingConnectivity
                x y g) as [conn |]; [| done].
    injection Hk as <-. apply cellwise_alter2; [by intros a b |].
    by apply Hacc.
Qed.

Lemma Forall2_imap_r {A B C} (P : A -> C -> Prop) (Q : A -> B -> Prop)
    (f : nat -> B -> C) l k :
  (forall i a b, Q a b -> P a (f i b)) ->
  Forall2 Q l k -> Forall2 P l (imap f k).
Proof.
  intros Hf Hlk. revert f Hf.
  induction Hlk as [| a b l k Hab _ IH]; intros f Hf; [constructor |].
  simpl. constructor; [by apply Hf |]. apply IH. intros i. apply Hf.
Qed.

Lemma sharedBuildings_buildings grid cityGrid c :
  cellwise sameBuilding grid cityGrid ->
  cellwise noNewBuilding grid (SimulationEngine.sharedBuildings cityGrid c).
Proof.
  unfold cellwise, SimulationEngine.sharedBuildings.
  apply Forall2_imap_r. intros y row row'.
  apply Forall2_imap_r. intros x a b Hab Hnone.
  unfold sameBuilding in Hab. rewrite Hnone in Hab. by rewrite Hab.
Qed.

Lemma cellwise_sameBuilding_trans g1 g2 g3 :
  cellwise sameBuilding g1 g2 -> cellwise sameBuilding g2 g3 ->
  cellwise sameBuilding g1 g3.
Proof.
  unfold cellwise. intros H12 H23.
  eapply Forall2_trans; [| exact H12 | exact H23].
  intros r1 r2 r3 Ha Hb. eapply Forall2_trans; [| exact Ha | exact Hb].
  unfold sameBuilding. intros a b c Hab Hbc. by rewrite Hbc.
Qed.

Lemma snapshotAfterTick_buildings `{BuildingStats} c0 c' pg snapshot :
  snapshotAfterTick c0 c' pg = Some snapshot ->
  cellwise noNewBuilding (City.toGridFormat c0) snapshot.
Proof.
  unfold snapshotAfterTick. intros Hsnap.
  destruct (InfrastructureConnectivityManager.updateGridConnectivity _)
    as [g |] eqn:Hg; [| done].
  injection Hsnap as <-. apply sharedBuildings_buildings.
  eapply cellwise_sameBuilding_trans;
    [apply updateGridPowerStatus_buildings |].
  by eapply updateGridConnectivity_buildings.
Qed.

(** ** One tick on a served cell without a building

    The run of [SimulationEngine.simulate] on the one-cell grid
    [[servedCell]] in [calmWorld], pass by pass: the weather stays sunny,
    the pollution stays 0, the happiness pass gives 80 and the growth pass
    puts a house on the cell. *)

Lemma Rclamp_in a : (0 <= a <= 100)%R -> Rmax 0 (Rmin 100 a) = a.
Proof.
  intros Ha. unfold Rmax, Rmin.
  destruct (Rle_dec 100 a); destruct (Rle_dec 0 _); lra.
Qed.

Section ServedCell.
Context `{BuildingStats}.

Lemma weather_on_servedZone :
  WeatherManager.applyWeatherPollutionEffect
    (WeatherManager.WEATHER_EFFECTS SUNNY) servedZone = servedZone.
Proof.
  unfold WeatherManager.applyWeatherPollutionEffect, Zone.updatePollution,
    servedZone, Zone.putPollution. simpl. f_equal.
  rewrite (Rmin_right 100 (0 + -2)) by lra.
  rewrite (Rmax_left 0 (0 + -2)) by lra.
  rewrite Rmin_right by lra. lra.
Qed.

Lemma neighbours_of_servedZone :
  HappinessManager.countNeighboringBuildings 0 0 [[servedZone]] 1 1 = 0.
Proof. reflexivity. Qed.

Lemma localPollution_of_servedZone :
  HappinessManager.calculateLocalPollution 0 0 [[servedZone]] 1 1 = 0%R.
Proof. reflexivity. Qed.

Lemma serviceEffects_of_servedZone :
  HappinessManager.calculateServiceBuildingEffects 0 0 [[servedZone]] 1 1
  = 0%R.
Proof. reflexivity. Qed.

Lemma jobs_of_servedZone :
  HappinessManager.countNearbyJobs 0 0 [[servedZone]] 1 1 = 0.
Proof.
  unfold HappinessManager.countNearbyJobs.
  replace (fold_left _ _ _) with 0%R by reflexivity.
  apply (ZfloorZ 0).
Qed.

Lemma happiness_of_servedZone :
  HappinessManager.updateAllZoneHappiness [[servedZone]] 1 1
  = [[Zone.putHappiness 80 servedZone]].
Proof.
  unfold HappinessManager.updateAllZoneHappiness. simpl.
  change (Z.of_nat 0) with 0.
  rewrite neighbours_of_servedZone, localPollution_of_servedZone,
    jobs_of_servedZone, serviceEffects_of_servedZone.
  unfold HappinessManager.calculateZoneHappiness. simpl.
  set (h := clamp (clamp _ 0 100 + 0) 0 100).
  assert (Hh : h = 80%R).
  { subst h.
    unfold HappinessManager.BASE_HAPPINESS,
      HappinessManager.INFRASTRUCTURE_BONUS,
      HappinessManager.MAX_NEIGHBOR_BONUS,
      HappinessManager.NEIGHBOR_BONUS_PER_BUILDING,
      HappinessManager.MAX_EMPLOYMENT_BONUS,
      HappinessManager.EMPLOYMENT_BONUS_PER_JOB.
    rewrite !Rmin_right by lra.
    assert (Hin : clamp (60 + 20 - 0 + 0 * 2 + 0 * 1) 0 100 = 80%R)
      by (rewrite clamp_id; lra).
    rewrite Hin, clamp_id; lra. }
  rewrite Hh. unfold Zone.setHappiness. rewrite Rclamp_in by lra.
  reflexivity.
Qed.

Lemma growth_of_servedZone :
  City.simulateBuildingGrowth
    (singleZoneCity (Zone.putHappiness 80 servedZone))
    (mkWorld (fun _ => 0.5%R) 1 0 SUNNY 4)
  = (Some (singleZoneCity grownZone), mkWorld (fun _ => 0.5%R) 4 0 SUNNY 4).
Proof.
  unfold City.simulateBuildingGrowth. simpl. munfold.
  unfold City.growSingleCell, City.canZoneGrow. munfold.
  rewrite canGrowInCurrentWeather_run. simpl.
  unfold Rgtb. rewrite (Rltb_true 0.5 1.2), (Rltb_true 30 80) by lra. simpl.
  unfold Zone.createBuilding, Zone.shouldCreateBuilding. simpl. munfold.
  unfold Math_random. simpl.
  rewrite Rltb_true by lra. reflexivity.
Qed.

Lemma load_servedCell :
  City.fromGridFormat [[servedCell]] (City.new 1 1)
  = singleZoneCity servedZone.
Proof.
  unfold City.fromGridFormat, City.new, singleZoneCity, City.setZones. simpl.
  unfold City.loadCell. simpl.
  unfold Zone.setPollution, Zone.setHappiness.
  rewrite !Rclamp_in by lra. reflexivity.
Qed.

Lemma power_of_servedZone :
  calculatePowerDistribution (City.toGridFormat (singleZoneCity servedZone))
  = Some (mkPowerGrid [] [] 0 0 0).
Proof. reflexivity. Qed.

Lemma updateWeather_calm :
  WeatherManager.updateWeather calmWorld
  = (tt, mkWorld (fun _ => 0.5%R) 1 0 SUNNY 4).
Proof.
  unfold WeatherManager.updateWeather, calmWorld. munfold. simpl.
  rewrite Rltb_false; [done |].
  unfold WeatherManager.weatherChangeChance. lra.
Qed.

Lemma City_simulate_servedZone :
  exists u0,
    City.simulate (singleZoneCity servedZone) calmWorld
    = (Some (u0, singleZoneCity grownZone),
       mkWorld (fun _ => 0.5%R) 4 0 SUNNY 4)
    /\ buildings u0 = [Building.toJSON spawnedHouse].
Proof.
  eexists. rewrite City_simulate_passes. cbv zeta.
  rewrite updateWeather_calm.
  unfold WeatherManager.applyWeatherEffects. munfold. simpl.
  change (WeatherManager.mkEffect SUNNY 5 5 (-2) 1.2)
    with (WeatherManager.WEATHER_EFFECTS SUNNY).
  rewrite weather_on_servedZone.
  change (City.gridWidth (singleZoneCity servedZone)) with 1.
  change (City.gridHeight (singleZoneCity servedZone)) with 1.
  rewrite happiness_of_servedZone.
  change (City.setZones [[Zone.putHappiness 80 servedZone]]
            (singleZoneCity servedZone))
    with (singleZoneCity (Zone.putHappiness 80 servedZone)).
  rewrite growth_of_servedZone. simpl. split; reflexivity.
Qed.

Lemma connectivity_of_servedZone :
  InfrastructureConnectivityManager.updateGridConnectivity
    (updateGridPowerStatus (City.toGridFormat (singleZoneCity servedZone))
       (mkPowerGrid [] [] 0 0 0))
  = Some (City.toGridFormat (singleZoneCity servedZone)).
Proof. reflexivity. Qed.

Lemma stats_of_servedZone :
  getGridConnectivityStats
    (SimulationEngine.sharedBuildings
       (City.toGridFormat (singleZoneCity servedZone))
       (singleZoneCity grownZone))
  = Some (mkConnSummary 0 0 0 0 0 0 0 0).
Proof. reflexivity. Qed.

Lemma tick_spawns_unpowered_house :
  exists u w',
    SimulationEngine.simulate (Some [[servedCell]]) (City.new 1 1) calmWorld
    = (Some (u, singleZoneCity grownZone), w')
    /\ buildings u = [Building.toJSON spawnedHouse]
    /\ powerGrid u = Some (mkPowerSummary 0 0 0 false 0)
    /\ totalBuildings <$> connectivity u = Some 0
    /\ totalDemand <$>
         calculatePowerDistribution
           (City.toGridFormat (singleZoneCity grownZone)) = Some 10
    /\ totalBuildings <$>
         getGridConnectivityStats
           (City.toGridFormat (singleZoneCity grownZone)) = Some 1.
Proof.
  destruct City_simulate_servedZone as (u0 & Hrun & Hb).
  exists (SimulationEngine.withSummaries (mkPowerSummary 0 0 0 false 0)
            (mkConnSummary 0 0 0 0 0 0 0 0) u0),
         (mkWorld (fun _ => 0.5%R) 4 0 SUNNY 4).
  split.
  - unfold SimulationEngine.simulate. rewrite load_servedCell.
    cbv zeta. rewrite power_of_servedZone, connectivity_of_servedZone.
    munfold. rewrite Hrun, stats_of_servedZone.
    unfold SimulationEngine.powerGridSummary, isPowerGridOverloaded,
      POWER_OVERLOAD_THRESHOLD, Rgtb. simpl.
    rewrite Rltb_false by lra. reflexivity.
  - split; [exact Hb |]. split; [reflexivity |]. split; [reflexivity |].
    split; [reflexivity |]. reflexivity.
Qed.
End ServedCell.

(** ** The passes of a tick and what the summaries are computed from *)

(** C9 (amended).  A tick whose growth pass ends in its ReferenceError
    returns no record.  In every tick that returns a record
    [SimulationEngine.simulate] has run the power-distribution pass and
    the connectivity update first, on the grid as it was loaded;
    [City.simulate] has then run the weather update, the weather effects,
    the happiness pass and the growth pass, in this order, the growth pass
    has returned, and buildings, population, happiness and pollution are
    aggregated from the city after growth.  The powerGrid summary of the emitted record is that
    of the power distribution of the loaded grid, so it is computed before
    this tick's weather, happiness and growth changes and does not depend on
    the tick's draws.  The connectivity summary is computed last, over the
    snapshot taken before the city passes: a cell of it that held no
    building before the tick holds none, so buildings spawned in this tick
    are not counted. *)
Theorem C9_passes_of_a_tick `{BuildingStats} grid c w u c' w' :
  SimulationEngine.simulate (Some grid) c w = (Some (u, c'), w') ->
  let c0 := City.fromGridFormat grid c in
  let w1 := snd (WeatherManager.updateWeather w) in
  let r := WeatherManager.applyWeatherEffects (City.zones c0) w1 in
  let zones2 :=
    HappinessManager.updateAllZoneHappiness (fst r) (City.gridWidth c0)
      (City.gridHeight c0) in
  let g := City.simulateBuildingGrowth (City.setZones zones2 c0) (snd r) in
  fst g = Some c' /\ w' = snd g
  /\ buildings u = map Building.toJSON (City.getAllBuildings c')
  /\ economics_population u
     = City.calculateTotalPopulation (City.getAllBuildings c')
  /\ update_happiness u = City.calculateAverageHappiness c'
  /\ update_pollution u = City.calculateAveragePollution c'
  /\ powerGrid u
     = SimulationEngine.powerGridSummary <$>
         calculatePowerDistribution (City.toGridFormat c0)
  /\ exists pg snapshot,
       calculatePowerDistribution (City.toGridFormat c0) = Some pg
       /\ snapshotAfterTick c0 c' pg = Some snapshot
       /\ connectivity u = getGridConnectivityStats snapshot
       /\ cellwise noNewBuilding (City.toGridFormat c0) snapshot.
Proof.
  intros Hsim c0 w1 r zones2 g.
  destruct (simulate_inv _ _ _ _ _ _ Hsim)
    as (pg & snapshot & k & u0 & Hpg & Hsnap & Hcity & Hk & ->).
  fold c0 in Hpg, Hsnap, Hcity.
  rewrite City_simulate_passes in Hcity. cbv zeta in Hcity.
  fold w1 in Hcity. fold r in Hcity. fold zones2 in Hcity. fold g in Hcity.
  injection Hcity as Hgrown Hw'.
  destruct (fst g) as [c1 |] eqn:Hg; [| done].
  injection Hgrown as <- <-. subst w'. rewrite Hpg. simpl.
  repeat (split; [done |]).
  exists pg, snapshot. split; [done |]. split; [done |]. split; [done |].
  by eapply snapshotAfterTick_buildings.
Qed.

Lemma C9_passes_of_a_tick_witness :
  exists u w',
    @SimulationEngine.simulate zeroStats (Some [[servedCell]]) (City.new 1 1)
      calmWorld
    = (Some (u, singleZoneCity grownZone), w')
    /\ powerGrid u
       = SimulationEngine.powerGridSummary <$>
           calculatePowerDistribution
             (City.toGridFormat
                (City.fromGridFormat [[servedCell]] (City.new 1 1)))
    /\ buildings u
       = map Building.toJSON (City.getAllBuildings (singleZoneCity grownZone)).
Proof.
  destruct (@tick_spawns_unpowered_house zeroStats)
    as (u & w' & Hsim & _).
  exists u, w'. split; [exact Hsim |].
  destruct (@C9_passes_of_a_tick zeroStats _ _ _ _ _ _ Hsim)
    as (_ & _ & Hbuildings & _ & _ & _ & Hpower & _).
  split; [exact Hpower | exact Hbuildings].
Defined.

(** C9 as claimed fails: on a one-cell grid whose cell has road, power and
    water and no building, a tick in sunny weather with every draw 1/2
    puts a house on the cell, and the emitted record lists it under
    [buildings]; yet its powerGrid summary reports demand 0 and its
    connectivity summary counts 0 buildings, while the power distribution
    and the connectivity statistics of the grid after this tick's growth
    give demand 10 and 1 building. *)
Lemma C9_counterexample :
  exists u w',
    @SimulationEngine.simulate zeroStats (Some [[servedCell]]) (City.new 1 1)
      calmWorld
    = (Some (u, singleZoneCity grownZone), w')
    /\ buildings u = [Building.toJSON spawnedHouse]
    /\ powerGrid u = Some (mkPowerSummary 0 0 0 false 0)
    /\ totalBuildings <$> connectivity u = Some 0
    /\ totalDemand <$>
         calculatePowerDistribution
           (City.toGridFormat (singleZoneCity grownZone)) = Some 10
    /\ totalBuildings <$>
         @getGridConnectivityStats zeroStats
           (City.toGridFormat (singleZoneCity grownZone)) = Some 1
    /\ powerGrid u
       <> SimulationEngine.powerGridSummary <$>
            calculatePowerDistribution
              (City.toGridFormat (singleZoneCity grownZone))
    /\ connectivity u
       <> @getGridConnectivityStats zeroStats
            (City.toGridFormat (singleZoneCity grownZone)).
Proof.
  destruct (@tick_spawns_unpowered_house zeroStats)
    as (u & w' & Hsim & Hb & Hp & Hk & Hdemand & Hcount).
  exists u, w'. repeat (split; [done |]). split.
  - intros Heq. rewrite Hp in Heq.
    destruct (calculatePowerDistribution _) as [pg |]; [| done].
    injection Hdemand as Hdemand. injection Heq as _ Heq _ _ _.
    rewrite Hdemand in Heq. done.
  - intros Heq. rewrite Heq, Hcount in Hk. done.
Qed.

(** * Further properties of the code *)

(** ** Zones *)

(** X1. [removeInfrastructure] takes the flag off the zone and leaves every
    other flag as it was; on a zone that does not carry the flag it changes
    nothing, and it undoes an [addInfrastructure] of that flag. *)
Theorem Zone_removeInfrastructure_removes ty z :
  let z' := Zone.removeInfrastructure ty z in
  Zone.hasInfrastructure ty z' = false
  /\ (forall ty', ty' <> ty ->
        Zone.hasInfrastructure ty' z' = Zone.hasInfrastructure ty' z)
  /\ (Zone.hasInfrastructure ty z = false ->
      Zone.removeInfrastructure ty (snd (Zone.addInfrastructure ty z)) = z
      /\ Zone.removeInfrastructure ty z = z).
Proof.
  intros z'. subst z'.
  unfold Zone.removeInfrastructure, Zone.hasInfrastructure,
    Zone.putInfrastructure. simpl.
  split; [| split].
  - apply not_true_is_false. rewrite includes_spec.
    rewrite list_elem_of_filter. by intros [Hne _].
  - intros ty' Hne. unfold includes. apply bool_decide_ext.
    rewrite list_elem_of_filter. split; [by intros [_ ?] | done].
  - intros Hnot. apply not_true_iff_false in Hnot.
    rewrite includes_spec in Hnot.
    assert (Hsame : filter (fun infra => infra <> ty) (Zone.infrastructure z)
                    = Zone.infrastructure z).
    { induction (Zone.infrastructure z) as [| a l IH]; [done |].
      rewrite filter_cons. rewrite not_elem_of_cons in Hnot.
      destruct Hnot as [Ha Hl]. destruct (decide (a <> ty)) as [_ | Hn]; [| by destruct Hn].
      by rewrite IH. }
    split.
    + unfold Zone.addInfrastructure.
      replace (includes (Zone.infrastructure z) ty) with false
        by (symmetry; apply not_true_is_false; by rewrite includes_spec).
      simpl. rewrite filter_app, Hsame. rewrite filter_cons, filter_nil.
      destruct (decide (ty <> ty)); [done |]. rewrite app_nil_r.
      by destruct z.
    + rewrite Hsame. by destruct z.
Qed.

(** [Math.max(0, Math.min(100, h))] is [clamp(h, 0, 100)]. *)
Lemma Rmax_Rmin_clamp h : Rmax 0 (Rmin 100 h) = clamp h 0 100.
Proof.
  unfold clamp, Rmax, Rmin.
  destruct (Rle_dec 100 h); destruct (Rle_dec 0 _); destruct (Rle_dec h 0);
    destruct (Rle_dec _ 100); lra.
Qed.

(** X2. [Zone.updateHappiness] stores the value that
    [HappinessManager.calculateZoneHappiness] computes from the same zone
    and the same three figures: the two copies of the formula agree. *)
Theorem Zone_updateHappiness_agrees n p j z :
  Zone.getHappiness (Zone.updateHappiness n p j z)
  = HappinessManager.calculateZoneHappiness z n p j.
Proof.
  unfold Zone.updateHappiness, HappinessManager.calculateZoneHappiness,
    Zone.getHappiness, Zone.getType,
    HappinessManager.BASE_HAPPINESS, HappinessManager.INFRASTRUCTURE_BONUS,
    HappinessManager.INFRASTRUCTURE_PENALTY,
    HappinessManager.MAX_NEIGHBOR_BONUS,
    HappinessManager.NEIGHBOR_BONUS_PER_BUILDING,
    HappinessManager.MAX_EMPLOYMENT_BONUS,
    HappinessManager.EMPLOYMENT_BONUS_PER_JOB.
  simpl. rewrite Rmax_Rmin_clamp. f_equal.
  replace (j * 1)%R with j by lra.
  destruct (Zone.hasAllBasicInfrastructure z);
    destruct (decide (Zone.type z = RESIDENTIAL)) as [-> | Hne];
    destruct (decide (Some _ = Some RESIDENTIAL)) as [He | Hne'];
    try congruence; lra.
Qed.

(** X3. [Zone.fromZoneCell (zone.toZoneCell())] has the coordinates, type,
    flags, happiness and pollution of [zone]; its building is the one of
    [zone] passed through [Building.fromJSON]; the block data of [zone] is
    lost, the result is never part of a block. *)
Theorem Zone_fromZoneCell_toZoneCell z :
  let z' := Zone.fromZoneCell (Zone.toZoneCell z) in
  Zone.getX z' = Zone.getX z /\ Zone.getY z' = Zone.getY z
  /\ Zone.getType z' = Zone.getType z
  /\ Zone.getInfrastructure z' = Zone.getInfrastructure z
  /\ Zone.getBuilding z' = Building.fromJSON <$> Zone.getBuilding z
  /\ Zone.getHappiness z' = Zone.getHappiness z
  /\ Zone.getPollution z' = Zone.getPollution z
  /\ Zone.isBlockZone z' = false.
Proof.
  intros z'. subst z'. destruct z as [x y ty infra b h p bid bx by_].
  unfold Zone.fromZoneCell, Zone.toZoneCell. simpl.
  repeat split; by destruct b.
Qed.

(** X4. [clamp(value, min, max)] with [min <= max] lies between the two
    bounds, is [value] inside them and the nearer bound outside; with
    [max < min] it is [max] whatever the value; clamping twice is clamping
    once. *)
Theorem clamp_cases value min max :
  ((min <= max)%R ->
     (min <= clamp value min max <= max)%R
     /\ ((min <= value <= max)%R -> clamp value min max = value)
     /\ ((value <= min)%R -> clamp value min max = min)
     /\ ((max <= value)%R -> clamp value min max = max))
  /\ ((max < min)%R -> clamp value min max = max)
  /\ clamp (clamp value min max) min max = clamp value min max.
Proof.
  assert (Hin : forall v, (min <= max)%R ->
            (min <= clamp v min max <= max)%R
            /\ ((min <= v <= max)%R -> clamp v min max = v)
            /\ ((v <= min)%R -> clamp v min max = min)
            /\ ((max <= v)%R -> clamp v min max = max)).
  { intros v Hle. unfold clamp, Rmax, Rmin.
    destruct (Rle_dec v min); destruct (Rle_dec _ max);
      repeat split; intros; lra. }
  assert (Hout : forall v, (max < min)%R -> clamp v min max = max).
  { intros v Hlt. unfold clamp, Rmax, Rmin.
    destruct (Rle_dec v min); destruct (Rle_dec _ max); lra. }
  split; [apply Hin |]. split; [apply Hout |].
  destruct (Rle_dec min max) as [Hle | Hgt].
  - destruct (Hin value Hle) as (Hb & _).
    by apply (Hin (clamp value min max) Hle).
  - rewrite !Hout by lra. done.
Qed.

(** ** Weather *)

Lemma pickWeather_defined r :
  (0 <= r < 1)%R -> exists k, WeatherManager.pickWeather r = Some k.
Proof.
  intros Hr. unfold WeatherManager.pickWeather.
  change (Z.of_nat (length WeatherManager.weatherTypes)) with 5.
  cbv zeta.
  assert (Hlo : 0 <= Zfloor (r * 5)).
  { apply Zfloor_lub. lra. }
  assert (Hhi : Zfloor (r * 5) < 5).
  { apply lt_IZR. pose proof (Zfloor_bound (r * 5)). lra. }
  replace (Zfloor (r * 5) <? 0) with false by (symmetry; apply Z.ltb_ge; lia).
  apply lookup_lt_is_Some_2. simpl. lia.
Qed.

Lemma changeWeather_run w :
  (0 <= randoms w (drawn w) < 1)%R ->
  exists k,
    WeatherManager.changeWeather w
    = (tt, mkWorld (randoms w) (S (drawn w)) (clock w) k
             (WeatherManager.duration (WeatherManager.WEATHER_EFFECTS k))).
Proof.
  intros Hr. destruct (pickWeather_defined _ Hr) as [k Hk]. exists k.
  unfold WeatherManager.changeWeather, WeatherManager.pickWeather in *.
  munfold. unfold Math_random. cbn beta iota. rewrite Hk. reflexivity.
Qed.

Lemma duration_positive k :
  2 <= WeatherManager.duration (WeatherManager.WEATHER_EFFECTS k) <= 5.
Proof. destruct k; simpl; lia. Qed.

(** X5. After [updateWeather] the remaining duration of the weather is at
    least 1: either the weather stayed and its duration went down by one,
    or the weather was drawn anew and lasts as long as its table entry
    says; a weather whose duration was at most 1 is always drawn anew. *)
Theorem updateWeather_duration w :
  unitDraws w ->
  let w' := snd (WeatherManager.updateWeather w) in
  1 <= weatherDuration w'
  /\ ((currentWeather w' = currentWeather w
       /\ weatherDuration w' = weatherDuration w - 1)
      \/ weatherDuration w'
         = WeatherManager.duration
             (WeatherManager.WEATHER_EFFECTS (currentWeather w')))
  /\ (weatherDuration w <= 1 ->
      weatherDuration w'
      = WeatherManager.duration
          (WeatherManager.WEATHER_EFFECTS (currentWeather w')))
  /\ unitDraws w'.
Proof.
  intros Hu w'. subst w'. unfold WeatherManager.updateWeather. munfold.
  unfold getWeather, putWeather. cbn beta iota.
  destruct (weatherDuration w - 1 <=? 0) eqn:Hd.
  - apply Z.leb_le in Hd.
    destruct (changeWeather_run
                (mkWorld (randoms w) (drawn w) (clock w) (currentWeather w)
                   (weatherDuration w - 1)) (Hu _)) as [k ->].
    simpl. pose proof (duration_positive k). repeat split; try lia; auto; apply Hu.
  - apply Z.leb_gt in Hd. unfold Math_random. cbn beta iota. simpl.
    destruct (Rltb _ _).
    + destruct (changeWeather_run
                  (mkWorld (randoms w) (S (drawn w)) (clock w)
                     (currentWeather w) (weatherDuration w - 1)) (Hu _))
        as [k ->].
      simpl. pose proof (duration_positive k). repeat split; try lia; auto; apply Hu.
    + simpl. repeat split; try lia; auto; apply Hu.
Qed.

Lemma unitDraws_calmWorld : unitDraws calmWorld.
Proof. intros i. simpl. lra. Qed.

Lemma updateWeather_duration_witness :
  1 <= weatherDuration (snd (WeatherManager.updateWeather calmWorld)).
Proof.
  apply (updateWeather_duration calmWorld). intros i. simpl. lra.
Defined.

Lemma forecastLoop_shape turns :
  forall k d w,
    unitDraws w ->
    exists forecast w',
      WeatherManager.forecastLoop turns k d w = (Some forecast, w')
      /\ length forecast = turns
      /\ (forall i, (i < turns)%nat -> Z.of_nat i < d ->
            forecast !! i = Some k)
      /\ currentWeather w' = currentWeather w
      /\ weatherDuration w' = weatherDuration w
      /\ (drawn w <= drawn w')%nat.
Proof.
  induction turns as [| n IH]; intros k d w Hu.
  - exists [], w. simpl. repeat split; try done. intros; lia.
  - simpl. destruct (0 <? d) eqn:Hd.
    + apply Z.ltb_lt in Hd. munfold.
      destruct (IH k (d - 1) w Hu) as (f & w' & -> & Hlen & Hpre & Hk & Hdur & Hdr).
      exists (k :: f), w'. simpl. repeat split; try done; try lia.
      intros [| i] Hi Hid; [done |]. simpl. apply Hpre; lia.
    + apply Z.ltb_ge in Hd. munfold. unfold Math_random. cbn beta iota.
      destruct (pickWeather_defined _ (Hu (drawn w))) as [k' ->].
      set (w1 := mkWorld _ _ _ _ _).
      assert (Hu1 : unitDraws w1) by (intros i; apply Hu).
      destruct (IH k' (WeatherManager.duration (WeatherManager.WEATHER_EFFECTS k') - 1) w1 Hu1)
        as (f & w' & -> & Hlen & Hpre & Hk & Hdur & Hdr).
      exists (k' :: f), w'. simpl.
      split; [done |]. split; [by rewrite Hlen |].
      split; [intros i Hi Hid; lia |].
      split; [done |]. split; [done |]. simpl in Hdr. lia.
Qed.

(** X6. [getWeatherForecast(turns)] returns [turns] entries, of which the
    first [weatherDuration] repeat the current weather, and leaves the
    current weather and its duration as they were. *)
Theorem getWeatherForecast_shape turns w :
  unitDraws w ->
  exists forecast w',
    WeatherManager.getWeatherForecast turns w = (Some forecast, w')
    /\ length forecast = Z.to_nat turns
    /\ (forall i, (i < Z.to_nat turns)%nat ->
          Z.of_nat i < weatherDuration w ->
          forecast !! i = Some (currentWeather w))
    /\ currentWeather w' = currentWeather w
    /\ weatherDuration w' = weatherDuration w.
Proof.
  intros Hu. unfold WeatherManager.getWeatherForecast. munfold.
  unfold getWeather. cbn beta iota.
  destruct (forecastLoop_shape (Z.to_nat turns) (currentWeather w)
              (weatherDuration w) w Hu)
    as (f & w' & Hrun & Hlen & Hpre & Hk & Hdur & _).
  by exists f, w'.
Qed.

Lemma getWeatherForecast_shape_witness :
  exists forecast w',
    WeatherManager.getWeatherForecast 3 calmWorld = (Some forecast, w')
    /\ length forecast = 3%nat.
Proof.
  destruct (getWeatherForecast_shape 3 calmWorld)
    as (f & w' & Hrun & Hlen & _); [intros i; simpl; lra |].
  by exists f, w'.
Defined.

(** X7. Under sunny or cloudy weather the growth multiplier is at least 1,
    so [canGrowInCurrentWeather] answers true whatever the draw; it
    consumes one draw all the same. *)
Theorem canGrowInCurrentWeather_fair_weather w :
  unitDraws w ->
  (currentWeather w = SUNNY \/ currentWeather w = CLOUDY) ->
  fst (WeatherManager.canGrowInCurrentWeather w) = true
  /\ drawn (snd (WeatherManager.canGrowInCurrentWeather w)) = S (drawn w).
Proof.
  intros Hu Hk. rewrite canGrowInCurrentWeather_run. simpl.
  split; [| done]. apply Rltb_true. pose proof (Hu (drawn w)).
  destruct Hk as [-> | ->]; simpl; lra.
Qed.

Lemma canGrowInCurrentWeather_fair_weather_witness :
  fst (WeatherManager.canGrowInCurrentWeather calmWorld) = true.
Proof.
  apply (canGrowInCurrentWeather_fair_weather calmWorld).
  - intros i. simpl. lra.
  - by left.
Defined.

(** ** The eight neighbours *)

(** X8. [getNeighbors(x, y)] of [utils] lists exactly the cells next to
    [(x, y)], diagonals included and [(x, y)] excluded, that lie on the
    50 x 30 grid; no cell is listed twice, so there are at most 8. *)
Theorem getNeighbors_spec x y nx ny :
  ((nx, ny) ∈ getNeighbors x y
   <-> (x - 1 <= nx <= x + 1 /\ y - 1 <= ny <= y + 1 /\ (nx, ny) <> (x, y)
        /\ 0 <= nx < GRID_WIDTH /\ 0 <= ny < GRID_HEIGHT))
  /\ NoDup (getNeighbors x y)
  /\ (length (getNeighbors x y) <= 8)%nat.
Proof.
  split; [| split].
  - unfold getNeighbors. rewrite list_elem_of_bind. split.
    + intros (dx & Hin & Hdx). apply list_elem_of_bind in Hin as (dy & Hin & Hdy).
      apply elem_of_offsets in Hdx; [| lia].
      apply elem_of_offsets in Hdy; [| lia].
      destruct ((dx =? 0) && (dy =? 0)) eqn:Hc; [by apply elem_of_nil in Hin |].
      destruct (_ && _) eqn:Hb in Hin; [| by apply elem_of_nil in Hin].
      apply list_elem_of_singleton in Hin as [= -> ->].
      repeat (apply andb_true_iff in Hb as [Hb ?]).
      apply Z.leb_le in Hb. apply Z.ltb_lt in H. apply Z.leb_le in H0.
      apply Z.ltb_lt in H1.
      apply andb_false_iff in Hc.
      repeat split; try lia.
      intros [= Hx Hy]. destruct Hc as [Hc | Hc]; apply Z.eqb_neq in Hc; lia.
    + intros (Hx & Hy & Hne & Hbx & Hby).
      exists (nx - x). split.
      * apply list_elem_of_bind. exists (ny - y). split.
        -- replace ((nx - x =? 0) && (ny - y =? 0)) with false.
           2:{ symmetry. apply andb_false_iff.
               destruct (decide (nx = x)) as [-> | Hnx].
               - right. apply Z.eqb_neq. intros Hy0. apply Hne. f_equal. lia.
               - left. apply Z.eqb_neq. lia. }
           replace (x + (nx - x)) with nx by lia.
           replace (y + (ny - y)) with ny by lia.
           replace ((0 <=? nx) && (nx <? GRID_WIDTH) && (0 <=? ny)
                    && (ny <? GRID_HEIGHT)) with true.
           2:{ symmetry. repeat (apply andb_true_iff; split);
               try apply Z.leb_le; try apply Z.ltb_lt; lia. }
           apply list_elem_of_here.
        -- apply elem_of_offsets; lia.
      * apply elem_of_offsets; lia.
  - unfold getNeighbors.
    apply NoDup_bind.
    + intros dx dx' p _ _ Hp Hp'.
      apply list_elem_of_bind in Hp as (dy & Hp & _).
      apply list_elem_of_bind in Hp' as (dy' & Hp' & _).
      destruct ((dx =? 0) && (dy =? 0)); [by apply elem_of_nil in Hp |].
      destruct ((dx' =? 0) && (dy' =? 0)); [by apply elem_of_nil in Hp' |].
      destruct (_ && _) in Hp; [| by apply elem_of_nil in Hp].
      destruct (_ && _) in Hp'; [| by apply elem_of_nil in Hp'].
      apply list_elem_of_singleton in Hp, Hp'. subst p.
      injection Hp' as Hx _. lia.
    + intros dx _. apply NoDup_bind.
      * intros dy dy' p _ _ Hp Hp'.
        destruct ((dx =? 0) && (dy =? 0)); [by apply elem_of_nil in Hp |].
        destruct ((dx =? 0) && (dy' =? 0)); [by apply elem_of_nil in Hp' |].
        destruct (_ && _) in Hp; [| by apply elem_of_nil in Hp].
        destruct (_ && _) in Hp'; [| by apply elem_of_nil in Hp'].
        apply list_elem_of_singleton in Hp, Hp'. subst p.
        injection Hp' as Hy. lia.
      * intros dy _. destruct (_ && _); [apply NoDup_nil_2 |].
        destruct (_ && _); [apply NoDup_singleton | apply NoDup_nil_2].
      * apply NoDup_offsets.
    + apply NoDup_offsets.
  - unfold getNeighbors. change (offsets 1) with [-1; 0; 1].
    simpl. rewrite !length_app.
    repeat match goal with
           | |- context [if ?b then _ else _] => destruct b
           end; simpl; lia.
Qed.

(** X9. On a zone array that has a row for every [y] below [gridHeight],
    [countNeighboringBuildings] returns a count between 0 and 8. *)
Theorem countNeighboringBuildings_bounds x y zones w h :
  rowsCover zones h ->
  0 <= HappinessManager.countNeighboringBuildings x y zones w h <= 8.
Proof.
  intros _. unfold HappinessManager.countNeighboringBuildings.
  set (f := fun (count : Z) '(dx, dy) => _).
  assert (Hstep : forall l acc,
            acc <= fold_left f l acc
            <= acc + Z.of_nat (length (filter (fun d => d <> (0, 0)) l))).
  { induction l as [| [dx dy] l IH]; intros acc; simpl; [lia |].
    specialize (IH (f acc (dx, dy))).
    rewrite filter_cons.
    assert (Hf : acc <= f acc (dx, dy)
                 <= acc + (if decide ((dx, dy) <> (0, 0)) then 1 else 0)).
    { subst f. cbn beta iota.
      destruct ((dx =? 0) && (dy =? 0)) eqn:Hc.
      - destruct (decide _); lia.
      - apply andb_false_iff in Hc.
        destruct (decide ((dx, dy) <> (0, 0))) as [_ | Hn].
        + destruct (inBounds _ _ _ _); [| lia].
          destruct (at2 _ _ _); [| lia].
          destruct (Zone.getBuilding _); lia.
        + exfalso. apply Hn. intros [= -> ->].
          destruct Hc as [Hc | Hc]; by apply Z.eqb_neq in Hc. }
    destruct (decide ((dx, dy) <> (0, 0))); simpl in *; lia. }
  specialize (Hstep (scanBox 1) 0).
  replace (length (filter (fun d => d <> (0, 0)) (scanBox 1))) with 8%nat
    in Hstep by (vm_compute; reflexivity).
  lia.
Qed.

Lemma countNeighboringBuildings_bounds_witness :
  0 <= HappinessManager.countNeighboringBuildings 0 0
         [[servedZone; grownZone]] 2 1 <= 8.
Proof.
  apply (countNeighboringBuildings_bounds 0 0 [[servedZone; grownZone]] 2 1).
  unfold rowsCover. simpl. lia.
Defined.

(** ** The happiness pass on a city without buildings *)

Lemma at2_Forall {A} (P : A -> Prop) (a : list (list A)) x y v :
  Forall (Forall P) a -> at2 a x y = Some v -> P v.
Proof.
  intros Ha. unfold at2. destruct ((x <? 0) || (y <? 0)); [done |].
  destruct (a !! Z.to_nat y) as [row |] eqn:Hrow; simpl; [| done].
  intros Hv. rewrite Forall_lookup in Ha. specialize (Ha _ _ Hrow).
  rewrite Forall_lookup in Ha. by eapply Ha.
Qed.

Lemma Forall_alter2 {A} (P : A -> Prop) f x y (a : list (list A)) :
  (forall v, P v -> P (f v)) ->
  Forall (Forall P) a -> Forall (Forall P) (alter2 f x y a).
Proof.
  intros Hf Ha. unfold alter2. destruct ((x <? 0) || (y <? 0)); [done |].
  apply Forall_alter; [done |]. intros row _ Hrow.
  apply Forall_alter; [done |]. intros v _. apply Hf.
Qed.

Lemma alter2_None {A} (f : A -> A) x y (a : list (list A)) :
  at2 a x y = None -> alter2 f x y a = a.
Proof.
  unfold at2, alter2. destruct ((x <? 0) || (y <? 0)); [done |].
  destruct (a !! Z.to_nat y) as [row |] eqn:Hrow; simpl.
  - intros Hv. apply list_eq. intros i.
    destruct (decide (i = Z.to_nat y)) as [-> | Hne].
    + rewrite list_lookup_alter_eq, Hrow. simpl. f_equal.
      apply list_eq. intros j.
      destruct (decide (j = Z.to_nat x)) as [-> | Hne].
      * by rewrite list_lookup_alter_eq, Hv.
      * by rewrite list_lookup_alter_ne.
    + by rewrite list_lookup_alter_ne.
  - intros _. apply list_eq. intros i.
    destruct (decide (i = Z.to_nat y)) as [-> | Hne].
    + by rewrite list_lookup_alter_eq, Hrow.
    + by rewrite list_lookup_alter_ne.
Qed.

Lemma alter2_ext_at {A} (f g : A -> A) x y (a : list (list A)) v :
  at2 a x y = Some v -> f v = g v -> alter2 f x y a = alter2 g x y a.
Proof.
  unfold at2, alter2. destruct ((x <? 0) || (y <? 0)); [done |].
  destruct (a !! Z.to_nat y) as [row |] eqn:Hrow; simpl; [| done].
  intros Hv Hfg. apply list_eq. intros i.
  destruct (decide (i = Z.to_nat y)) as [-> | Hne].
  - rewrite !list_lookup_alter_eq, Hrow. simpl. f_equal.
    apply list_eq. intros j.
    destruct (decide (j = Z.to_nat x)) as [-> | Hne].
    + rewrite !list_lookup_alter_eq, Hv. simpl. by rewrite Hfg.
    + by rewrite !list_lookup_alter_ne.
  - by rewrite !list_lookup_alter_ne.
Qed.

(** The cell [(x, y)] after a run of in-place updates by an idempotent
    [g] at the places [l]. *)
Lemma at2_fold_alter2 {A} (g : A -> A) (l : list (Z * Z))
    (a : list (list A)) x y :
  (forall v, g (g v) = g v) ->
  at2 (fold_left (fun zs p => alter2 g p.1 p.2 zs) l a) x y
  = if decide ((x, y) ∈ l) then g <$> at2 a x y else at2 a x y.
Proof.
  intros Hg. revert a. induction l as [| [x0 y0] l IH]; intros a; simpl.
  - destruct (decide ((x, y) ∈ [])) as [Hin | _];
      [by apply elem_of_nil in Hin | done].
  - rewrite IH. destruct (decide ((x, y) = (x0, y0))) as [[= -> ->] | Hne].
    + rewrite at2_alter2.
      destruct (decide ((x0, y0) ∈ (x0, y0) :: l)) as [_ | Hn];
        [| destruct Hn; apply list_elem_of_here].
      destruct (decide ((x0, y0) ∈ l)); [| done].
      destruct (at2 a x0 y0); simpl; [| done]. by rewrite Hg.
    + assert (Hat : at2 (alter2 g x0 y0 a) x y = at2 a x y).
      { destruct (decide (0 <= x /\ 0 <= y)) as [[Hx Hy] | Hneg].
        - apply at2_alter2_ne; try done; congruence.
        - rewrite !at2_negative by lia. done. }
      rewrite Hat.
      destruct (decide ((x, y) ∈ l)) as [Hin | Hnin].
      * destruct (decide ((x, y) ∈ (x0, y0) :: l)) as [_ | Hn]; [done |].
        destruct Hn. by apply list_elem_of_further.
      * destruct (decide ((x, y) ∈ (x0, y0) :: l)) as [Hin' | _]; [| done].
        apply elem_of_cons in Hin' as [? | ?]; done.
Qed.

Lemma elem_of_coords w h x y :
  (x, y) ∈ coords w h <-> inBounds x y w h = true.
Proof.
  unfold coords, inBounds. rewrite list_elem_of_bind. split.
  - intros (j & Hin & Hj). apply list_elem_of_bind in Hin as (i & Hin & Hi).
    apply list_elem_of_singleton in Hin as [= -> ->].
    apply elem_of_seq in Hi, Hj.
    repeat (apply andb_true_iff; split);
      try apply Z.leb_le; try apply Z.ltb_lt; lia.
  - intros Hb. repeat (apply andb_true_iff in Hb as [Hb ?]).
    apply Z.leb_le in Hb. apply Z.ltb_lt in H. apply Z.leb_le in H0.
    apply Z.ltb_lt in H1.
    exists (Z.to_nat y). split; [| apply elem_of_seq; lia].
    apply list_elem_of_bind. exists (Z.to_nat x).
    split; [| apply elem_of_seq; lia].
    apply list_elem_of_singleton. f_equal; lia.
Qed.

Lemma fold_left_unchanged {A B} (f : A -> B -> A) (l : list B) (a : A) :
  (forall b, b ∈ l -> f a b = a) -> fold_left f l a = a.
Proof.
  induction l as [| b l IH]; intros Hf; simpl; [done |].
  rewrite (Hf b) by apply list_elem_of_here.
  apply IH. intros b' Hb'. apply Hf. by apply list_elem_of_further.
Qed.

Section FreeCity.
Context `{BuildingStats}.

Lemma buildingFree_figures zones x y w h :
  buildingFree zones ->
  HappinessManager.countNeighboringBuildings x y zones w h = 0
  /\ HappinessManager.calculateLocalPollution x y zones w h = 0%R
  /\ HappinessManager.countNearbyJobs x y zones w h = 0
  /\ HappinessManager.calculateServiceBuildingEffects x y zones w h = 0%R.
Proof.
  intros Hfree.
  assert (Hnone : forall nx ny z,
            at2 zones nx ny = Some z -> Zone.getBuilding z = None).
  { intros nx ny z Hz.
    apply (at2_Forall (fun zone => Zone.getBuilding zone = None)
             zones nx ny z Hfree Hz). }
  split; [| split; [| split]].
  - unfold HappinessManager.countNeighboringBuildings.
    apply fold_left_unchanged. intros [dx dy] _.
    destruct (_ && _); [done |]. destruct (inBounds _ _ _ _); [| done].
    destruct (at2 zones _ _) as [z |] eqn:Hz; [| done].
    by rewrite (Hnone _ _ _ Hz).
  - unfold HappinessManager.calculateLocalPollution.
    apply fold_left_unchanged. intros [nx ny] _.
    destruct (at2 zones _ _) as [z |] eqn:Hz; [| done].
    by rewrite (Hnone _ _ _ Hz).
  - unfold HappinessManager.countNearbyJobs.
    rewrite fold_left_unchanged; [apply (ZfloorZ 0) |].
    intros [nx ny] _.
    destruct (at2 zones _ _) as [z |] eqn:Hz; [| done].
    by rewrite (Hnone _ _ _ Hz).
  - unfold HappinessManager.calculateServiceBuildingEffects.
    apply fold_left_unchanged. intros [nx ny] _.
    destruct (at2 zones _ _) as [z |] eqn:Hz; [| done].
    by rewrite (Hnone _ _ _ Hz).
Qed.

Lemma clamp_twice a :
  (0 <= a <= 100)%R -> clamp (clamp a 0 100 + 0) 0 100 = a.
Proof. intros Ha. rewrite (clamp_id a) by lra. rewrite clamp_id; lra. Qed.

Lemma restingHappiness_value zone :
  clamp (HappinessManager.calculateZoneHappiness zone 0 0 0 + 0) 0 100
  = restingHappiness zone.
Proof.
  unfold HappinessManager.calculateZoneHappiness, restingHappiness,
    HappinessManager.BASE_HAPPINESS, HappinessManager.INFRASTRUCTURE_BONUS,
    HappinessManager.INFRASTRUCTURE_PENALTY,
    HappinessManager.MAX_NEIGHBOR_BONUS,
    HappinessManager.NEIGHBOR_BONUS_PER_BUILDING,
    HappinessManager.MAX_EMPLOYMENT_BONUS,
    HappinessManager.EMPLOYMENT_BONUS_PER_JOB.
  cbv zeta. rewrite !Rmin_right by lra.
  destruct (Zone.hasAllBasicInfrastructure zone); destruct (decide _);
    rewrite clamp_twice; lra.
Qed.

Lemma updateZoneHappinessAt_free zones w h x y :
  buildingFree zones ->
  HappinessManager.updateZoneHappinessAt w h zones (x, y)
  = alter2 (fun zone => Zone.putHappiness (restingHappiness zone) zone)
      x y zones.
Proof.
  intros Hfree. unfold HappinessManager.updateZoneHappinessAt.
  destruct (at2 zones x y) as [zone |] eqn:Hz;
    [| by rewrite alter2_None].
  cbn beta iota.
  destruct (buildingFree_figures zones x y w h Hfree)
    as (-> & -> & -> & ->).
  unfold Zone.getType. cbn beta iota.
  rewrite restingHappiness_value.
  apply (alter2_ext_at _ _ x y zones zone Hz).
  unfold Zone.setHappiness. rewrite Rclamp_in; [done |].
  unfold restingHappiness. destruct (Zone.hasAllBasicInfrastructure zone); lra.
Qed.

(** X10. On a city without buildings [updateAllZoneHappiness] writes to
    every zone inside the grid dimensions the value 80 if the zone has
    road, power and water and 50 if not, whatever its happiness was, and
    changes nothing else; zones outside the dimensions are left alone. *)
Theorem happiness_pass_without_buildings zones w h :
  buildingFree zones ->
  rowsCover zones h ->
  forall x y,
    at2 (HappinessManager.updateAllZoneHappiness zones w h) x y
    = (fun zone =>
         if inBounds x y w h
         then Zone.putHappiness (restingHappiness zone) zone
         else zone) <$> at2 zones x y.
Proof.
  intros Hfree _ x y. unfold HappinessManager.updateAllZoneHappiness.
  set (g := fun zone => Zone.putHappiness (restingHappiness zone) zone).
  assert (Hfold : forall l zs,
            buildingFree zs ->
            fold_left (HappinessManager.updateZoneHappinessAt w h) l zs
            = fold_left (fun zs p => alter2 g p.1 p.2 zs) l zs).
  { induction l as [| [x0 y0] l IH]; intros zs Hzs; cbn [fold_left];
      [done |].
    rewrite updateZoneHappinessAt_free by done. fold g. apply IH.
    apply Forall_alter2; [| done]. by intros zone. }
  rewrite Hfold by done. rewrite at2_fold_alter2 by (by intros []).
  destruct (decide ((x, y) ∈ coords w h)) as [Hin | Hnin].
  - apply elem_of_coords in Hin. rewrite Hin. done.
  - destruct (inBounds x y w h) eqn:Hb;
      [by apply elem_of_coords in Hb |].
    by destruct (at2 zones x y).
Qed.
End FreeCity.

Lemma happiness_pass_without_buildings_witness :
  at2 (@HappinessManager.updateAllZoneHappiness zeroStats
         [[Zone.new 0 0 None; servedZone]] 2 1) 1 0
  = Some (Zone.putHappiness 80 servedZone)
  /\ at2 (@HappinessManager.updateAllZoneHappiness zeroStats
            [[Zone.new 0 0 None; servedZone]] 2 1) 0 0
     = Some (Zone.putHappiness 50 (Zone.new 0 0 None)).
Proof.
  assert (Hfree : buildingFree [[Zone.new 0 0 None; servedZone]])
    by (repeat constructor).
  assert (Hrows : rowsCover [[Zone.new 0 0 None; servedZone]] 1)
    by (unfold rowsCover; simpl; lia).
  split.
  - apply (@happiness_pass_without_buildings zeroStats _ 2 1 Hfree Hrows 1 0).
  - apply (@happiness_pass_without_buildings zeroStats _ 2 1 Hfree Hrows 0 0).
Defined.

(** ** What the growth pass keeps *)

Lemma grownFrom_refl z : grownFrom z z.
Proof. by repeat split. Qed.

Lemma grownFrom_trans z1 z2 z3 :
  grownFrom z1 z2 -> grownFrom z2 z3 -> grownFrom z1 z3.
Proof.
  intros (? & ? & ? & ? & ? & ? & Hid & ? & ? & Hb & Hk)
         (? & ? & ? & ? & ? & ? & ? & ? & ? & Hb' & Hk').
  repeat split; try congruence; auto.
  intros Hblock Hnone. apply Hk'; [| by apply Hk].
  unfold Zone.isBlockZone in *. by rewrite Hid.
Qed.

Lemma grownFrom_setBuilding b z :
  Zone.isBlockZone z = false \/ is_Some (Zone.building z) ->
  grownFrom z (Zone.setBuilding (Some b) z).
Proof.
  intros Hz. repeat split; try done. simpl. intros Hblock Hnone.
  destruct Hz as [Hz | [b0 Hz]]; congruence.
Qed.

Lemma zonewise_refl (P : Zone.t -> Zone.t -> Prop) zs :
  (forall z, P z z) -> zonewise P zs zs.
Proof.
  intros HP. apply Forall_Forall2_diag, Forall_forall. intros row _.
  by apply Forall_Forall2_diag, Forall_forall.
Qed.

Lemma zonewise_alter2_at (P : Zone.t -> Zone.t -> Prop) f x y zs k :
  zonewise P zs k ->
  (forall a v, at2 k x y = Some v -> P a v -> P a (f v)) ->
  zonewise P zs (alter2 f x y k).
Proof.
  intros Hzk Hf. unfold alter2.
  destruct ((x <? 0) || (y <? 0)) eqn:Hneg; [done |].
  apply Forall2_alter_r; [done |].
  intros row row' _ Hrow' Hrows. apply Forall2_alter_r; [done |].
  intros a v _ Hv. apply Hf. unfold at2. rewrite Hneg, Hrow'. done.
Qed.

Lemma Zone_createBuilding_grownFrom i z w :
  Zone.isBlockZone z = false ->
  grownFrom z (snd (fst (Zone.createBuilding i z w))).
Proof.
  intros Hblock. unfold Zone.createBuilding.
  destruct (Zone.building z) eqn:Hb.
  - munfold. apply grownFrom_refl.
  - munfold. destruct (Zone.shouldCreateBuilding z w) as [[] w']; simpl.
    + apply grownFrom_setBuilding. by left.
    + apply grownFrom_refl.
Qed.

Lemma Zone_upgradeBuilding_grownFrom z w :
  grownFrom z (snd (fst (Zone.upgradeBuilding z w))).
Proof.
  unfold Zone.upgradeBuilding. destruct (Zone.building z) eqn:Hb.
  - munfold. destruct (Zone.shouldUpgradeBuilding z w) as [[] w']; simpl.
    + destruct (Building.upgrade t) as [changed b']. simpl.
      apply grownFrom_setBuilding. right. by eexists.
    + apply grownFrom_refl.
  - munfold. apply grownFrom_refl.
Qed.

Lemma growSingleCell_grownFrom z w :
  Zone.isBlockZone z = false ->
  grownFrom z (fst (City.growSingleCell z w)).
Proof.
  intros Hblock. unfold City.growSingleCell. munfold.
  destruct (City.canZoneGrow z w) as [[] w1]; [| apply grownFrom_refl].
  unfold Date_now, Math_random. cbn beta iota.
  match goal with
  | |- context [Zone.createBuilding ?i z ?w0] =>
      pose proof (Zone_createBuilding_grownFrom i z w0 Hblock) as Hg;
      destruct (Zone.createBuilding i z w0) as [[o z'] w2]
  end.
  exact Hg.
Qed.

Lemma upgradeCell_grownFrom z w :
  grownFrom z (fst (City.upgradeCell z w)).
Proof.
  unfold City.upgradeCell. munfold.
  destruct (City.canBuildingUpgrade z w) as [[] w1]; [| apply grownFrom_refl].
  pose proof (Zone_upgradeBuilding_grownFrom z w1) as Hg.
  destruct (Zone.upgradeBuilding z w1) as [[o z'] w2]. exact Hg.
Qed.

(** [createBlockBuilding] never builds: where it returns, it returns null
    and has left the city as it was. *)
Lemma createBlockBuilding_returns x y ty c w r w' :
  City.createBlockBuilding x y ty c w = (Some r, w') ->
  r = (None, c) /\ w' = w.
Proof.
  unfold City.createBlockBuilding.
  destruct (City.getZone x y c) as [zone |];
    [| munfold; by intros [= <- <-]].
  destruct (negb (Zone.isBlockZone zone)); [munfold; by intros [= <- <-] |].
  destruct (Zone.getBlockZoneX zone) as [bx |];
    [| munfold; by intros [= <- <-]].
  destruct (Zone.getBlockZoneY zone) as [by_ |];
    [| munfold; by intros [= <- <-]].
  destruct (City.scanBlock c _ _ _); [| munfold; by intros [= <- <-]].
  munfold. unfold Date_now. cbn beta iota. by destruct ty.
Qed.

Lemma growCell_grownFrom c p w c' :
  fst (City.growCell c p w) = Some c' ->
  zonewise grownFrom (City.zones c) (City.zones c')
  /\ City.gridWidth c' = City.gridWidth c
  /\ City.gridHeight c' = City.gridHeight c.
Proof.
  assert (Hsame : zonewise grownFrom (City.zones c) (City.zones c))
    by (apply zonewise_refl, grownFrom_refl).
  destruct p as [x y]. unfold City.growCell.
  destruct (at2 (City.zones c) x y) as [zone |] eqn:Hz;
    [| munfold; by intros [= <-]].
  unfold Zone.getType.
  destruct (Zone.getBuilding zone) eqn:Hb.
  - munfold. pose proof (upgradeCell_grownFrom zone w) as Hg.
    destruct (City.upgradeCell zone w) as [zone' w']. simpl in *.
    intros [= <-]. split; [| done]. apply zonewise_alter2_at; [done |].
    intros a v Hv Hav. rewrite Hz in Hv. injection Hv as <-.
    by eapply grownFrom_trans.
  - destruct (Zone.isBlockZone zone) eqn:Hblock.
    + destruct (_ && _); [| munfold; by intros [= <-]]. munfold.
      destruct (City.canBlockZoneGrow zone c w) as [[] w1];
        [| by intros [= <-]].
      destruct (City.createBlockBuilding x y (Zone.type zone) c w1)
        as [[r |] w2] eqn:Hcreate; [| done].
      apply createBlockBuilding_returns in Hcreate as [-> _].
      by intros [= <-].
    + munfold. pose proof (growSingleCell_grownFrom zone w Hblock) as Hg.
      destruct (City.growSingleCell zone w) as [zone' w']. simpl in *.
      intros [= <-]. split; [| done]. apply zonewise_alter2_at; [done |].
      intros a v Hv Hav. rewrite Hz in Hv. injection Hv as <-.
      by eapply grownFrom_trans.
Qed.

Lemma zonewise_grownFrom_trans zs1 zs2 zs3 :
  zonewise grownFrom zs1 zs2 -> zonewise grownFrom zs2 zs3 ->
  zonewise grownFrom zs1 zs3.
Proof.
  intros H12 H23. eapply Forall2_trans; [| exact H12 | exact H23].
  intros r1 r2 r3 Ha Hb. eapply Forall2_trans; [| exact Ha | exact Hb].
  apply grownFrom_trans.
Qed.

Lemma simulateBuildingGrowth_grownFrom c w c' :
  fst (City.simulateBuildingGrowth c w) = Some c' ->
  zonewise grownFrom (City.zones c) (City.zones c')
  /\ City.gridWidth c' = City.gridWidth c
  /\ City.gridHeight c' = City.gridHeight c.
Proof.
  unfold City.simulateBuildingGrowth.
  generalize (coords (City.gridWidth c) (City.gridHeight c)). intros l.
  revert c w. induction l as [| p l IH]; intros c w; simpl.
  - intros [= <-]. split; [| done]. apply zonewise_refl, grownFrom_refl.
  - munfold. pose proof (growCell_grownFrom c p w) as Hstep.
    destruct (City.growCell c p w) as [[c1 |] w1]; [| done]. simpl in Hstep.
    destruct (Hstep c1 eq_refl) as (Hz & Hw & Hh).
    intros Hrest. destruct (IH c1 w1 Hrest) as (Hz' & Hw' & Hh').
    split; [by eapply zonewise_grownFrom_trans |]. split; congruence.
Qed.

Lemma zonewise_at2 (P : Zone.t -> Zone.t -> Prop) zs zs' x y z :
  zonewise P zs zs' -> at2 zs x y = Some z ->
  exists z', at2 zs' x y = Some z' /\ P z z'.
Proof.
  intros Hzs Hz. unfold at2 in *.
  destruct ((x <? 0) || (y <? 0)); [done |].
  destruct (zs !! Z.to_nat y) as [row |] eqn:Hrow; simpl in Hz; [| done].
  destruct (Forall2_lookup_l _ _ _ _ _ Hzs Hrow) as (row' & -> & Hrows).
  simpl. destruct (Forall2_lookup_l _ _ _ _ _ Hrows Hz) as (z' & Hz' & HP).
  by exists z'.
Qed.

(** X11. On a city of [gridHeight] rows of [gridWidth] zones, where the
    growth pass returns, it has touched nothing but buildings: every zone
    is found at its place afterwards with its coordinates, type, flags,
    happiness, pollution and block data unchanged; a zone that held a
    building still holds one; a zone that is part of a block and held no
    building still holds none, because the pass ends in the
    ReferenceError of [createBlockBuilding] where it would build on a
    block; and the dimensions of the city stay. *)
Theorem simulateBuildingGrowth_keeps c w c' x y z :
  shaped c ->
  fst (City.simulateBuildingGrowth c w) = Some c' ->
  at2 (City.zones c) x y = Some z ->
  (exists z', at2 (City.zones c') x y = Some z' /\ grownFrom z z')
  /\ City.gridWidth c' = City.gridWidth c
  /\ City.gridHeight c' = City.gridHeight c.
Proof.
  intros _ Hrun Hz.
  destruct (simulateBuildingGrowth_grownFrom c w c' Hrun) as (Hzs & Hw & Hh).
  split; [| by split]. by eapply zonewise_at2.
Qed.

Lemma simulateBuildingGrowth_keeps_witness :
  exists z',
    at2 (City.zones (singleZoneCity grownZone)) 0 0 = Some z'
    /\ grownFrom (Zone.putHappiness 80 servedZone) z'.
Proof.
  apply (simulateBuildingGrowth_keeps
           (singleZoneCity (Zone.putHappiness 80 servedZone))
           (mkWorld (fun _ => 0.5%R) 1 0 SUNNY 4)
           (singleZoneCity grownZone) 0 0
           (Zone.putHappiness 80 servedZone)).
  - split; [reflexivity | repeat constructor].
  - by rewrite growth_of_servedZone.
  - reflexivity.
Defined.

(** ** The passes of the engine on the city's snapshot *)

Lemma length_imap' {A B} (f : nat -> A -> B) l : length (imap f l) = length l.
Proof. revert f. induction l as [| a l IH]; intros f; simpl; [done |]. by rewrite IH. Qed.

Lemma fromGridFormat_shaped grid c : shaped (City.fromGridFormat grid c).
Proof.
  unfold shaped, City.fromGridFormat, City.setZones, City.initializeZones.
  simpl. split.
  - by rewrite length_imap', length_map, length_seq.
  - apply Forall_forall. intros row Hrow.
    apply list_elem_of_lookup in Hrow as [i Hi].
    rewrite list_lookup_imap in Hi.
    apply fmap_Some in Hi as (row0 & Hrow0 & ->).
    rewrite length_imap'. rewrite list_lookup_fmap in Hrow0.
    apply fmap_Some in Hrow0 as (j & _ & ->).
    by rewrite length_map, length_seq.
Qed.

Lemma shaped_at2 c x y :
  shaped c -> 0 <= x < City.gridWidth c -> 0 <= y < City.gridHeight c ->
  is_Some (at2 (City.zones c) x y).
Proof.
  intros [Hlen Hrows] Hx Hy. unfold at2.
  replace ((x <? 0) || (y <? 0)) with false
    by (symmetry; apply orb_false_iff; split; apply Z.ltb_ge; lia).
  destruct (City.zones c !! Z.to_nat y) as [row |] eqn:Hrow.
  - simpl. apply lookup_lt_is_Some. rewrite Forall_lookup in Hrows.
    rewrite (Hrows _ _ Hrow). lia.
  - apply lookup_ge_None in Hrow. lia.
Qed.

Lemma length_omap_total {A B} (f : A -> option B) l :
  (forall a, a ∈ l -> is_Some (f a)) -> length (omap f l) = length l.
Proof.
  induction l as [| a l IH]; intros Hf; simpl; [done |].
  destruct (Hf a) as [b ->]; [apply list_elem_of_here |]. simpl.
  f_equal. apply IH. intros a' Ha'. apply Hf. by apply list_elem_of_further.
Qed.

Lemma toGridFormat_rows c :
  shaped c ->
  length (City.toGridFormat c) = Z.to_nat (City.gridHeight c)
  /\ Forall (fun row => length row = Z.to_nat (City.gridWidth c))
       (City.toGridFormat c).
Proof.
  intros Hs. unfold City.toGridFormat. split.
  - by rewrite length_map, length_seq.
  - apply Forall_map, Forall_forall. intros y Hy. apply elem_of_seq in Hy.
    rewrite length_omap_total; [by rewrite length_seq |].
    intros x Hx. apply elem_of_seq in Hx.
    destruct (shaped_at2 c (Z.of_nat x) (Z.of_nat y) Hs) as [z ->];
      [lia | lia |]. by eexists.
Qed.

Lemma rectangular_of_rows {A} (grid : list (list A)) n :
  Forall (fun row => length row = n) grid -> rectangular grid.
Proof.
  intros Hrows. unfold rectangular. destruct grid as [| row0 grid]; [done |].
  simpl. apply Forall_cons in Hrows as Hr. destruct Hr as [Hr0 _].
  eapply Forall_impl; [exact Hrows |]. intros row Hrow. simpl in *. congruence.
Qed.

Lemma cellwise_rectangular (P : GridCell -> GridCell -> Prop) g k :
  cellwise P g k -> rectangular g -> rectangular k.
Proof.
  intros Hgk Hrect. unfold cellwise in Hgk.
  destruct Hgk as [| row0 row0' g k Hrow0 Hgk]; [done |].
  unfold rectangular in *. simpl in *.
  apply Forall_cons in Hrect as [_ Hrect].
  apply Forall_cons. split; [done |].
  apply Forall2_length in Hrow0.
  induction Hgk as [| r r' g k Hr Hgk IH]; [done |].
  apply Forall_cons in Hrect as [Hr0 Hrect].
  apply Forall_cons. split; [| by apply IH].
  apply Forall2_length in Hr. congruence.
Qed.

Lemma cellwise_at2 (P : GridCell -> GridCell -> Prop) g k x y a :
  cellwise P g k -> at2 g x y = Some a ->
  exists b, at2 k x y = Some b /\ P a b.
Proof.
  intros Hgk Ha. unfold at2 in *.
  destruct ((x <? 0) || (y <? 0)); [done |].
  destruct (g !! Z.to_nat y) as [row |] eqn:Hrow; simpl in Ha; [| done].
  destruct (Forall2_lookup_l _ _ _ _ _ Hgk Hrow) as (row' & -> & Hrows).
  simpl. destruct (Forall2_lookup_l _ _ _ _ _ Hrows Ha) as (b & Hb & HP).
  by exists b.
Qed.

Lemma elem_of_concat {A} (x : A) (ls : list (list A)) :
  x ∈ concat ls <-> exists l, x ∈ l /\ l ∈ ls.
Proof.
  rewrite list_elem_of_In, in_concat. split.
  - intros (l & Hl & Hx). exists l. by rewrite !list_elem_of_In.
  - intros (l & Hx & Hl). exists l. by rewrite <- !list_elem_of_In.
Qed.

Lemma elem_of_buildingCells grid x y cell :
  (x, y, cell) ∈ InfrastructureConnectivityManager.buildingCells grid ->
  at2 grid x y = Some cell /\ is_Some (cell_building cell).
Proof.
  unfold InfrastructureConnectivityManager.buildingCells.
  intros Hin. apply elem_of_concat in Hin as (l & Hin & Hl).
  apply list_elem_of_lookup in Hl as [j Hj].
  rewrite list_lookup_imap in Hj.
  apply fmap_Some in Hj as (row & Hrow & ->).
  apply list_elem_of_omap in Hin as ([i c] & Hic & Hpick).
  apply list_elem_of_lookup in Hic as [i' Hi'].
  rewrite list_lookup_imap in Hi'.
  apply fmap_Some in Hi' as (c' & Hc' & [= -> ->]).
  destruct (cell_building c') eqn:Hb; [| done]. injection Hpick as <- <- <-.
  split; [| by eexists].
  unfold at2.
  replace ((Z.of_nat i' <? 0) || (Z.of_nat j <? 0)) with false
    by (symmetry; apply orb_false_iff; split; apply Z.ltb_ge; lia).
  rewrite !Nat2Z.id, Hrow. done.
Qed.

Section Tick.
Context `{BuildingStats}.

Lemma getBuildingConnectivity_defined x y grid cell :
  rectangular grid -> at2 grid x y = Some cell ->
  is_Some (InfrastructureConnectivityManager.getBuildingConnectivity x y grid).
Proof.
  intros Hrect Hcell.
  unfold InfrastructureConnectivityManager.getBuildingConnectivity,
    InfrastructureConnectivityManager.hasRoadConnectivity,
    InfrastructureConnectivityManager.hasPowerConnectivity,
    InfrastructureConnectivityManager.hasWaterConnectivity,
    InfrastructureConnectivityManager.ROAD_CONNECTION_RANGE,
    InfrastructureConnectivityManager.POWER_CONNECTION_RANGE,
    InfrastructureConnectivityManager.WATER_CONNECTION_RANGE.
  destruct (hasConnectivity_spec road 1 x y grid cell) as (r & -> & _);
    [lia | done | done |].
  destruct (hasConnectivity_spec power 8 x y grid cell) as (p & -> & _);
    [lia | done | done |].
  destruct (hasConnectivity_spec water 6 x y grid cell) as (w & -> & _);
    [lia | done | done |].
  simpl. rewrite Hcell. simpl.
  destruct (cell_building cell); [by eexists |].
  destruct (decide _); [by eexists |]. destruct (decide _); by eexists.
Qed.

Lemma updateGridConnectivity_defined grid :
  rectangular grid ->
  is_Some (InfrastructureConnectivityManager.updateGridConnectivity grid).
Proof.
  intros Hrect.
  unfold InfrastructureConnectivityManager.updateGridConnectivity.
  assert (Hcells : forall x y cell,
            (x, y, cell) ∈ InfrastructureConnectivityManager.buildingCells grid ->
            at2 grid x y = Some cell)
    by (intros x y cell Hin; by apply elem_of_buildingCells in Hin as [? _]).
  revert Hcells.
  generalize (InfrastructureConnectivityManager.buildingCells grid).
  intros cells.
  assert (Hstart : exists k, Some grid = Some k /\ cellwise sameBuilding grid k)
    by (exists grid; split; [done | by apply cellwise_refl]).
  revert Hstart. generalize (Some grid).
  induction cells as [| [[x y] cell] rest IH];
    intros acc (k & -> & Hk) Hcells; simpl; [by eexists |].
  apply IH.
  - destruct (cellwise_at2 _ _ _ x y cell Hk) as (b & Hb & _);
      [apply Hcells, list_elem_of_here |].
    destruct (getBuildingConnectivity_defined x y k b) as [conn ->];
      [by eapply cellwise_rectangular | done |].
    simpl. eexists. split; [done |].
    apply cellwise_alter2; [by intros a b' | done].
  - intros x' y' cell' Hin. apply Hcells. by apply list_elem_of_further.
Qed.

Lemma getGridConnectivityStats_defined grid :
  rectangular grid -> is_Some (getGridConnectivityStats grid).
Proof.
  intros Hrect. unfold getGridConnectivityStats.
  assert (Hcells : forall x y cell,
            (x, y, cell) ∈ InfrastructureConnectivityManager.buildingCells grid ->
            at2 grid x y = Some cell)
    by (intros x y cell Hin; by apply elem_of_buildingCells in Hin as [? _]).
  revert Hcells.
  generalize (InfrastructureConnectivityManager.buildingCells grid).
  intros cells.
  assert (Hstart : is_Some (Some ConnectivityStats.zero)) by by eexists.
  revert Hstart. generalize (Some ConnectivityStats.zero).
  induction cells as [| [[x y] cell] rest IH];
    intros acc [t ->] Hcells; simpl.
  - by eexists.
  - apply IH.
    + destruct (getBuildingConnectivity_defined x y grid cell) as [conn ->];
        [done | apply Hcells, list_elem_of_here |].
      by eexists.
    + intros x' y' cell' Hin. apply Hcells. by apply list_elem_of_further.
Qed.

(** None of the unguarded reads of [grid[0]], of a cell or of a zone that
    the passes of a tick make can fail, because the grid the passes work
    on is the city's own rectangular snapshot and not the grid given: the
    engine's tick returns if the city's does. *)
Lemma SimulationEngine_simulate_defined grid c w :
  is_Some (fst (City.simulate (City.fromGridFormat grid c) w)) ->
  is_Some (fst (SimulationEngine.simulate (Some grid) c w)).
Proof.
  unfold SimulationEngine.simulate.
  set (c0 := City.fromGridFormat grid c).
  assert (Hrect : rectangular (City.toGridFormat c0)).
  { eapply rectangular_of_rows.
    apply (toGridFormat_rows c0), fromGridFormat_shaped. }
  destruct (calculatePowerDistribution_defined _ Hrect) as [pg ->].
  assert (Hrect1 :
    rectangular (updateGridPowerStatus (City.toGridFormat c0) pg)).
  { eapply cellwise_rectangular;
      [apply updateGridPowerStatus_buildings | done]. }
  destruct (updateGridConnectivity_defined _ Hrect1) as [g Hg]. rewrite Hg.
  munfold. destruct (City.simulate c0 w) as [[[u0 c'] |] w'];
    [| by intros [? ?]].
  intros _.
  assert (Hrect2 : rectangular (SimulationEngine.sharedBuildings g c')).
  { eapply cellwise_rectangular; [| exact Hrect1].
    eapply sharedBuildings_buildings.
    by eapply updateGridConnectivity_buildings. }
  destruct (getGridConnectivityStats_defined _ Hrect2) as [k ->].
  by eexists.
Qed.
End Tick.

(** ** Happiness over a tick *)

Lemma average_in_range (l : list Zone.t) :
  Forall happinessInRange l ->
  let total := fold_left (fun total zone => (total + Zone.getHappiness zone)%R) l 0%R in
  (0 <= total <= 100 * INR (length l))%R.
Proof.
  intros Hl. cbv zeta.
  assert (Hgen : forall a,
            (a <= fold_left (fun total zone => total + Zone.getHappiness zone) l a
             <= a + 100 * INR (length l))%R).
  { induction Hl as [| z l Hz _ IH]; intros a.
    - simpl. lra.
    - cbn [fold_left]. specialize (IH (a + Zone.getHappiness z)%R).
      rewrite length_cons, S_INR. unfold happinessInRange, Zone.getHappiness in *.
      lra. }
  specialize (Hgen 0%R). lra.
Qed.

Lemma loadCell_happiness cell zone :
  happinessInRange (City.loadCell cell zone).
Proof.
  unfold City.loadCell, happinessInRange. cbv zeta.
  destruct (isBlockZone cell); simpl; apply Rmax_Rmin_bounds; lra.
Qed.

Lemma fromGridFormat_happiness grid c :
  Forall (Forall happinessInRange) (City.zones (City.fromGridFormat grid c)).
Proof.
  unfold City.fromGridFormat, City.setZones, City.initializeZones. simpl.
  apply Forall_forall. intros row Hrow.
  apply list_elem_of_lookup in Hrow as [j Hj].
  rewrite list_lookup_imap in Hj.
  apply fmap_Some in Hj as (row0 & Hrow0 & ->).
  apply Forall_forall. intros z Hz.
  apply list_elem_of_lookup in Hz as [i Hi].
  rewrite list_lookup_imap in Hi.
  apply fmap_Some in Hi as (z0 & Hz0 & ->).
  destruct (grid !! j ≫= _) as [cell |]; [apply loadCell_happiness |].
  rewrite list_lookup_fmap in Hrow0.
  apply fmap_Some in Hrow0 as (j' & _ & ->).
  rewrite list_lookup_fmap in Hz0.
  apply fmap_Some in Hz0 as (i' & _ & ->).
  unfold happinessInRange. simpl. lra.
Qed.

Lemma Forall_zonewise (P : Zone.t -> Prop) (R : Zone.t -> Zone.t -> Prop)
    zs zs' :
  (forall z z', R z z' -> P z -> P z') ->
  zonewise R zs zs' -> Forall (Forall P) zs -> Forall (Forall P) zs'.
Proof.
  intros HR Hzs. induction Hzs as [| r r' zs zs' Hr _ IH]; [done |].
  intros Hall. apply Forall_cons in Hall as [Hrow Hall].
  apply Forall_cons. split; [| by apply IH].
  clear IH Hall. induction Hr as [| z z' r r' Hz _ IH]; [done |].
  apply Forall_cons in Hrow as [Hz0 Hrow].
  apply Forall_cons. split; [by eapply HR | by apply IH].
Qed.

Lemma zonewise_shaped (R : Zone.t -> Zone.t -> Prop) c c' :
  zonewise R (City.zones c) (City.zones c') ->
  City.gridWidth c' = City.gridWidth c ->
  City.gridHeight c' = City.gridHeight c ->
  shaped c -> shaped c'.
Proof.
  intros Hzs Hw Hh [Hlen Hrows]. unfold shaped. rewrite Hw, Hh.
  split; [by rewrite <- (Forall2_length _ _ _ Hzs) |].
  clear Hlen. induction Hzs as [| r r' zs zs' Hr _ IH]; [done |].
  apply Forall_cons in Hrows as [Hr0 Hrows].
  apply Forall_cons. split; [| by apply IH].
  by rewrite <- (Forall2_length _ _ _ Hr).
Qed.

Lemma zonedCells_in_range c :
  Forall (Forall happinessInRange) (City.zones c) ->
  Forall happinessInRange (City.zonedCells c).
Proof.
  intros Hall. unfold City.zonedCells. apply Forall_forall. intros z Hz.
  apply list_elem_of_omap in Hz as ([x y] & _ & Hz).
  destruct (at2 (City.zones c) x y) as [z0 |] eqn:Hz0; [| done].
  simpl in Hz. injection Hz as <-.
  by eapply (at2_Forall happinessInRange).
Qed.

Lemma calculateAverageHappiness_in_range c :
  Forall (Forall happinessInRange) (City.zones c) ->
  (0 <= City.calculateAverageHappiness c <= 100)%R.
Proof.
  intros Hall. unfold City.calculateAverageHappiness. cbv zeta.
  pose proof (average_in_range _ (zonedCells_in_range c Hall)) as Hsum.
  cbv zeta in Hsum.
  destruct (0 <? Z.of_nat (length (City.zonedCells c))) eqn:Hn; [| lra].
  apply Z.ltb_lt in Hn. rewrite <- INR_IZR_INZ.
  assert (Hpos : (0 < INR (length (City.zonedCells c)))%R)
    by (apply lt_0_INR; lia).
  split.
  - apply Rmult_le_reg_r with (r := INR (length (City.zonedCells c))); [done |].
    unfold Rdiv. rewrite Rmult_assoc, Rinv_l by lra. lra.
  - apply Rmult_le_reg_r with (r := INR (length (City.zonedCells c))); [done |].
    unfold Rdiv. rewrite Rmult_assoc, Rinv_l by lra. lra.
Qed.

Section TickFigures.
Context `{BuildingStats}.

Lemma applyWeatherEffects_keeps zones w :
  zonewise (fun z z' => Zone.happiness z' = Zone.happiness z)
    zones (fst (WeatherManager.applyWeatherEffects zones w)).
Proof.
  unfold WeatherManager.applyWeatherEffects. munfold. simpl.
  apply Forall2_fmap_r, Forall_Forall2_diag, Forall_forall. intros row _.
  apply Forall2_fmap_r, Forall_Forall2_diag, Forall_forall. by intros z _.
Qed.

Lemma updateAllZoneHappiness_shape zones w h :
  zonewise (fun _ _ => True) zones
    (HappinessManager.updateAllZoneHappiness zones w h).
Proof.
  unfold HappinessManager.updateAllZoneHappiness.
  assert (Hstart : zonewise (fun _ _ => True) zones zones)
    by (by apply zonewise_refl).
  revert Hstart. generalize zones at 2 4. generalize (coords w h).
  induction l as [| [x y] l IH]; intros zs Hzs; simpl; [done |].
  apply IH. unfold HappinessManager.updateZoneHappinessAt.
  destruct (at2 zs x y) as [zone |]; [| done]. cbn.
  by apply zonewise_alter2_at.
Qed.

(** X13. Whatever grid is loaded, a tick that returns a record (one
    whose growth pass does not end in its ReferenceError) leaves every
    zone of the city with a happiness in [0,100] and reports an average
    happiness in [0,100]; the city keeps its dimensions and its shape of
    [gridHeight] rows of [gridWidth] zones. *)
Theorem tick_keeps_happiness_in_range grid c w u c' w' :
  SimulationEngine.simulate (Some grid) c w = (Some (u, c'), w') ->
  (0 <= update_happiness u <= 100)%R
  /\ Forall (Forall happinessInRange) (City.zones c')
  /\ shaped c'
  /\ City.gridWidth c' = City.gridWidth c
  /\ City.gridHeight c' = City.gridHeight c.
Proof.
  intros Hsim.
  destruct (simulate_inv _ _ _ _ _ _ Hsim)
    as (pg & snapshot & k & u0 & _ & _ & Hcity & _ & ->).
  clear Hsim. set (c0 := City.fromGridFormat grid c) in *.
  rewrite City_simulate_passes in Hcity. cbv zeta in Hcity.
  set (w1 := snd (WeatherManager.updateWeather w)) in *.
  set (r := WeatherManager.applyWeatherEffects (City.zones c0) w1) in *.
  set (zones2 := HappinessManager.updateAllZoneHappiness (fst r)
                   (City.gridWidth c0) (City.gridHeight c0)) in *.
  set (g := City.simulateBuildingGrowth (City.setZones zones2 c0) (snd r))
    in *.
  injection Hcity as Hgrown Hw'.
  destruct (fst g) as [c1 |] eqn:Hg; [| done].
  injection Hgrown as <- <-.
  pose proof (applyWeatherEffects_keeps (City.zones c0) w1) as Hweather.
  fold r in Hweather.
  pose proof (simulateBuildingGrowth_grownFrom (City.setZones zones2 c0)
                (snd r) c1 Hg) as (Hgrow & Hw & Hh).
  assert (Hrange2 : Forall (Forall happinessInRange) zones2).
  { apply updateAllZoneHappiness_bounds.
    eapply Forall_zonewise; [| exact Hweather | apply fromGridFormat_happiness].
    intros z z' Heq. unfold happinessInRange. by rewrite Heq. }
  assert (Hrange : Forall (Forall happinessInRange) (City.zones c1)).
  { eapply Forall_zonewise; [| exact Hgrow | exact Hrange2].
    intros z z' (_ & _ & _ & _ & Heq & _). unfold happinessInRange.
    by rewrite Heq. }
  split; [by apply calculateAverageHappiness_in_range |].
  split; [done |].
  assert (Hshape0 : shaped c0) by apply fromGridFormat_shaped.
  assert (Hshape2 : shaped (City.setZones zones2 c0)).
  { eapply (zonewise_shaped (fun _ _ => True) c0); try done.
    eapply Forall2_trans; [| exact Hweather |
                            apply updateAllZoneHappiness_shape].
    intros r1 r2 r3 Ha Hb.
    eapply Forall2_trans; [| exact Ha | exact Hb]. done. }
  split; [by eapply (zonewise_shaped grownFrom (City.setZones zones2 c0)) |].
  by rewrite Hw, Hh.
Qed.
End TickFigures.

Lemma tick_keeps_happiness_in_range_witness :
  exists u w',
    @SimulationEngine.simulate zeroStats (Some [[servedCell]]) (City.new 1 1)
      calmWorld
    = (Some (u, singleZoneCity grownZone), w')
    /\ (0 <= update_happiness u <= 100)%R.
Proof.
  destruct (@tick_spawns_unpowered_house zeroStats)
    as (u & w' & Hsim & _).
  exists u, w'. split; [exact Hsim |].
  apply (@tick_keeps_happiness_in_range zeroStats _ _ _ _ _ _ Hsim).
Defined.

(** ** The nearest power source *)

Lemma findNearestPowerSource_squares n sources :
  match findNearestPowerSource n sources with
  | Some s =>
      s ∈ sources /\ nodeDistanceSq n s <= 64
      /\ forall s', s' ∈ sources -> nodeDistanceSq n s <= nodeDistanceSq n s'
  | None => forall s', s' ∈ sources -> 64 < nodeDistanceSq n s'
  end.
Proof.
  unfold findNearestPowerSource.
  match goal with
  | |- context [fold_left ?g sources _] => set (f := g)
  end.
  set (I := fun (acc : option PowerNode * option Z) (seen : list PowerNode) =>
              match acc with
              | (Some b, Some m) =>
                  m = nodeDistanceSq n b /\ b ∈ seen /\ m <= 64
                  /\ forall s', s' ∈ seen -> m <= nodeDistanceSq n s'
              | (None, None) =>
                  forall s', s' ∈ seen -> 64 < nodeDistanceSq n s'
              | _ => False
              end).
  assert (Hgen : forall l seen acc,
            I acc seen -> I (fold_left f l acc) (seen ++ l)).
  { induction l as [| s l IH]; intros seen acc Hacc; simpl.
    - by rewrite app_nil_r.
    - replace (seen ++ s :: l) with ((seen ++ [s]) ++ l)
        by (by rewrite <- app_assoc).
      apply IH. clear IH. subst f I. cbn beta iota.
      destruct acc as [[b |] [m |]]; try done; cbn beta iota zeta;
        fold (nodeDistanceSq n s);
        change (POWER_TRANSMISSION_RANGE * POWER_TRANSMISSION_RANGE) with 64.
      + destruct Hacc as (-> & Hb & Hm & Hmin).
        destruct (Z.ltb_spec (nodeDistanceSq n s) (nodeDistanceSq n b));
          destruct (Z.leb_spec (nodeDistanceSq n s) 64); simpl.
        * split; [done |]. split; [apply elem_of_app; right;
                                   apply list_elem_of_here |].
          split; [done |]. intros s' Hs'.
          apply elem_of_app in Hs' as [Hs' | Hs'].
          -- specialize (Hmin _ Hs'). lia.
          -- apply list_elem_of_singleton in Hs' as ->. lia.
        * lia.
        * split; [done |]. split; [apply elem_of_app; by left |].
          split; [done |]. intros s' Hs'.
          apply elem_of_app in Hs' as [Hs' | Hs'].
          -- by apply Hmin.
          -- apply list_elem_of_singleton in Hs' as ->. lia.
        * split; [done |]. split; [apply elem_of_app; by left |].
          split; [done |]. intros s' Hs'.
          apply elem_of_app in Hs' as [Hs' | Hs'].
          -- by apply Hmin.
          -- apply list_elem_of_singleton in Hs' as ->. lia.
      + destruct (Z.leb_spec (nodeDistanceSq n s) 64); simpl.
        * split; [done |]. split; [apply elem_of_app; right;
                                   apply list_elem_of_here |].
          split; [done |]. intros s' Hs'.
          apply elem_of_app in Hs' as [Hs' | Hs'].
          -- specialize (Hacc _ Hs'). lia.
          -- apply list_elem_of_singleton in Hs' as ->. lia.
        * intros s' Hs'. apply elem_of_app in Hs' as [Hs' | Hs'].
          -- by apply Hacc.
          -- apply list_elem_of_singleton in Hs' as ->. lia. }
  specialize (Hgen sources [] (None, None)). simpl in Hgen.
  assert (Hstart : I (None, None) []).
  { intros s' Hs'. by apply elem_of_nil in Hs'. }
  specialize (Hgen Hstart). subst I. cbn beta in Hgen.
  destruct (fold_left f sources (None, None)) as [[b |] [m |]]; try done.
  simpl. destruct Hgen as (-> & Hb & Hm & Hmin). done.
Qed.

Lemma nodeDistance_le n s s' :
  nodeDistanceSq n s <= nodeDistanceSq n s' ->
  (nodeDistance n s <= nodeDistance n s')%R.
Proof.
  intros Hle. unfold nodeDistance, calculateDistance.
  apply sqrt_le_1_alt, IZR_le. exact Hle.
Qed.

Lemma nodeDistance_range n s :
  nodeDistanceSq n s <= 64 <-> (nodeDistance n s <= 8)%R.
Proof.
  unfold nodeDistanceSq, nodeDistance.
  rewrite <- (distanceWithin_sqrt _ _ _ _ 8) by lia.
  unfold distanceWithin. by rewrite Z.leb_le.
Qed.

Lemma findNearestPowerSource_reals n sources :
  match findNearestPowerSource n sources with
  | Some s =>
      s ∈ sources /\ (nodeDistance n s <= 8)%R
      /\ forall s', s' ∈ sources -> (nodeDistance n s <= nodeDistance n s')%R
  | None => forall s', s' ∈ sources -> (8 < nodeDistance n s')%R
  end.
Proof.
  pose proof (findNearestPowerSource_squares n sources) as Hsq.
  destruct (findNearestPowerSource n sources) as [s |].
  - destruct Hsq as (Hin & Hrange & Hmin).
    split; [done |]. split; [by apply nodeDistance_range |].
    intros s' Hs'. by apply nodeDistance_le, Hmin.
  - intros s' Hs'. specialize (Hsq _ Hs').
    apply Rnot_le_lt. intros Hle. apply nodeDistance_range in Hle. lia.
Qed.

(** X14. [findNearestPowerSource] returns a source of the list that is
    within distance 8 of the consumer and at least as near as every other
    source of the list; it returns null exactly when every source of the
    list is farther than 8 away, in particular on an empty list. *)
Theorem findNearestPowerSource_nearest n sources :
  (forall s,
     findNearestPowerSource n sources = Some s ->
     s ∈ sources /\ (nodeDistance n s <= 8)%R
     /\ forall s', s' ∈ sources -> (nodeDistance n s <= nodeDistance n s')%R)
  /\ (findNearestPowerSource n sources = None
      <-> forall s', s' ∈ sources -> (8 < nodeDistance n s')%R)
  /\ findNearestPowerSource n [] = None.
Proof.
  pose proof (findNearestPowerSource_reals n sources) as Hspec.
  split; [| split].
  - intros s Hs. by rewrite Hs in Hspec.
  - destruct (findNearestPowerSource n sources) as [s |].
    + destruct Hspec as (Hin & Hrange & _).
      split; [done |]. intros Hfar. specialize (Hfar s Hin). lra.
    + by split.
  - reflexivity.
Qed.

(** ** Power distribution without a plant *)

Lemma buildPowerNodes_noPowerPlant grid :
  noPowerPlant grid -> Forall unserved (buildPowerNodes grid).
Proof.
  intros Hno. unfold buildPowerNodes. apply Forall_concat, Forall_forall.
  intros l Hl. apply elem_of_lookup_imap_1 in Hl as (y & row & -> & Hrow).
  apply Forall_concat, Forall_forall.
  intros l Hl. apply elem_of_lookup_imap_1 in Hl as (x & cell & -> & Hcell).
  unfold noPowerPlant in Hno. rewrite Forall_lookup in Hno.
  specialize (Hno _ _ Hrow). rewrite Forall_lookup in Hno.
  specialize (Hno _ _ Hcell). unfold nodesOfCell.
  destruct (cell_building cell) as [b |]; [| done].
  rewrite (Hno b eq_refl). simpl.
  destruct (isPowerConsumer b); [| done]. by repeat constructor.
Qed.

Lemma connectConsumers_no_sources grid ns :
  connectConsumers [] grid ns = Some ([], ns).
Proof.
  induction ns as [| n ns IH]; simpl; [done |]. rewrite IH. simpl.
  by destruct (decide _).
Qed.

Lemma resetNode_unserved n : unserved n -> resetNode n = n.
Proof.
  intros (Ht & Hc & Hp). unfold resetNode. rewrite decide_True by done.
  destruct n. simpl in *. by subst.
Qed.

Lemma map_resetNode_unserved ns :
  Forall unserved ns -> map resetNode ns = ns.
Proof.
  induction 1 as [| n l Hn _ IH]; [done |]. cbn [map].
  by rewrite resetNode_unserved, IH.
Qed.

Lemma filter_nil_Forall {A} (P : A -> Prop) `{!forall x, Decision (P x)} l :
  Forall (fun x => ~ P x) l -> filter P l = [].
Proof.
  induction 1 as [| x l Hx _ IH]; [done |].
  rewrite filter_cons. by destruct (decide (P x)).
Qed.

Lemma filter_all_Forall {A} (P : A -> Prop) `{!forall x, Decision (P x)} l :
  Forall P l -> filter P l = l.
Proof.
  induction 1 as [| x l Hx _ IH]; [done |].
  rewrite filter_cons. destruct (decide (P x)); [by rewrite IH | done].
Qed.

(** X15. On a grid without a power plant the power distribution has the
    nodes as they were built, no connection, capacity 0, the summed demand
    of the buildings, efficiency 0, is not overloaded, and reports every
    node as a shortage area. *)
Theorem calculatePowerDistribution_without_plant grid :
  noPowerPlant grid ->
  exists pg,
    calculatePowerDistribution grid = Some pg
    /\ nodes pg = buildPowerNodes grid
    /\ connections pg = []
    /\ totalCapacity pg = 0
    /\ totalDemand pg = sumDemand (buildPowerNodes grid)
    /\ efficiency pg = 0%R
    /\ isPowerGridOverloaded pg = false
    /\ getPowerShortageAreas pg = buildPowerNodes grid.
Proof.
  intros Hno. pose proof (buildPowerNodes_noPowerPlant grid Hno) as Hun.
  unfold calculatePowerDistribution, buildPowerConnections.
  assert (Hsrc : filter (fun node => node_type node = source)
                   (buildPowerNodes grid) = []).
  { apply filter_nil_Forall. eapply Forall_impl; [exact Hun |].
    intros n (Ht & _). congruence. }
  rewrite Hsrc, connectConsumers_no_sources. simpl.
  assert (Hflow : simulatePowerFlow (buildPowerNodes grid) []
                  = buildPowerNodes grid).
  { unfold simulatePowerFlow. cbn [fold_left].
    by apply map_resetNode_unserved. }
  rewrite Hflow. eexists. split; [done |]. simpl.
  unfold sumCapacity. rewrite Hsrc. simpl.
  repeat (split; [done |]).
  split.
  - unfold isPowerGridOverloaded, Rgtb, POWER_OVERLOAD_THRESHOLD. simpl.
    apply Rltb_false. lra.
  - unfold getPowerShortageAreas. simpl. apply filter_all_Forall.
    eapply Forall_impl; [exact Hun |]. by intros n (? & ? & _).
Qed.

Lemma calculatePowerDistribution_without_plant_witness :
  exists pg,
    calculatePowerDistribution
      [[plainCell 0 0 [power] (Some (scenarioHouse 0 0))]] = Some pg
    /\ connections pg = []
    /\ length (getPowerShortageAreas pg) = 1%nat.
Proof.
  destruct (calculatePowerDistribution_without_plant
              [[plainCell 0 0 [power] (Some (scenarioHouse 0 0))]])
    as (pg & Hpg & _ & Hc & _ & _ & _ & _ & Hshort).
  - repeat constructor. simpl. by intros b [= <-].
  - exists pg. split; [done |]. split; [done |]. by rewrite Hshort.
Defined.

(** ** The connections of a power distribution *)

Lemma connectConsumers_connections sources grid ns cs ns' :
  connectConsumers sources grid ns = Some (cs, ns') ->
  Forall (fun conn =>
            exists n s,
              n ∈ ns /\ findNearestPowerSource n sources = Some s
              /\ canTransmitPower n s grid = Some true
              /\ connects n s conn) cs
  /\ (length cs <= length (filter (fun n => node_type n = consumer) ns))%nat.
Proof.
  revert cs ns'. induction ns as [| n ns IH]; intros cs ns'; simpl.
  { intros [= <- <-]. split; [done |]. simpl. lia. }
  assert (Hweak : forall cs0,
            Forall (fun conn =>
                      exists n0 s, n0 ∈ ns
                        /\ findNearestPowerSource n0 sources = Some s
                        /\ canTransmitPower n0 s grid = Some true
                        /\ connects n0 s conn) cs0 ->
            Forall (fun conn =>
                      exists n0 s, n0 ∈ n :: ns
                        /\ findNearestPowerSource n0 sources = Some s
                        /\ canTransmitPower n0 s grid = Some true
                        /\ connects n0 s conn) cs0).
  { intros cs0 Hcs0. eapply Forall_impl; [exact Hcs0 |].
    intros conn (n0 & s & Hin & Hs & Hc).
    exists n0, s. split; [by apply list_elem_of_further | done]. }
  rewrite filter_cons.
  destruct (decide (node_type n = consumer)) as [Hcons | Hcons].
  - destruct (findNearestPowerSource n sources) as [s |] eqn:Hnear.
    + destruct (canTransmitPower n s grid) as [ok |] eqn:Hok; [| done]. simpl.
      destruct (connectConsumers sources grid ns) as [[cs0 ns0] |]; [| done].
      destruct (IH _ _ eq_refl) as (Hcs0 & Hlen0). simpl.
      destruct ok; intros [= <- <-].
      * split; [| simpl; lia]. constructor; [| by apply Hweak].
        exists n, s. split; [apply list_elem_of_here |]. split; [done |].
        split; [done |]. by repeat split.
      * split; [by apply Hweak | simpl; lia].
    + destruct (connectConsumers sources grid ns) as [[cs0 ns0] |]; [| done].
      destruct (IH _ _ eq_refl) as (Hcs0 & Hlen0). simpl.
      intros [= <- <-]. split; [by apply Hweak | simpl; lia].
  - destruct (connectConsumers sources grid ns) as [[cs0 ns0] |]; [| done].
    destruct (IH _ _ eq_refl) as (Hcs0 & Hlen0). simpl.
    intros [= <- <-]. split; [by apply Hweak | lia].
Qed.

Lemma nodeDistance_nonneg n s : (0 <= nodeDistance n s)%R.
Proof. unfold nodeDistance, calculateDistance. apply sqrt_pos. Qed.

(** X16. Every connection [buildPowerConnections] makes goes from a power
    plant to a consumer for which that plant is a nearest one; its
    distance is between 0 and 8, its efficiency between 0.87 and 0.95 and
    its capacity between 0 and the consumer's demand; there are at most as
    many connections as consumers. *)
Theorem power_connections_within_range grid pg :
  calculatePowerDistribution grid = Some pg ->
  Forall (fun conn =>
            exists n s,
              n ∈ buildPowerNodes grid /\ s ∈ buildPowerNodes grid
              /\ node_type s = source /\ connects n s conn
              /\ (forall s', s' ∈ buildPowerNodes grid ->
                             node_type s' = source ->
                             (nodeDistance n s <= nodeDistance n s')%R)
              /\ (0 <= conn_distance conn <= 8)%R
              /\ (0.87 <= conn_efficiency conn <= 0.95)%R
              /\ 0 <= conn_capacity conn <= demand n)
         (connections pg)
  /\ (length (connections pg)
      <= length (filter (fun n => node_type n = consumer)
                        (buildPowerNodes grid)))%nat.
Proof.
  unfold calculatePowerDistribution, buildPowerConnections.
  destruct (connectConsumers _ grid (buildPowerNodes grid))
    as [[cs ns] |] eqn:Hconn; [| done].
  simpl. intros [= <-]. simpl.
  destruct (connectConsumers_connections _ _ _ _ _ Hconn) as [Hcs Hlen].
  split; [| done].
  eapply Forall_impl; [exact Hcs |].
  intros conn (n & s & Hn & Hnear & _ & Hc).
  pose proof (findNearestPowerSource_reals n
                (filter (fun node => node_type node = source)
                        (buildPowerNodes grid))) as Hspec.
  rewrite Hnear in Hspec. destruct Hspec as (Hs & Hrange & Hmin).
  apply list_elem_of_filter in Hs as [Hst Hs].
  pose proof (buildPowerNodes_ok grid) as Hok. rewrite Forall_forall in Hok.
  destruct (Hok _ Hn) as (_ & _ & Hdem). destruct (Hok _ Hs) as (_ & Hcap & _).
  exists n, s. split; [done |]. split; [done |]. split; [done |].
  split; [done |].
  split.
  { intros s' Hs' Hst'. apply Hmin. by apply list_elem_of_filter. }
  destruct Hc as (_ & _ & _ & Hccap & Hcd & Hce).
  pose proof (nodeDistance_nonneg n s) as Hpos.
  split; [rewrite Hcd; lra |].
  split.
  - rewrite Hce. unfold POWER_LINE_EFFICIENCY, Rmax.
    destruct (Rle_dec _ _); lra.
  - rewrite Hccap. lia.
Qed.

Lemma power_connections_within_range_witness :
  exists pg,
    calculatePowerDistribution
      [[plainCell 0 0 [power] (Some scenarioPlant);
        plainCell 1 0 [power] (Some (scenarioHouse 1 0))]] = Some pg
    /\ Forall (fun conn => (0 <= conn_distance conn <= 8)%R) (connections pg).
Proof.
  destruct (calculatePowerDistribution_defined
              [[plainCell 0 0 [power] (Some scenarioPlant);
                plainCell 1 0 [power] (Some (scenarioHouse 1 0))]])
    as [pg Hpg]; [repeat constructor |].
  exists pg. split; [done |].
  destruct (power_connections_within_range _ pg Hpg) as [Hall _].
  eapply Forall_impl; [exact Hall |].
  by intros conn (n & s & _ & _ & _ & _ & _ & Hd & _).
Defined.

Lemma roundedStep_first start d steps :
  0 < steps -> roundedStep start d 0 steps = start.
Proof.
  intros Hs. unfold roundedStep.
  replace (2 * (d * 0) + steps) with steps by lia.
  rewrite Z.div_small by lia. lia.
Qed.

Lemma roundedStep_last start d steps :
  0 < steps -> roundedStep start d steps steps = start + d.
Proof.
  intros Hs. unfold roundedStep. f_equal.
  symmetry. apply (Z.div_unique_pos _ _ d steps); lia.
Qed.

Lemma checkPowerLine_true grid points x y cell :
  rectangular grid ->
  checkPowerLine grid points = Some true ->
  (x, y) ∈ points -> at2 grid x y = Some cell ->
  hasInfrastructure (cell_infrastructure cell) power = true.
Proof.
  intros Hrect Hcheck Hin Hcell.
  destruct (at2_Some_inv _ _ _ _ Hcell) as (Hx & Hy & row & Hrow & Hcol).
  destruct (head grid) as [row0 |] eqn:Hhead;
    [| apply head_None in Hhead; subst grid; done].
  pose proof (rectangular_row grid row0 row _ Hrect Hhead Hrow) as Hlen.
  apply lookup_lt_Some in Hrow as Hylt. apply lookup_lt_Some in Hcol as Hxlt.
  induction points as [| [x0 y0] points IH]; [by apply elem_of_nil in Hin |].
  simpl in Hcheck. rewrite Hhead in Hcheck. simpl in Hcheck.
  apply elem_of_cons in Hin as [[= <- <-] | Hin].
  - replace (0 <=? x) with true in Hcheck by (symmetry; apply Z.leb_le; lia).
    replace (x <? Z.of_nat (length row0)) with true in Hcheck
      by (symmetry; apply Z.ltb_lt; lia).
    replace (0 <=? y) with true in Hcheck by (symmetry; apply Z.leb_le; lia).
    replace (y <? Z.of_nat (length grid)) with true in Hcheck
      by (symmetry; apply Z.ltb_lt; lia).
    simpl in Hcheck. rewrite Hcell in Hcheck. simpl in Hcheck.
    unfold hasInfrastructure.
    by destruct (includes (cell_infrastructure cell) power).
  - apply IH; [| done].
    destruct (0 <=? x0); [| done].
    destruct (_ && _); [| done].
    destruct (at2 grid x0 y0) as [c0 |]; [| done]. simpl in Hcheck.
    by destruct (negb _).
Qed.

Lemma hasPowerLinePath_endpoints sx sy ex ey grid :
  rectangular grid -> (sx, sy) <> (ex, ey) ->
  hasPowerLinePath sx sy ex ey grid = Some true ->
  (forall cell, at2 grid sx sy = Some cell ->
                hasInfrastructure (cell_infrastructure cell) power = true)
  /\ (forall cell, at2 grid ex ey = Some cell ->
                   hasInfrastructure (cell_infrastructure cell) power = true).
Proof.
  intros Hrect Hne. unfold hasPowerLinePath. cbv zeta.
  set (steps := Z.max (Z.abs (ex - sx)) (Z.abs (ey - sy))).
  assert (Hsteps : 0 < steps).
  { subst steps. destruct (decide (ex = sx)) as [-> | ?]; [| lia].
    assert (ey <> sy) by congruence. lia. }
  replace (steps =? 0) with false by (symmetry; apply Z.eqb_neq; lia).
  intros Hcheck. split; intros cell Hcell.
  - eapply (checkPowerLine_true grid _ sx sy); try done.
    apply list_elem_of_fmap. exists 0%nat. split.
    + by rewrite !roundedStep_first.
    + apply elem_of_seq. lia.
  - eapply (checkPowerLine_true grid _ ex ey); try done.
    apply list_elem_of_fmap. exists (Z.to_nat steps). split.
    + rewrite Z2Nat.id by lia. rewrite !roundedStep_last by done.
      f_equal; lia.
    + apply elem_of_seq. lia.
Qed.

Lemma elem_of_buildPowerNodes grid n :
  n ∈ buildPowerNodes grid ->
  exists cell b,
    at2 grid (node_x n) (node_y n) = Some cell
    /\ cell_building cell = Some b
    /\ ((node_type n = source /\ isPowerSource b = true)
        \/ (node_type n = consumer /\ isPowerConsumer b = true)).
Proof.
  unfold buildPowerNodes. intros Hin.
  apply elem_of_concat in Hin as (l & Hin & Hl).
  apply elem_of_lookup_imap_1 in Hl as (j & row & -> & Hrow).
  apply elem_of_concat in Hin as (l & Hin & Hl).
  apply elem_of_lookup_imap_1 in Hl as (i & cell & -> & Hcell).
  unfold nodesOfCell in Hin.
  destruct (cell_building cell) as [b |] eqn:Hb;
    [| by apply elem_of_nil in Hin].
  assert (Hat : at2 grid (Z.of_nat i) (Z.of_nat j) = Some cell).
  { unfold at2.
    replace ((Z.of_nat i <? 0) || (Z.of_nat j <? 0)) with false
      by (symmetry; apply orb_false_iff; split; apply Z.ltb_ge; lia).
    by rewrite !Nat2Z.id, Hrow. }
  exists cell, b. apply elem_of_app in Hin as [Hin | Hin].
  - destruct (isPowerSource b) eqn:Hs; [| by apply elem_of_nil in Hin].
    apply list_elem_of_singleton in Hin as ->. simpl. auto.
  - destruct (isPowerConsumer b) eqn:Hc; [| by apply elem_of_nil in Hin].
    apply list_elem_of_singleton in Hin as ->. simpl. auto.
Qed.

(** X17. A connection is only made along power lines: for every connection
    of the power distribution of a rectangular grid, the cell of the
    consumer and the cell of the power plant both carry the power flag. *)
Theorem connected_cells_carry_power grid pg :
  rectangular grid ->
  calculatePowerDistribution grid = Some pg ->
  Forall (fun conn =>
            exists n s cell_n cell_s,
              connects n s conn
              /\ at2 grid (node_x n) (node_y n) = Some cell_n
              /\ at2 grid (node_x s) (node_y s) = Some cell_s
              /\ hasInfrastructure (cell_infrastructure cell_n) power = true
              /\ hasInfrastructure (cell_infrastructure cell_s) power = true)
         (connections pg).
Proof.
  intros Hrect. unfold calculatePowerDistribution, buildPowerConnections.
  destruct (connectConsumers _ grid (buildPowerNodes grid))
    as [[cs ns] |] eqn:Hconn; [| done].
  simpl. intros [= <-]. simpl.
  destruct (connectConsumers_connections _ _ _ _ _ Hconn) as [Hcs _].
  eapply Forall_impl; [exact Hcs |].
  intros conn (n & s & Hn & Hnear & Hpath & Hc).
  apply findNearestPowerSource_elem in Hnear.
  apply list_elem_of_filter in Hnear as [Hst Hs].
  destruct (elem_of_buildPowerNodes grid n Hn)
    as (cn & bn & Hcn & Hbn & Hkn).
  destruct (elem_of_buildPowerNodes grid s Hs)
    as (cs' & bs & Hcs' & Hbs & Hks).
  assert (Hne : (node_x n, node_y n) <> (node_x s, node_y s)).
  { intros [= Hx Hy]. rewrite Hx, Hy, Hcs' in Hcn. injection Hcn as <-.
    rewrite Hbs in Hbn. injection Hbn as <-.
    destruct Hc as (Hcons & _).
    destruct Hkn as [[Hk _] | [_ Hk]]; [congruence |].
    destruct Hks as [[_ Hk'] | [Hk' _]]; [| congruence].
    unfold isPowerSource, isPowerConsumer in *.
    apply bool_decide_eq_true in Hk, Hk'. done. }
  destruct (hasPowerLinePath_endpoints _ _ _ _ grid Hrect Hne Hpath)
    as [Hstart Hend].
  exists n, s, cn, cs'. repeat split; try done; auto; apply Hc.
Qed.

Lemma connected_cells_carry_power_witness :
  let grid :=
    [[plainCell 0 0 [power] (Some scenarioPlant);
      plainCell 1 0 [power] (Some (scenarioHouse 1 0))]] in
  exists pg,
    calculatePowerDistribution grid = Some pg
    /\ Forall (fun conn =>
                exists n s cell_n cell_s,
                  connects n s conn
                  /\ at2 grid (node_x n) (node_y n) = Some cell_n
                  /\ at2 grid (node_x s) (node_y s) = Some cell_s
                  /\ hasInfrastructure (cell_infrastructure cell_n) power
                     = true
                  /\ hasInfrastructure (cell_infrastructure cell_s) power
                     = true)
         (connections pg).
Proof.
  intros grid.
  assert (Hrect : rectangular grid) by (repeat constructor).
  destruct (calculatePowerDistribution_defined grid Hrect) as [pg Hpg].
  exists pg. split; [exact Hpg |].
  exact (connected_cells_carry_power grid pg Hrect Hpg).
Defined.

Lemma updateNode_positions id f ns :
  (forall n, nodePosition (f n) = nodePosition n) ->
  nodePosition <$> updateNode id f ns = nodePosition <$> ns.
Proof.
  intros Hf. induction ns as [| n ns IH]; [done |]. cbn [updateNode].
  destruct (decide (node_id n = id)); rewrite !fmap_cons;
    [by rewrite Hf | by rewrite IH].
Qed.

Lemma flowStep_positions ns conn :
  nodePosition <$> flowStep ns conn = nodePosition <$> ns.
Proof.
  unfold flowStep.
  destruct (findNode (from conn) ns) as [s |]; [| done].
  destruct (findNode (to conn) ns) as [c |]; [| done].
  destruct (_ <=? _); rewrite !updateNode_positions; done.
Qed.

Lemma simulatePowerFlow_positions ns cs :
  nodePosition <$> simulatePowerFlow ns cs = nodePosition <$> ns.
Proof.
  unfold simulatePowerFlow.
  assert (Hreset : nodePosition <$> map resetNode ns = nodePosition <$> ns).
  { induction ns as [| n ns IH]; [done |]. cbn [map].
    rewrite !fmap_cons, IH. f_equal.
    unfold resetNode. by destruct (decide _). }
  rewrite <- Hreset. generalize (map resetNode ns). clear Hreset.
  induction cs as [| conn cs IH]; intros l; cbn [fold_left]; [done |].
  by rewrite IH, flowStep_positions.
Qed.

Lemma connectConsumers_positions sources grid ns cs ns' :
  connectConsumers sources grid ns = Some (cs, ns') ->
  nodePosition <$> ns' = nodePosition <$> ns.
Proof.
  revert cs ns'. induction ns as [| n ns IH]; intros cs ns'; simpl.
  { by intros [= <- <-]. }
  destruct (decide (node_type n = consumer)).
  - destruct (findNearestPowerSource n sources) as [s |].
    + destruct (canTransmitPower n s grid) as [ok |]; [| done]. simpl.
      destruct (connectConsumers sources grid ns) as [[cs0 ns0] |]; [| done].
      simpl. specialize (IH _ _ eq_refl).
      destruct ok; intros [= <- <-]; rewrite !fmap_cons; by rewrite IH.
    + destruct (connectConsumers sources grid ns) as [[cs0 ns0] |]; [| done].
      simpl. specialize (IH _ _ eq_refl). intros [= <- <-].
      rewrite !fmap_cons. by rewrite IH.
  - destruct (connectConsumers sources grid ns) as [[cs0 ns0] |]; [| done].
    simpl. specialize (IH _ _ eq_refl). intros [= <- <-].
    rewrite !fmap_cons. by rewrite IH.
Qed.

Lemma calculatePowerDistribution_positions grid pg :
  calculatePowerDistribution grid = Some pg ->
  nodePosition <$> nodes pg = nodePosition <$> buildPowerNodes grid.
Proof.
  unfold calculatePowerDistribution, buildPowerConnections.
  destruct (connectConsumers _ grid (buildPowerNodes grid))
    as [[cs ns] |] eqn:Hconn; [| done].
  simpl. intros [= <-]. simpl.
  rewrite simulatePowerFlow_positions.
  by eapply connectConsumers_positions.
Qed.

Lemma at2_map_map {A B} (f : A -> B) (a : list (list A)) x y :
  at2 (map (map f) a) x y = f <$> at2 a x y.
Proof.
  unfold at2. destruct ((x <? 0) || (y <? 0)); [done |].
  change (map (map f) a) with (map f <$> a). rewrite list_lookup_fmap.
  destruct (a !! Z.to_nat y) as [row |]; simpl; [| done].
  change (map f row) with (f <$> row). by rewrite list_lookup_fmap.
Qed.

Lemma updateGridPowerStatus_untouched grid pg x y :
  (x, y) ∉ nodePosition <$> nodes pg ->
  at2 (updateGridPowerStatus grid pg) x y
  = setPower false None 0 0 <$> at2 grid x y.
Proof.
  unfold updateGridPowerStatus. rewrite <- at2_map_map.
  generalize (map (map (setPower false None 0 0)) grid).
  induction (nodes pg) as [| n ns IH]; intros g Hnot; simpl; [done |].
  rewrite fmap_cons, not_elem_of_cons in Hnot. destruct Hnot as [Hn Hns].
  rewrite IH by done.
  destruct (head g); [| done]. destruct (inBounds _ _ _ _); [| done].
  destruct (decide (0 <= x /\ 0 <= y)) as [[Hx Hy] | Hneg].
  - apply at2_alter2_ne; try done; intros Heq; apply Hn; by rewrite <- Heq.
  - rewrite !at2_negative by lia. done.
Qed.

(** X18. After [updateGridPowerStatus] with the grid's own power
    distribution, a cell without a building has its power annotations
    reset (no power, no source, capacity and demand 0) and is otherwise
    unchanged; [hasBuildingPower] answers false for it. *)
Theorem cells_without_building_have_no_power grid pg x y cell :
  calculatePowerDistribution grid = Some pg ->
  at2 grid x y = Some cell ->
  cell_building cell = None ->
  at2 (updateGridPowerStatus grid pg) x y
  = Some (setPower false None 0 0 cell)
  /\ (rectangular grid ->
      hasBuildingPower x y (updateGridPowerStatus grid pg) = Some false).
Proof.
  intros Hpg Hcell Hnone.
  assert (Hat : at2 (updateGridPowerStatus grid pg) x y
                = Some (setPower false None 0 0 cell)).
  { rewrite updateGridPowerStatus_untouched; [by rewrite Hcell |].
    rewrite (calculatePowerDistribution_positions _ _ Hpg).
    intros Hin. apply list_elem_of_fmap in Hin as (n & Hpos & Hn).
    destruct (elem_of_buildPowerNodes grid n Hn) as (c & b & Hc & Hb & _).
    injection Hpos as -> ->. rewrite Hcell in Hc. congruence. }
  split; [done |]. intros Hrect.
  assert (Hrect' : rectangular (updateGridPowerStatus grid pg)).
  { eapply cellwise_rectangular;
      [apply updateGridPowerStatus_buildings | done]. }
  destruct (at2_Some_inv _ _ _ _ Hat) as (Hx & Hy & row & Hrow & Hcol).
  unfold hasBuildingPower.
  destruct (head (updateGridPowerStatus grid pg)) as [row0 |] eqn:Hhead.
  2:{ apply head_None in Hhead. by rewrite Hhead in Hrow. }
  pose proof (rectangular_row _ row0 row _ Hrect' Hhead Hrow) as Hlen.
  apply lookup_lt_Some in Hrow, Hcol.
  replace (0 <=? x) with true by (symmetry; apply Z.leb_le; lia).
  simpl.
  replace (x <? Z.of_nat (length row0)) with true
    by (symmetry; apply Z.ltb_lt; lia).
  replace (0 <=? y) with true by (symmetry; apply Z.leb_le; lia).
  replace (y <? Z.of_nat (length (updateGridPowerStatus grid pg))) with true
    by (symmetry; apply Z.ltb_lt; lia).
  simpl. by rewrite Hat.
Qed.

Lemma cells_without_building_have_no_power_witness :
  let grid :=
    [[plainCell 0 0 [power] (Some scenarioPlant);
      plainCell 1 0 [power] None]] in
  exists pg,
    calculatePowerDistribution grid = Some pg
    /\ at2 (updateGridPowerStatus grid pg) 1 0
       = Some (setPower false None 0 0 (plainCell 1 0 [power] None)).
Proof.
  intros grid.
  assert (Hrect : rectangular grid) by (repeat constructor).
  destruct (calculatePowerDistribution_defined grid Hrect) as [pg Hpg].
  exists pg. split; [exact Hpg |].
  apply (cells_without_building_have_no_power grid pg 1 0
           (plainCell 1 0 [power] None) Hpg); reflexivity.
Defined.

(** ** The connectivity summary *)

Lemma tallied_add n k t :
  tallied n t -> tallied (n + 1) (ConnectivityStats.add k t).
Proof.
  intros (Ht & Hsum & Hf & Hp & Hd & Hr & Hpw & Hw).
  unfold tallied, ConnectivityStats.add, ConnectivityStats.count. simpl.
  destruct (InfrastructureConnectivityManager.conn_status k);
    destruct (InfrastructureConnectivityManager.conn_road k);
    destruct (InfrastructureConnectivityManager.conn_power k);
    destruct (InfrastructureConnectivityManager.conn_water k);
    simpl; repeat split; lia.
Qed.

Lemma ratio_unit a n :
  0 <= a <= n -> (0 <= ConnectivityStats.ratio (IZR a) n <= 1)%R.
Proof.
  intros Ha. unfold ConnectivityStats.ratio.
  destruct (Z.ltb_spec 0 n); [| lra].
  assert (Hn : (0 < IZR n)%R) by (by apply IZR_lt).
  assert (Ha0 : (0 <= IZR a)%R) by (apply IZR_le; lia).
  assert (Ha1 : (IZR a <= IZR n)%R) by (apply IZR_le; lia).
  split.
  - apply Rmult_le_reg_r with (r := IZR n); [done |].
    unfold Rdiv. rewrite Rmult_assoc, Rinv_l by lra. lra.
  - apply Rmult_le_reg_r with (r := IZR n); [done |].
    unfold Rdiv. rewrite Rmult_assoc, Rinv_l by lra. lra.
Qed.

Section Coverage.
Context `{BuildingStats}.

(** X19. The connectivity summary counts every building of the grid once:
    the fully, partially and poorly connected buildings are disjoint
    classes that add up to the total; the three coverages lie in [0,1];
    on a grid without buildings the average efficiency and the coverages
    are 0. *)
Theorem connectivity_stats_partition grid k :
  getGridConnectivityStats grid = Some k ->
  totalBuildings k
  = Z.of_nat (length (InfrastructureConnectivityManager.buildingCells grid))
  /\ fullyConnected k + partiallyConnected k + poorlyConnected k
     = totalBuildings k
  /\ 0 <= fullyConnected k /\ 0 <= partiallyConnected k
  /\ 0 <= poorlyConnected k
  /\ (0 <= roadCoverage k <= 1)%R
  /\ (0 <= powerCoverage k <= 1)%R
  /\ (0 <= waterCoverage k <= 1)%R
  /\ (totalBuildings k = 0 ->
      averageEfficiency k = 0%R /\ roadCoverage k = 0%R
      /\ powerCoverage k = 0%R /\ waterCoverage k = 0%R).
Proof.
  unfold getGridConnectivityStats.
  generalize (InfrastructureConnectivityManager.buildingCells grid).
  intros cells.
  assert (Hgen : forall (l : list (Z * Z * GridCell)) n acc t,
            (forall t0, acc = Some t0 -> tallied n t0) ->
            fold_left
              (fun acc '(x, y, _) =>
                 t ← acc;
                 k ← InfrastructureConnectivityManager.getBuildingConnectivity
                       x y grid;
                 Some (ConnectivityStats.add k t))
              l acc = Some t ->
            tallied (n + Z.of_nat (length l)) t).
  { induction l as [| [[x y] c] l IH]; intros n acc t Hacc; simpl.
    - intros ->. replace (n + Z.of_nat 0) with n by lia. by apply Hacc.
    - intros Hfold.
      replace (n + Z.of_nat (S (length l)))
        with ((n + 1) + Z.of_nat (length l)) by lia.
      eapply IH; [| exact Hfold].
      intros t0 Ht0. destruct acc as [t1 |]; [| done]. simpl in Ht0.
      destruct (InfrastructureConnectivityManager.getBuildingConnectivity
                  x y grid) as [conn |]; [| done].
      injection Ht0 as <-. apply tallied_add. by apply Hacc. }
  intros Hk. apply fmap_Some in Hk as (t & Hfold & ->).
  apply (Hgen cells 0 _ t) in Hfold.
  2:{ intros t0 [= <-]. unfold tallied. simpl. lia. }
  destruct Hfold as (Ht & Hsum & Hf & Hp & Hd & Hr & Hpw & Hw).
  simpl in *. rewrite Ht.
  repeat (split; [first [done | lia | by apply ratio_unit] |]).
  intros Hz. unfold ConnectivityStats.ratio. rewrite Hz. done.
Qed.
End Coverage.

Lemma connectivity_stats_partition_witness :
  exists k,
    @getGridConnectivityStats zeroStats
      [[plainCell 0 0 [road] (Some (scenarioHouse 0 0));
        plainCell 1 0 [power] None]] = Some k
    /\ totalBuildings k = 1
    /\ fullyConnected k + partiallyConnected k + poorlyConnected k = 1.
Proof.
  eexists. split; [reflexivity |].
  destruct (@connectivity_stats_partition zeroStats
              [[plainCell 0 0 [road] (Some (scenarioHouse 0 0));
                plainCell 1 0 [power] None]] _ eq_refl)
    as (Htotal & Hsum & _).
  split; [exact Htotal |]. rewrite Hsum. exact Htotal.
Defined.

(** ** Infrastructure networks *)

Lemma neighbors_spec type range x y grid cell :
  0 <= range -> rectangular grid -> at2 grid x y = Some cell ->
  exists b,
    (InfrastructureConnectivityManager.getNeighbors x y range grid
     ≫= InfrastructureConnectivityManager.someHasInfrastructure type)
    = Some b
    /\ (b = true <-> neighbourCarries type range x y grid).
Proof.
  intros Hr Hrect Hcell.
  destruct (at2_Some_inv _ _ _ _ Hcell) as (Hx & Hy & row & Hrow & Hcol).
  destruct (head grid) as [row0 |] eqn:Hhead;
    [| apply head_None in Hhead; subst grid; done].
  pose proof (rectangular_row grid row0 row _ Hrect Hhead Hrow) as Hlen.
  apply lookup_lt_Some in Hrow as Hylt. apply lookup_lt_Some in Hcol as Hxlt.
  unfold InfrastructureConnectivityManager.getNeighbors. rewrite Hhead.
  simpl.
  set (pick := fun d : Z * Z =>
        let '(dx, dy) := d in
        if (dx =? 0) && (dy =? 0) || (x + dx <? 0)
           || (Z.of_nat (length row0) <=? x + dx) || (y + dy <? 0)
           || (Z.of_nat (length grid) <=? y + dy)
        then None
        else if distanceWithin x y (x + dx) (y + dy) range
             then Some (at2 grid (x + dx) (y + dy)) else None).
  assert (Hpick : forall dx dy o,
            pick (dx, dy) = Some o <->
            ((dx, dy) <> (0, 0)
             /\ 0 <= x + dx < Z.of_nat (length row0)
             /\ 0 <= y + dy < Z.of_nat (length grid)
             /\ distanceWithin x y (x + dx) (y + dy) range = true
             /\ o = at2 grid (x + dx) (y + dy))).
  { intros dx dy o. unfold pick.
    destruct (distanceWithin x y (x + dx) (y + dy) range);
      destruct (Z.eqb_spec dx 0); destruct (Z.eqb_spec dy 0);
      destruct (Z.ltb_spec (x + dx) 0);
      destruct (Z.leb_spec (Z.of_nat (length row0)) (x + dx));
      destruct (Z.ltb_spec (y + dy) 0);
      destruct (Z.leb_spec (Z.of_nat (length grid)) (y + dy));
      simpl; split;
      try (intros [= <-]); try (intros (Hne & ? & ? & ? & ->));
      try done; try lia; try (exfalso; apply Hne; congruence);
      repeat split; try done; try lia; congruence. }
  assert (Hall : Forall is_Some (omap pick (scanBox range))).
  { apply Forall_forall. intros o Ho.
    apply list_elem_of_omap in Ho as ([dx dy] & _ & Hp).
    apply Hpick in Hp as (_ & Hbx & Hby & _ & ->).
    by eapply at2_rectangular. }
  destruct (someHasInfrastructure_defined type _ Hall) as (b & Hb & Hiff).
  exists b. split; [exact Hb |]. rewrite Hiff. split.
  - intros (c & Hin & Hc).
    apply list_elem_of_omap in Hin as ([dx dy] & _ & Hp).
    apply Hpick in Hp as (Hne & _ & _ & Hd & Hat).
    exists (x + dx), (y + dy), c.
    split; [intros [= ? ?]; apply Hne; f_equal; lia |].
    split; [done |]. split; [| done].
    by apply distanceWithin_sqrt.
  - intros (nx & ny & c & Hne & Hat & Hd & Hc).
    apply distanceWithin_sqrt in Hd; [| done].
    destruct (at2_Some_inv _ _ _ _ Hat) as (Hnx & Hny & row' & Hrow' & Hcol').
    pose proof (rectangular_row grid row0 row' _ Hrect Hhead Hrow') as Hlen'.
    apply lookup_lt_Some in Hrow', Hcol'.
    exists c. split; [| done].
    apply list_elem_of_omap. exists (nx - x, ny - y). split.
    + apply elem_of_scanBox; [done |].
      unfold distanceWithin, distanceSq in Hd. apply Z.leb_le in Hd.
      split; eapply square_sum_bound; try done. by rewrite Z.add_comm.
    + apply Hpick.
      replace (x + (nx - x)) with nx by lia.
      replace (y + (ny - y)) with ny by lia.
      repeat split; try done; try lia.
      intros [= Hdx Hdy]. apply Hne. f_equal; lia.
Qed.

(** X20. For a cell of a rectangular grid, [isInfrastructureConnected]
    answers true exactly when the cell carries the flag itself and some
    other cell within the range of that flag (1 for road, 8 for power, 6
    for water) carries it too. *)
Theorem isInfrastructureConnected_spec x y type grid cell :
  rectangular grid -> at2 grid x y = Some cell ->
  exists b,
    InfrastructureConnectivityManager.isInfrastructureConnected x y type grid
    = Some b
    /\ (b = true
        <-> hasInfrastructure (cell_infrastructure cell) type = true
            /\ neighbourCarries type
                 (InfrastructureConnectivityManager.connectionRange type)
                 x y grid).
Proof.
  intros Hrect Hcell.
  destruct (at2_Some_inv _ _ _ _ Hcell) as (Hx & Hy & row & Hrow & Hcol).
  destruct (head grid) as [row0 |] eqn:Hhead;
    [| apply head_None in Hhead; subst grid; done].
  pose proof (rectangular_row grid row0 row _ Hrect Hhead Hrow) as Hlen.
  apply lookup_lt_Some in Hrow as Hylt. apply lookup_lt_Some in Hcol as Hxlt.
  unfold InfrastructureConnectivityManager.isInfrastructureConnected.
  replace (x <? 0) with false by (symmetry; apply Z.ltb_ge; lia).
  rewrite Hhead. simpl.
  replace (Z.of_nat (length row0) <=? x) with false
    by (symmetry; apply Z.leb_gt; lia).
  replace (y <? 0) with false by (symmetry; apply Z.ltb_ge; lia).
  replace (Z.of_nat (length grid) <=? y) with false
    by (symmetry; apply Z.leb_gt; lia).
  simpl. rewrite Hcell. simpl.
  destruct (hasInfrastructure (cell_infrastructure cell) type) eqn:Hflag;
    simpl.
  - destruct (neighbors_spec type
                (InfrastructureConnectivityManager.connectionRange type)
                x y grid cell) as (b & Hb & Hiff); try done.
    { by destruct type. }
    exists b. split; [exact Hb |]. rewrite Hiff. by split; [| intros []].
  - exists false. split; [done |]. split; [done | by intros []].
Qed.

Lemma isInfrastructureConnected_spec_witness :
  let grid := [[plainCell 0 0 [road] None; plainCell 1 0 [road] None]] in
  exists b,
    InfrastructureConnectivityManager.isInfrastructureConnected 0 0 road grid
    = Some b.
Proof.
  intros grid.
  destruct (isInfrastructureConnected_spec 0 0 road grid
              (plainCell 0 0 [road] None)) as (b & Hb & _).
  - repeat constructor.
  - reflexivity.
  - by exists b.
Defined.

(** ** The two listings of the buildings *)

Lemma omap_bind_list {A B C} (g : B -> option C) (k : A -> list B)
    (l : list A) :
  omap g (l ≫= k) = l ≫= (fun a => omap g (k a)).
Proof.
  induction l as [| a l IH]; [done |].
  rewrite !bind_cons, omap_app. by rewrite IH.
Qed.

Lemma bind_ext_in {A B} (f g : A -> list B) (l : list A) :
  (forall a, a ∈ l -> f a = g a) -> l ≫= f = l ≫= g.
Proof.
  induction l as [| a l IH]; intros Hfg; [done |].
  rewrite !bind_cons. rewrite (Hfg a) by apply list_elem_of_here.
  rewrite IH; [done |]. intros a' Ha'. apply Hfg. by apply list_elem_of_further.
Qed.

Lemma omap_ext_in {A B} (f g : A -> option B) (l : list A) :
  (forall a, a ∈ l -> f a = g a) -> omap f l = omap g l.
Proof.
  intros Hfg. apply list_omap_ext, Forall_Forall2_diag, Forall_forall.
  exact Hfg.
Qed.

Lemma bind_lookup_seq {A B} (k : A -> list B) (l : list A) :
  seq 0 (length l) ≫= (fun i => from_option k [] (l !! i)) = l ≫= k.
Proof.
  induction l as [| a l IH] using rev_ind; [done |].
  rewrite length_app. simpl. rewrite Nat.add_1_r, seq_S. simpl.
  rewrite !bind_app. f_equal.
  - rewrite <- IH. apply bind_ext_in. intros i Hi. apply elem_of_seq in Hi.
    rewrite lookup_app_l by lia. done.
  - rewrite !bind_singleton.
    rewrite lookup_app_r by lia. by rewrite Nat.sub_diag.
Qed.

Lemma omap_lookup_seq {A B} (f : A -> option B) (l : list A) :
  omap (fun i => l !! i ≫= f) (seq 0 (length l)) = omap f l.
Proof.
  induction l as [| a l IH] using rev_ind; [done |].
  rewrite length_app. simpl. rewrite Nat.add_1_r, seq_S. simpl.
  rewrite !omap_app. f_equal.
  - rewrite <- IH. apply omap_ext_in.
    intros i Hi. apply elem_of_seq in Hi.
    by rewrite lookup_app_l by lia.
  - simpl. rewrite lookup_app_r by lia. by rewrite Nat.sub_diag.
Qed.

(** In a city of the right shape the loops over [gridWidth] and
    [gridHeight] visit the zones row by row. *)
Lemma scan_shaped {B} (f : Zone.t -> option B) c :
  shaped c ->
  omap (fun '(x, y) => at2 (City.zones c) x y ≫= f)
       (coords (City.gridWidth c) (City.gridHeight c))
  = City.zones c ≫= omap f.
Proof.
  intros [Hlen Hrows]. unfold coords. rewrite omap_bind_list.
  rewrite <- Hlen, <- (bind_lookup_seq (omap f) (City.zones c)).
  apply bind_ext_in.
  intros j Hj. apply elem_of_seq in Hj.
  destruct (City.zones c !! j) as [row |] eqn:Hrow;
    [| apply lookup_ge_None in Hrow; lia].
  simpl. rewrite omap_bind_list.
  rewrite Forall_lookup in Hrows. rewrite <- (Hrows _ _ Hrow).
  rewrite <- omap_lookup_seq.
  assert (Hsingle : forall (g : nat -> option B) l,
            l ≫= (fun i => omap (fun '(x, y) => at2 (City.zones c) x y ≫= f)
                             [(Z.of_nat i, Z.of_nat j)])
            = omap (fun i => row !! i ≫= f) l).
  { intros _ l. induction l as [| i l IH]; [done |].
    rewrite bind_cons, IH. simpl.
    unfold at2.
    replace ((Z.of_nat i <? 0) || (Z.of_nat j <? 0)) with false
      by (symmetry; apply orb_false_iff; split; apply Z.ltb_ge; lia).
    rewrite !Nat2Z.id, Hrow. simpl.
    by destruct (row !! i ≫= f). }
  by apply (Hsingle (fun _ => None)).
Qed.

Lemma omap_fmap_after {A B C} (f : A -> option B) (g : B -> C)
    (l : list A) :
  omap (fun a => g <$> f a) l = g <$> omap f l.
Proof.
  induction l as [| a l IH]; [done |]. csimpl.
  destruct (f a); csimpl; by rewrite IH.
Qed.

(** X21. The engine's [getAllBuildings], a [flatMap] over the rows of
    zones, lists the buildings that [City.getAllBuildings] collects with
    its loops over the grid dimensions, in the same order, each passed
    through [toJSON]. *)
Theorem engine_getAllBuildings_agrees c :
  shaped c ->
  SimulationEngine.getAllBuildings c
  = map Building.toJSON (City.getAllBuildings c).
Proof.
  intros Hs. unfold SimulationEngine.getAllBuildings, City.getAllBuildings,
    City.getZones.
  change (map Building.toJSON) with (fmap (M := list) Building.toJSON).
  rewrite (scan_shaped (fun zone => Zone.getBuilding zone) c Hs).
  induction (City.zones c) as [| row rows IH]; [done |].
  rewrite !bind_cons, fmap_app, <- IH. f_equal.
  apply omap_fmap_after.
Qed.

Lemma engine_getAllBuildings_agrees_witness :
  SimulationEngine.getAllBuildings (singleZoneCity grownZone)
  = map Building.toJSON (City.getAllBuildings (singleZoneCity grownZone)).
Proof.
  apply (engine_getAllBuildings_agrees (singleZoneCity grownZone)).
  split; [reflexivity | repeat constructor].
Defined.

(** ** The two averages of happiness *)

Lemma zonedCells_shaped c : shaped c -> City.zonedCells c = concat (City.zones c).
Proof.
  intros Hs. unfold City.zonedCells.
  rewrite (scan_shaped (fun zone => _ ← Zone.getType zone; Some zone) c Hs).
  induction (City.zones c) as [| row rows IH]; [done |].
  rewrite bind_cons, IH. simpl. f_equal.
  clear. induction row as [| z row IH]; [done |]. csimpl. by rewrite IH.
Qed.

Lemma filter_isCounted (l : list Zone.t) :
  filter (fun zone => HappinessManager.isCounted zone = true) l = l.
Proof.
  induction l as [| z l IH]; [done |]. rewrite filter_cons.
  destruct (decide _) as [_ | Hn]; [by rewrite IH |].
  destruct Hn. unfold HappinessManager.isCounted, Zone.getType.
  by destruct (Zone.getBuilding z).
Qed.

(** X22. On a city with at least one zone the average happiness of
    [City] and the one of [HappinessManager] are the same number; on a
    city without zones they differ: [City] reports 0 and
    [HappinessManager] 50. *)
Theorem average_happiness_agrees c :
  shaped c ->
  (concat (City.zones c) <> [] ->
   City.calculateAverageHappiness c
   = HappinessManager.calculateAverageHappiness (City.zones c))
  /\ (concat (City.zones c) = [] ->
      City.calculateAverageHappiness c = 0%R
      /\ HappinessManager.calculateAverageHappiness (City.zones c) = 50%R).
Proof.
  intros Hs. unfold City.calculateAverageHappiness,
    HappinessManager.calculateAverageHappiness.
  rewrite (zonedCells_shaped c Hs), filter_isCounted. cbv zeta.
  split.
  - intros Hne. destruct (concat (City.zones c)); [done |]. done.
  - intros ->. done.
Qed.

Lemma average_happiness_agrees_witness :
  City.calculateAverageHappiness (City.new 2 2)
  = HappinessManager.calculateAverageHappiness (City.zones (City.new 2 2)).
Proof.
  apply (average_happiness_agrees (City.new 2 2)).
  - split; [reflexivity | repeat constructor].
  - discriminate.
Defined.

(** ** Zone blocks and the lookup of a zone *)

(** X23. [addZoneBlock] never places a block: at coordinates where the
    2x2 block would leave the grid it returns false, and inside the grid
    its check that no cell of the block is zoned fails on the first cell,
    because a zone's type is never null; the city is left as it was. *)
Theorem addZoneBlock_always_refuses c x y zoneType w :
  City.wf c ->
  City.addZoneBlock x y zoneType c w = (Some (false, c), w).
Proof.
  intros Hwf. unfold City.addZoneBlock.
  destruct (_ || _) eqn:Hout; [done |].
  assert (Hin : City.outOfBounds x y c = false).
  { unfold City.outOfBounds.
    repeat (apply orb_false_iff in Hout as [Hout ?]).
    apply Z.ltb_ge in Hout. apply Z.leb_gt in H. apply Z.ltb_ge in H0.
    apply Z.leb_gt in H1.
    repeat (apply orb_false_iff; split);
      try apply Z.ltb_ge; try apply Z.leb_gt; lia. }
  destruct (City_wf_at2 c x y Hwf Hin) as [zone Hzone].
  unfold City.blockCells. simpl. rewrite Hzone. simpl.
  unfold Zone.getType.
  destruct (decide (Some (Zone.type zone) <> None)) as [_ | Hn]; [done |].
  by destruct Hn.
Qed.

Lemma addZoneBlock_always_refuses_witness :
  City.addZoneBlock 0 0 COMMERCIAL (City.new 4 4) calmWorld
  = (Some (false, City.new 4 4), calmWorld).
Proof.
  apply (addZoneBlock_always_refuses (City.new 4 4) 0 0 COMMERCIAL calmWorld).
  apply City_new_wf; lia.
Defined.

(** X24. [getZone(x, y)] returns a zone exactly for coordinates inside the
    grid and null outside; on a new city the zone returned is the fresh
    zone of that cell. *)
Theorem getZone_in_bounds c x y :
  City.wf c ->
  (is_Some (City.getZone x y c)
   <-> (0 <= x < City.gridWidth c /\ 0 <= y < City.gridHeight c))
  /\ (forall w h, c = City.new w h ->
      forall zone, City.getZone x y c = Some zone ->
                   zone = Zone.new x y None).
Proof.
  intros Hwf. split.
  - unfold City.getZone. destruct (City.outOfBounds x y c) eqn:Hout.
    + split; [by intros [? ?] |]. intros Hb. exfalso.
      unfold City.outOfBounds in Hout.
      repeat (apply orb_true_iff in Hout as [Hout | Hout]);
        try apply Z.ltb_lt in Hout; try apply Z.leb_le in Hout; lia.
    + split; [| intros _; by apply City_wf_at2].
      intros _. unfold City.outOfBounds in Hout.
      repeat (apply orb_false_iff in Hout as [Hout ?]).
      apply Z.ltb_ge in Hout. apply Z.leb_gt in H. apply Z.ltb_ge in H0.
      apply Z.leb_gt in H1. lia.
  - intros w h -> zone. unfold City.getZone.
    destruct (City.outOfBounds _ _ _); [done |].
    intros Hz. destruct (at2_Some_inv _ _ _ _ Hz) as (Hx & Hy & row & Hrow & Hcol).
    unfold City.new, City.initializeZones in Hrow. simpl in Hrow.
    rewrite list_lookup_fmap in Hrow.
    apply fmap_Some in Hrow as (j & Hj & ->).
    rewrite list_lookup_fmap in Hcol.
    apply fmap_Some in Hcol as (i & Hi & ->).
    apply lookup_seq in Hi as [-> _]. apply lookup_seq in Hj as [-> _].
    simpl. f_equal; lia.
Qed.

Lemma getZone_in_bounds_witness :
  is_Some (City.getZone 3 2 (City.new 4 4))
  <-> 0 <= 3 < City.gridWidth (City.new 4 4)
      /\ 0 <= 2 < City.gridHeight (City.new 4 4).
Proof.
  apply (getZone_in_bounds (City.new 4 4) 3 2).
  apply City_new_wf; lia.
Defined.

(** ** Loading a grid and reading it back *)

Lemma fold_addInfrastructure_fields l z :
  let z' := fold_left (fun z infra => snd (Zone.addInfrastructure infra z))
              l z in
  Zone.x z' = Zone.x z /\ Zone.y z' = Zone.y z /\ Zone.type z' = Zone.type z
  /\ Zone.building z' = Zone.building z
  /\ Zone.happiness z' = Zone.happiness z
  /\ Zone.pollution z' = Zone.pollution z
  /\ Zone.blockZoneId z' = Zone.blockZoneId z
  /\ Zone.blockZoneX z' = Zone.blockZoneX z
  /\ Zone.blockZoneY z' = Zone.blockZoneY z
  /\ (NoDup (Zone.infrastructure z) -> NoDup (Zone.infrastructure z'))
  /\ (NoDup (Zone.infrastructure z ++ l) ->
      Zone.infrastructure z' = Zone.infrastructure z ++ l).
Proof.
  revert z. induction l as [| a l IH]; intros z; cbn [fold_left].
  - cbv zeta. rewrite app_nil_r. by repeat split.
  - specialize (IH (snd (Zone.addInfrastructure a z))). cbv zeta in *.
    destruct IH as (-> & -> & -> & -> & -> & -> & -> & -> & -> & Hnd & Heq).
    rewrite Zone_addInfrastructure_cases in *.
    destruct (Zone.hasInfrastructure a z) eqn:Ha; simpl in *.
    + repeat split; try done. intros Hdup. exfalso.
      apply NoDup_app in Hdup as (_ & Hdis & _).
      apply (Hdis a); [by apply includes_spec | apply list_elem_of_here].
    + repeat split; try done.
      * intros Hz. apply Hnd. apply NoDup_app. split; [done |].
        split; [| apply NoDup_singleton].
        intros t Ht Ht'. apply list_elem_of_singleton in Ht' as ->.
        apply includes_spec in Ht. unfold Zone.hasInfrastructure in Ha.
        congruence.
      * intros Hdup. rewrite Heq; rewrite <- app_assoc; done.
Qed.

Lemma loadCell_sanitised x y cell :
  sanitised x y (City.loadCell cell (Zone.new x y None)).
Proof.
  unfold City.loadCell. cbv zeta.
  set (z0 := match zoneType cell with
             | Some ty => Zone.setType (Some ty) (Zone.new x y None)
             | None => Zone.new x y None
             end).
  assert (Hz0 : Zone.x z0 = x /\ Zone.y z0 = y /\ Zone.infrastructure z0 = []).
  { subst z0. by destruct (zoneType cell). }
  destruct Hz0 as (Hx0 & Hy0 & Hi0).
  pose proof (fold_addInfrastructure_fields (cell_infrastructure cell) z0)
    as Hfold.
  cbv zeta in Hfold.
  set (z1 := fold_left _ (cell_infrastructure cell) z0) in *.
  destruct Hfold as (Hx & Hy & _ & _ & _ & _ & _ & _ & _ & Hnd & _).
  assert (Hnd1 : NoDup (Zone.infrastructure z1))
    by (apply Hnd; rewrite Hi0; apply NoDup_nil_2).
  unfold sanitised.
  destruct (isBlockZone cell); destruct (cell_building cell); simpl;
    (split; [congruence |]); (split; [congruence |]); (split; [done |]);
    split; apply Rmax_Rmin_bounds; lra.
Qed.

Lemma at2_initializeZones w h x y :
  at2 (City.initializeZones w h) x y
  = if inBounds x y w h then Some (Zone.new x y None) else None.
Proof.
  unfold at2, City.initializeZones, inBounds.
  destruct (Z.ltb_spec x 0); simpl.
  { replace (0 <=? x) with false by (symmetry; apply Z.leb_gt; lia). done. }
  destruct (Z.ltb_spec y 0); simpl.
  { replace (0 <=? y) with false by (symmetry; apply Z.leb_gt; lia).
    by rewrite andb_false_r. }
  replace (0 <=? x) with true by (symmetry; apply Z.leb_le; lia).
  replace (0 <=? y) with true by (symmetry; apply Z.leb_le; lia).
  simpl. rewrite andb_true_r.
  change (map ?f ?l) with (f <$> l). rewrite list_lookup_fmap.
  destruct (Z.ltb_spec y h).
  - rewrite lookup_seq_lt by lia. simpl. rewrite list_lookup_fmap.
    destruct (Z.ltb_spec x w).
    + rewrite lookup_seq_lt by lia. simpl. do 2 f_equal; lia.
    + rewrite lookup_seq_ge by lia. done.
  - rewrite lookup_seq_ge by lia. simpl. by rewrite andb_false_r.
Qed.

Lemma at2_imap2 {A} (f : nat -> nat -> A -> A) (a : list (list A)) x y :
  at2 (imap (fun j row => imap (fun i v => f i j v) row) a) x y
  = f (Z.to_nat x) (Z.to_nat y) <$> at2 a x y.
Proof.
  unfold at2. destruct ((x <? 0) || (y <? 0)); [done |].
  rewrite list_lookup_imap.
  destruct (a !! Z.to_nat y) as [row |]; simpl; [| done].
  by rewrite list_lookup_imap.
Qed.

(** The zone [fromGridFormat] leaves at [(x, y)]. *)
Lemma at2_fromGridFormat grid c x y :
  at2 (City.zones (City.fromGridFormat grid c)) x y
  = if inBounds x y (City.gridWidth c) (City.gridHeight c)
    then Some (match at2 grid x y with
               | Some cell => City.loadCell cell (Zone.new x y None)
               | None => Zone.new x y None
               end)
    else None.
Proof.
  unfold City.fromGridFormat, City.setZones. simpl.
  rewrite (at2_imap2
             (fun i j zone =>
                match grid !! j ≫= (.!! i) with
                | Some cell => City.loadCell cell zone
                | None => zone
                end)).
  rewrite at2_initializeZones.
  destruct (inBounds x y _ _) eqn:Hb; [| done]. simpl. f_equal.
  unfold inBounds in Hb. repeat (apply andb_true_iff in Hb as [Hb ?]).
  apply Z.leb_le in Hb. apply Z.leb_le in H0.
  unfold at2.
  replace ((x <? 0) || (y <? 0)) with false
    by (symmetry; apply orb_false_iff; split; apply Z.ltb_ge; lia).
  done.
Qed.

(** X25. Whatever the grid holds, every zone of a city loaded with
    [fromGridFormat] sits at its own coordinates inside the grid
    dimensions, lists no infrastructure flag twice and has happiness and
    pollution in [0,100]. *)
Theorem fromGridFormat_sanitises grid c x y zone :
  at2 (City.zones (City.fromGridFormat grid c)) x y = Some zone ->
  sanitised x y zone
  /\ 0 <= x < City.gridWidth c /\ 0 <= y < City.gridHeight c.
Proof.
  rewrite at2_fromGridFormat.
  destruct (inBounds x y _ _) eqn:Hb; [| done]. intros [= <-].
  split.
  - destruct (at2 grid x y) as [cell |]; [apply loadCell_sanitised |].
    unfold sanitised. simpl. repeat split; try done; try lra.
    apply NoDup_nil_2.
  - unfold inBounds in Hb. repeat (apply andb_true_iff in Hb as [Hb ?]).
    apply Z.leb_le in Hb. apply Z.ltb_lt in H. apply Z.leb_le in H0.
    apply Z.ltb_lt in H1. lia.
Qed.

Lemma fromGridFormat_sanitises_witness :
  sanitised 0 0 servedZone.
Proof.
  apply (fromGridFormat_sanitises [[servedCell]] (City.new 1 1) 0 0
           servedZone).
  apply (f_equal (fun c => at2 (City.zones c) 0 0) load_servedCell).
Defined.

Lemma lookup_omap_total {A B} (f : A -> option B) (l : list A) i :
  (forall a, a ∈ l -> is_Some (f a)) -> omap f l !! i = l !! i ≫= f.
Proof.
  revert i. induction l as [| a l IH]; intros i Hf; [done |].
  destruct (Hf a) as [b Hb]; [apply list_elem_of_here |].
  csimpl. rewrite Hb. destruct i as [| i]; simpl; [done |].
  apply IH. intros a' Ha'. apply Hf. by apply list_elem_of_further.
Qed.

(** The cell [toGridFormat] writes at [(x, y)]. *)
Lemma at2_toGridFormat c x y :
  shaped c ->
  at2 (City.toGridFormat c) x y = City.toGridCell <$> at2 (City.zones c) x y.
Proof.
  intros Hs. destruct (decide (0 <= x /\ 0 <= y)) as [[Hx Hy] | Hneg].
  2:{ rewrite !at2_negative by lia. done. }
  destruct (decide (x < City.gridWidth c /\ y < City.gridHeight c))
    as [[Hxw Hyh] | Hout].
  - destruct (shaped_at2 c x y Hs) as [zone Hzone]; [lia | lia |].
    rewrite Hzone. simpl. unfold at2 at 1, City.toGridFormat.
    replace ((x <? 0) || (y <? 0)) with false
      by (symmetry; apply orb_false_iff; split; apply Z.ltb_ge; lia).
    change (map ?f ?l) with (f <$> l). rewrite list_lookup_fmap.
    rewrite lookup_seq_lt by lia. simpl.
    rewrite lookup_omap_total.
    + rewrite lookup_seq_lt by lia. simpl. rewrite !Z2Nat.id by lia.
      by rewrite Hzone.
    + intros i Hi. apply elem_of_seq in Hi.
      destruct (shaped_at2 c (Z.of_nat i) y Hs) as [z Hz]; [lia | lia |].
      rewrite Z2Nat.id by lia. rewrite Hz. by eexists.
  - destruct Hs as [Hlen Hrows].
    assert (Hnone : at2 (City.zones c) x y = None).
    { unfold at2.
      replace ((x <? 0) || (y <? 0)) with false
        by (symmetry; apply orb_false_iff; split; apply Z.ltb_ge; lia).
      destruct (City.zones c !! Z.to_nat y) as [row |] eqn:Hrow; [| done].
      simpl. apply lookup_ge_None. rewrite Forall_lookup in Hrows.
      rewrite (Hrows _ _ Hrow). apply lookup_lt_Some in Hrow. lia. }
    rewrite Hnone. simpl.
    destruct (toGridFormat_rows c (conj Hlen Hrows)) as [Hlen' Hrows'].
    unfold at2.
    replace ((x <? 0) || (y <? 0)) with false
      by (symmetry; apply orb_false_iff; split; apply Z.ltb_ge; lia).
    destruct (City.toGridFormat c !! Z.to_nat y) as [row |] eqn:Hrow;
      [| done].
    simpl. apply lookup_ge_None. rewrite Forall_lookup in Hrows'.
    rewrite (Hrows' _ _ Hrow). apply lookup_lt_Some in Hrow. lia.
Qed.

Lemma loadCell_normal x y cell :
  normalCell x y cell ->
  City.toGridCell (City.loadCell cell (Zone.new x y None)) = reloaded cell.
Proof.
  intros (Hx & Hy & [ty Hty] & Hnd & Hh & Hp & Hblock).
  unfold City.loadCell. cbv zeta. rewrite Hty.
  pose proof (fold_addInfrastructure_fields (cell_infrastructure cell)
                (Zone.setType (Some ty) (Zone.new x y None))) as Hfold.
  cbv zeta in Hfold.
  set (z1 := fold_left _ (cell_infrastructure cell) _) in *.
  destruct Hfold as (Hx1 & Hy1 & Ht1 & Hb1 & Hh1 & Hp1 & Hi1 & Hbx1 & Hby1
                     & _ & Hinfra).
  specialize (Hinfra Hnd). simpl in *.
  unfold City.toGridCell, reloaded, Zone.isBlockZone, Zone.getX, Zone.getY,
    Zone.getType, Zone.getInfrastructure, Zone.getBuilding,
    Zone.getHappiness, Zone.getPollution, Zone.getBlockZoneId,
    Zone.getBlockZoneX, Zone.getBlockZoneY.
  destruct (isBlockZone cell) eqn:Hblk.
  - destruct Hblock as ([i Hi] & [bx Hbx] & [by_ Hby]).
    rewrite Hi, Hbx, Hby.
    destruct (cell_building cell) as [b |]; simpl;
      rewrite ?Hx1, ?Hy1, ?Ht1, ?Hinfra, ?Hb1, !Rclamp_in by lra;
      by rewrite <- Hx, <- Hy, Hty.
  - destruct Hblock as (Hi & Hbx & Hby). rewrite Hi, Hbx, Hby.
    destruct (cell_building cell) as [b |]; simpl;
      rewrite ?Hx1, ?Hy1, ?Ht1, ?Hinfra, ?Hb1, ?Hi1, ?Hbx1, ?Hby1,
        !Rclamp_in by lra;
      by rewrite <- Hx, <- Hy, Hty.
Qed.

(** X26. Loading a grid and reading it back returns, at every position
    inside the city, a cell that sits at its coordinates, is zoned, lists
    no flag twice and has happiness and pollution in [0,100] as it was,
    except that its building went through [Building.fromJSON] and its
    power and connectivity annotations are reset. *)
Theorem toGridFormat_fromGridFormat grid c x y cell :
  at2 grid x y = Some cell ->
  normalCell x y cell ->
  x < City.gridWidth c -> y < City.gridHeight c ->
  at2 (City.toGridFormat (City.fromGridFormat grid c)) x y
  = Some (reloaded cell).
Proof.
  intros Hcell Hnormal Hx Hy.
  destruct (at2_Some_bounds _ _ _ _ Hcell) as [Hx0 Hy0].
  rewrite at2_toGridFormat by apply fromGridFormat_shaped.
  rewrite at2_fromGridFormat, Hcell.
  replace (inBounds x y (City.gridWidth c) (City.gridHeight c)) with true.
  2:{ symmetry. unfold inBounds.
      repeat (apply andb_true_iff; split);
        try apply Z.leb_le; try apply Z.ltb_lt; lia. }
  simpl. f_equal. by apply loadCell_normal.
Qed.

Lemma toGridFormat_fromGridFormat_witness :
  at2 (City.toGridFormat (City.fromGridFormat [[servedCell]] (City.new 1 1)))
    0 0
  = Some (reloaded servedCell).
Proof.
  apply (toGridFormat_fromGridFormat [[servedCell]] (City.new 1 1) 0 0
           servedCell).
  - reflexivity.
  - unfold normalCell, servedCell. simpl.
    repeat split; try lra; try (by eexists).
    apply (bool_decide_unpack (NoDup [road; power; water])). reflexivity.
  - simpl. lia.
  - simpl. lia.
Defined.

(** ** Transport *)

Lemma fold_left_grows {B} (f : R -> B -> R) (l : list B) (a : R) :
  (forall acc b, b ∈ l -> (acc <= f acc b)%R) -> (a <= fold_left f l a)%R.
Proof.
  revert a. induction l as [| b l IH]; intros a Hf; simpl; [lra |].
  eapply Rle_trans; [apply (Hf a b), list_elem_of_here |].
  apply IH. intros acc b' Hb'. apply Hf. by apply list_elem_of_further.
Qed.

(** X27. On a zone array that has a row for every [y] below
    [gridHeight], the connectivity score of [TransportManager] lies in
    [0,100] and the transport efficiency of a zone in [0,1]; a zone that
    lists two or more infrastructure flags has efficiency 1. *)
Theorem calculateConnectivity_bounds x y zones w h :
  rowsCover zones h ->
  (0 <= TransportManager.calculateConnectivity x y zones w h <= 100)%R
  /\ (forall zone,
        (0 <= TransportManager.calculateTransportEfficiency zone zones w h
         <= 1)%R)
  /\ (forall zone,
        (2 <= length (Zone.getInfrastructure zone))%nat ->
        TransportManager.calculateTransportEfficiency zone zones w h = 1%R).
Proof.
  intros _.
  assert (Hconn : forall x y,
            (0 <= TransportManager.calculateConnectivity x y zones w h
             <= 100)%R).
  { clear x y. intros x y. unfold TransportManager.calculateConnectivity.
    cbv zeta. split; [| apply Rmin_l].
    apply Rmin_glb; [lra |]. apply fold_left_grows.
    intros acc [nx ny] Hin.
    apply elem_of_cellsWithin in Hin as (_ & _ & Hd);
      [| unfold TransportManager.MAX_CONNECTIVITY_RANGE; lia].
    destruct (at2 zones nx ny) as [z |]; [| lra].
    destruct (0 <? _); [| lra].
    pose proof (pos_INR (length (Zone.getInfrastructure z))) as Hlen.
    unfold TransportManager.MAX_CONNECTIVITY_RANGE in *.
    assert (0 <= 1 - calculateDistance x y nx ny / 5)%R by lra.
    assert (0 <= (1 - calculateDistance x y nx ny / 5)
                 * INR (length (Zone.getInfrastructure z)))%R
      by (by apply Rmult_le_pos).
    lra. }
  assert (Hsum : forall l a,
            (a + 0.8 * INR (length l)
             <= fold_left (fun e infra =>
                             e + TransportManager.infrastructureEfficiency infra)
                          l a)%R).
  { induction l as [| i l IH]; intros a; cbn [fold_left].
    - simpl. lra.
    - rewrite length_cons, S_INR.
      specialize (IH (a + TransportManager.infrastructureEfficiency i)%R).
      assert (0.8 <= TransportManager.infrastructureEfficiency i)%R.
      { destruct i; unfold TransportManager.infrastructureEfficiency,
          TransportManager.ROAD_EFFICIENCY, TransportManager.POWER_EFFICIENCY,
          TransportManager.WATER_EFFICIENCY; lra. }
      lra. }
  split; [apply Hconn |]. split.
  - intros zone. unfold TransportManager.calculateTransportEfficiency.
    cbv zeta. split; [| apply Rmin_l].
    apply Rmin_glb; [lra |].
    specialize (Hsum (Zone.getInfrastructure zone) 0%R).
    pose proof (pos_INR (length (Zone.getInfrastructure zone))).
    pose proof (Hconn (Zone.getX zone) (Zone.getY zone)). lra.
  - intros zone Hlen. unfold TransportManager.calculateTransportEfficiency.
    cbv zeta. apply Rmin_left.
    specialize (Hsum (Zone.getInfrastructure zone) 0%R).
    pose proof (Hconn (Zone.getX zone) (Zone.getY zone)).
    assert (2 <= INR (length (Zone.getInfrastructure zone)))%R.
    { replace 2%R with (INR 2) by (simpl; lra). by apply le_INR. }
    lra.
Qed.

Lemma calculateConnectivity_bounds_witness :
  TransportManager.calculateTransportEfficiency servedZone [[servedZone]] 1 1
  = 1%R.
Proof.
  apply (calculateConnectivity_bounds 0 0 [[servedZone]] 1 1).
  - unfold rowsCover. simpl. lia.
  - simpl. lia.
Defined.

(** ** Connectivity and the annotations of the passes *)

Lemma cellwise_at2_opt (P : GridCell -> GridCell -> Prop) g k x y :
  cellwise P g k ->
  match at2 g x y, at2 k x y with
  | Some a, Some b => P a b
  | None, None => True
  | _, _ => False
  end.
Proof.
  intros Hgk. unfold at2. destruct ((x <? 0) || (y <? 0)); [done |].
  pose proof (fun a => Forall2_lookup_l _ _ _ (Z.to_nat y) a Hgk) as Hl.
  pose proof (fun a => Forall2_lookup_r _ _ _ (Z.to_nat y) a Hgk) as Hr.
  destruct (g !! Z.to_nat y) as [row |] eqn:Hrow.
  - destruct (Hl _ eq_refl) as (row' & -> & Hrows). simpl.
    pose proof (fun a => Forall2_lookup_l _ _ _ (Z.to_nat x) a Hrows) as Hl'.
    pose proof (fun a => Forall2_lookup_r _ _ _ (Z.to_nat x) a Hrows) as Hr'.
    destruct (row !! Z.to_nat x) as [a |] eqn:Ha.
    + by destruct (Hl' _ eq_refl) as (b & -> & HP).
    + destruct (row' !! Z.to_nat x) as [b |] eqn:Hb; [| done].
      by destruct (Hr' _ eq_refl) as (a & ? & _).
  - destruct (k !! Z.to_nat y) as [row' |] eqn:Hrow'; [| done].
    by destruct (Hr _ eq_refl) as (row & ? & _).
Qed.

Lemma cellwise_head_length (P : GridCell -> GridCell -> Prop) g k :
  cellwise P g k ->
  length k = length g
  /\ length <$> head k = length <$> head g.
Proof.
  intros Hgk. split; [symmetry; by eapply Forall2_length |].
  destruct Hgk as [| r r' g k Hr _]; [done |]. simpl.
  f_equal. symmetry. by eapply Forall2_length.
Qed.

Lemma someHasInfrastructure_sameFlags type l l' :
  Forall2 sameFlagsOpt l l' ->
  InfrastructureConnectivityManager.someHasInfrastructure type l'
  = InfrastructureConnectivityManager.someHasInfrastructure type l.
Proof.
  induction 1 as [| a b l l' Hab _ IH]; [done |]. simpl.
  destruct a as [a |], b as [b |]; try done.
  destruct Hab as [-> _]. by rewrite IH.
Qed.

Lemma getNeighbors_sameFlags x y range g k :
  cellwise sameFlags g k ->
  match InfrastructureConnectivityManager.getNeighbors x y range g,
        InfrastructureConnectivityManager.getNeighbors x y range k with
  | Some l, Some l' => Forall2 sameFlagsOpt l l'
  | None, None => True
  | _, _ => False
  end.
Proof.
  intros Hgk. destruct (cellwise_head_length _ _ _ Hgk) as [Hlen Hhead].
  unfold InfrastructureConnectivityManager.getNeighbors.
  destruct (head g) as [row0 |], (head k) as [row0' |]; try done.
  simpl in *. injection Hhead as Hrow0. rewrite Hlen, Hrow0.
  induction (scanBox range) as [| [dx dy] l IH]; [done |].
  csimpl. destruct (_ || _); [done |].
  destruct (distanceWithin _ _ _ _ _); [| done].
  simpl. constructor; [| done].
  apply (cellwise_at2_opt sameFlags g k _ _ Hgk).
Qed.

Lemma hasConnectivity_sameFlags type range x y g k :
  cellwise sameFlags g k ->
  InfrastructureConnectivityManager.hasConnectivity type range x y k
  = InfrastructureConnectivityManager.hasConnectivity type range x y g.
Proof.
  intros Hgk. destruct (cellwise_head_length _ _ _ Hgk) as [Hlen Hhead].
  unfold InfrastructureConnectivityManager.hasConnectivity.
  destruct (x <? 0); [done |].
  pose proof (getNeighbors_sameFlags x y range g k Hgk) as Hn.
  pose proof (cellwise_at2_opt sameFlags g k x y Hgk) as Hat.
  destruct (head g) as [row0 |] eqn:Hg, (head k) as [row0' |] eqn:Hk;
    try done.
  simpl in *. injection Hhead as Hrow0. rewrite Hlen, Hrow0.
  destruct (_ || _); [done |].
  destruct (at2 g x y) as [a |], (at2 k x y) as [b |]; try done.
  simpl. destruct Hat as [-> _].
  destruct (hasInfrastructure _ _); [done |].
  destruct (InfrastructureConnectivityManager.getNeighbors x y range g),
    (InfrastructureConnectivityManager.getNeighbors x y range k);
    try done.
  simpl. by apply someHasInfrastructure_sameFlags.
Qed.

Lemma buildingCells_sameFlags g k :
  cellwise sameFlags g k ->
  (fun c => (c.1.1, c.1.2))
    <$> InfrastructureConnectivityManager.buildingCells k
  = (fun c => (c.1.1, c.1.2))
      <$> InfrastructureConnectivityManager.buildingCells g.
Proof.
  unfold InfrastructureConnectivityManager.buildingCells.
  set (pick := fun (y : nat) (p : nat * GridCell) =>
                 let '(x, cell) := p in
                 match cell_building cell with
                 | Some _ => Some (Z.of_nat x, Z.of_nat y, cell)
                 | None => None
                 end).
  assert (Hrow : forall r r', Forall2 sameFlags r r' ->
            forall (s : nat -> nat) y,
              (fun c : Z * Z * GridCell => (c.1.1, c.1.2))
                <$> omap (pick y) (imap (fun x cell => (s x, cell)) r')
              = (fun c : Z * Z * GridCell => (c.1.1, c.1.2))
                  <$> omap (pick y) (imap (fun x cell => (s x, cell)) r)).
  { induction 1 as [| a b r r' Hab _ IH]; intros s y; [done |].
    csimpl. destruct Hab as [_ Hb]. rewrite Hb.
    destruct (cell_building a); csimpl.
    - f_equal. apply (IH (s ∘ S)).
    - apply (IH (s ∘ S)). }
  intros Hgk.
  assert (Hgen : forall (t : nat -> nat),
            (fun c : Z * Z * GridCell => (c.1.1, c.1.2))
              <$> concat (imap (fun y row =>
                                  omap (pick (t y))
                                    (imap (fun x cell => (x, cell)) row)) k)
            = (fun c : Z * Z * GridCell => (c.1.1, c.1.2))
                <$> concat (imap (fun y row =>
                                    omap (pick (t y))
                                      (imap (fun x cell => (x, cell)) row))
                                 g)).
  { induction Hgk as [| r r' g k Hr _ IH]; intros t; [done |].
    csimpl. rewrite !fmap_app. f_equal.
    - apply (Hrow r r' Hr (fun x => x)).
    - apply (IH (t ∘ S)). }
  apply (Hgen (fun y => y)).
Qed.

Lemma cellwise_sameFlags_trans g1 g2 g3 :
  cellwise sameFlags g1 g2 -> cellwise sameFlags g2 g3 ->
  cellwise sameFlags g1 g3.
Proof.
  unfold cellwise. intros H12 H23.
  eapply Forall2_trans; [| exact H12 | exact H23].
  intros r1 r2 r3 Ha Hb. eapply Forall2_trans; [| exact Ha | exact Hb].
  unfold sameFlags. intros a b c [Hi Hb'] [Hi' Hb'']. split; congruence.
Qed.

Lemma updateGridPowerStatus_sameFlags grid pg :
  cellwise sameFlags grid (updateGridPowerStatus grid pg).
Proof.
  unfold updateGridPowerStatus.
  assert (Hstart :
    cellwise sameFlags grid (map (map (setPower false None 0 0)) grid)).
  { unfold cellwise. apply Forall2_fmap_r, Forall_Forall2_diag, Forall_forall.
    intros row _. apply Forall2_fmap_r, Forall_Forall2_diag, Forall_forall.
    by intros cell _. }
  revert Hstart. generalize (map (map (setPower false None 0 0)) grid).
  induction (nodes pg) as [| node rest IH]; intros k Hk; [done |].
  simpl. apply IH. destruct (head k); [| done].
  destruct (inBounds _ _ _ _); [| done].
  by apply cellwise_alter2.
Qed.

Section Annotations.
Context `{BuildingStats}.

Lemma getBuildingConnectivity_sameFlags x y g k :
  cellwise sameFlags g k ->
  InfrastructureConnectivityManager.getBuildingConnectivity x y k
  = InfrastructureConnectivityManager.getBuildingConnectivity x y g.
Proof.
  intros Hgk.
  unfold InfrastructureConnectivityManager.getBuildingConnectivity,
    InfrastructureConnectivityManager.hasRoadConnectivity,
    InfrastructureConnectivityManager.hasPowerConnectivity,
    InfrastructureConnectivityManager.hasWaterConnectivity.
  rewrite !(hasConnectivity_sameFlags _ _ x y g k Hgk).
  destruct (InfrastructureConnectivityManager.hasConnectivity road _ x y g);
    [| done].
  destruct (InfrastructureConnectivityManager.hasConnectivity power _ x y g);
    [| done].
  destruct (InfrastructureConnectivityManager.hasConnectivity water _ x y g);
    [| done].
  simpl. pose proof (cellwise_at2_opt sameFlags g k x y Hgk) as Hat.
  destruct (at2 g x y) as [a |], (at2 k x y) as [b' |]; try done.
  simpl. destruct Hat as [_ ->]. done.
Qed.

Lemma updateGridConnectivity_sameFlags grid grid' :
  InfrastructureConnectivityManager.updateGridConnectivity grid
  = Some grid' ->
  cellwise sameFlags grid grid'.
Proof.
  unfold InfrastructureConnectivityManager.updateGridConnectivity.
  generalize (InfrastructureConnectivityManager.buildingCells grid).
  intros cells.
  assert (Hstart : forall k, Some grid = Some k -> cellwise sameFlags grid k).
  { intros k [= <-]. by apply cellwise_refl. }
  revert Hstart. generalize (Some grid).
  induction cells as [| [[x y] cell] rest IH]; intros acc Hacc Hfold.
  - by apply Hacc.
  - simpl in Hfold. eapply IH; [| exact Hfold].
    intros k Hk. destruct acc as [g |]; [| done]. simpl in Hk.
    destruct (InfrastructureConnectivityManager.getBuildingConnectivity
                x y g) as [conn |]; [| done].
    injection Hk as <-. apply cellwise_alter2; [by intros a b |].
    by apply Hacc.
Qed.

Lemma getGridConnectivityStats_sameFlags g k :
  cellwise sameFlags g k ->
  getGridConnectivityStats k = getGridConnectivityStats g.
Proof.
  intros Hgk. unfold getGridConnectivityStats. f_equal.
  pose proof (buildingCells_sameFlags g k Hgk) as Hcells.
  revert Hcells.
  generalize (InfrastructureConnectivityManager.buildingCells k).
  generalize (InfrastructureConnectivityManager.buildingCells g).
  generalize (Some ConnectivityStats.zero).
  intros acc l. revert acc.
  induction l as [| [[x y] c] l IH]; intros acc [| [[x' y'] c'] l'] Heq;
    try done.
  rewrite !fmap_cons in Heq. injection Heq as Hx Hy Hl. simpl in Hx, Hy.
  subst x' y'. cbn [fold_left].
  rewrite (getBuildingConnectivity_sameFlags x y g k Hgk).
  by apply IH.
Qed.

(** X28. The connectivity of a building and the connectivity summary
    depend on the infrastructure flags and the buildings of the grid
    only: on the grid as [updateGridPowerStatus] and
    [updateGridConnectivity] leave it they are what they are on the grid
    before the two passes. *)
Theorem connectivity_ignores_annotations grid pg grid' :
  InfrastructureConnectivityManager.updateGridConnectivity
    (updateGridPowerStatus grid pg) = Some grid' ->
  getGridConnectivityStats grid' = getGridConnectivityStats grid
  /\ (forall x y,
        InfrastructureConnectivityManager.getBuildingConnectivity x y grid'
        = InfrastructureConnectivityManager.getBuildingConnectivity x y grid).
Proof.
  intros Hup.
  assert (Hsame : cellwise sameFlags grid grid').
  { eapply cellwise_sameFlags_trans;
      [apply updateGridPowerStatus_sameFlags |].
    by apply updateGridConnectivity_sameFlags. }
  split; [by apply getGridConnectivityStats_sameFlags |].
  intros x y; by apply getBuildingConnectivity_sameFlags.
Qed.
End Annotations.

Lemma connectivity_ignores_annotations_witness :
  exists grid',
    @InfrastructureConnectivityManager.updateGridConnectivity zeroStats
      (updateGridPowerStatus
         [[plainCell 0 0 [road] (Some (scenarioHouse 0 0))]]
         (mkPowerGrid [] [] 0 0 0))
    = Some grid'
    /\ @getGridConnectivityStats zeroStats grid'
       = @getGridConnectivityStats zeroStats
           [[plainCell 0 0 [road] (Some (scenarioHouse 0 0))]].
Proof.
  eexists. split; [reflexivity |].
  apply (@connectivity_ignores_annotations zeroStats
           [[plainCell 0 0 [road] (Some (scenarioHouse 0 0))]]
           (mkPowerGrid [] [] 0 0 0)).
  reflexivity.
Defined.

Lemma setConnectivity_twice k cell :
  InfrastructureConnectivityManager.setConnectivity k
    (InfrastructureConnectivityManager.setConnectivity k cell)
  = InfrastructureConnectivityManager.setConnectivity k cell.
Proof. done. Qed.

Lemma elem_of_buildingCells_2 grid x y cell :
  at2 grid x y = Some cell -> is_Some (cell_building cell) ->
  (x, y, cell) ∈ InfrastructureConnectivityManager.buildingCells grid.
Proof.
  intros Hcell [b Hb].
  destruct (at2_Some_inv _ _ _ _ Hcell) as (Hx & Hy & row & Hrow & Hcol).
  unfold InfrastructureConnectivityManager.buildingCells.
  apply elem_of_concat. eexists. split.
  2:{ apply list_elem_of_lookup. exists (Z.to_nat y).
      rewrite list_lookup_imap, Hrow. reflexivity. }
  apply list_elem_of_omap. exists (Z.to_nat x, cell). split.
  - apply list_elem_of_lookup. exists (Z.to_nat x).
    rewrite list_lookup_imap, Hcol. reflexivity.
  - rewrite Hb. rewrite !Z2Nat.id by lia. done.
Qed.

Section Writes.
Context `{BuildingStats}.

Lemma updateGridConnectivity_fold grid (l : list (Z * Z * GridCell)) :
  forall g0 g',
    cellwise sameFlags grid g0 ->
    fold_left
      (fun acc '(x, y, _) =>
         g ← acc;
         k ← InfrastructureConnectivityManager.getBuildingConnectivity x y g;
         Some (alter2 (InfrastructureConnectivityManager.setConnectivity k)
                 x y g))
      l (Some g0) = Some g' ->
    forall x y,
      if decide ((x, y) ∈ (fun c => (c.1.1, c.1.2)) <$> l)
      then exists k,
             InfrastructureConnectivityManager.getBuildingConnectivity
               x y grid = Some k
             /\ at2 g' x y
                = InfrastructureConnectivityManager.setConnectivity k
                    <$> at2 g0 x y
      else at2 g' x y = at2 g0 x y.
Proof.
  induction l as [| [[x0 y0] c0] l IH]; intros g0 g' Hsame Hfold x y.
  { injection Hfold as <-. rewrite fmap_nil.
    destruct (decide _) as [Hin | _]; [by apply elem_of_nil in Hin | done]. }
  cbn [fold_left] in Hfold. simpl in Hfold.
  rewrite (getBuildingConnectivity_sameFlags x0 y0 grid g0 Hsame) in Hfold.
  destruct (InfrastructureConnectivityManager.getBuildingConnectivity
              x0 y0 grid) as [k0 |] eqn:Hk0.
  2:{ exfalso. clear -Hfold. induction l as [| [[? ?] ?] l IH]; [done |].
      by apply IH. }
  simpl in Hfold.
  set (g1 := alter2 (InfrastructureConnectivityManager.setConnectivity k0)
               x0 y0 g0) in *.
  assert (Hsame1 : cellwise sameFlags grid g1).
  { apply cellwise_alter2; [by intros a b | done]. }
  specialize (IH g1 g' Hsame1 Hfold x y).
  assert (Hat : at2 g1 x y
                = if decide ((x, y) = (x0, y0))
                  then InfrastructureConnectivityManager.setConnectivity k0
                         <$> at2 g0 x y
                  else at2 g0 x y).
  { subst g1. destruct (decide ((x, y) = (x0, y0))) as [[= -> ->] | Hne].
    - apply at2_alter2.
    - destruct (decide (0 <= x /\ 0 <= y)) as [[Hx Hy] | Hneg].
      + apply at2_alter2_ne; try done; congruence.
      + rewrite !at2_negative by lia. done. }
  rewrite fmap_cons. simpl.
  destruct (decide ((x, y) ∈ (fun c => (c.1.1, c.1.2)) <$> l))
    as [Hin | Hnin].
  - destruct IH as (k & Hk & Hg').
    destruct (decide ((x, y) ∈ (x0, y0) :: _)) as [_ | Hn];
      [| destruct Hn; by apply list_elem_of_further].
    exists k. split; [done |]. rewrite Hg', Hat.
    destruct (decide ((x, y) = (x0, y0))) as [[= -> ->] | Hne]; [| done].
    assert (k = k0) as -> by congruence.
    by destruct (at2 g0 x0 y0).
  - rewrite IH, Hat.
    destruct (decide ((x, y) = (x0, y0))) as [[= -> ->] | Hne].
    + destruct (decide ((x0, y0) ∈ (x0, y0) :: _)) as [_ | Hn];
        [| destruct Hn; apply list_elem_of_here].
      by exists k0.
    + destruct (decide ((x, y) ∈ (x0, y0) :: _)) as [Hin' | _]; [| done].
      apply elem_of_cons in Hin' as [? | ?]; done.
Qed.

(** X29. [updateGridConnectivity] writes to every cell that holds a
    building the connectivity computed for it on the grid as it was
    given, flags of cells written earlier in the pass not counting: the
    cell's [hasRoad], [hasPower] and [hasWater], its status and its
    efficiency are replaced, so the [hasPower] that
    [updateGridPowerStatus] wrote is overwritten; a cell without a
    building is left as it was. *)
Theorem updateGridConnectivity_writes grid grid' x y cell :
  InfrastructureConnectivityManager.updateGridConnectivity grid
  = Some grid' ->
  at2 grid x y = Some cell ->
  match cell_building cell with
  | Some _ =>
      exists k,
        InfrastructureConnectivityManager.getBuildingConnectivity x y grid
        = Some k
        /\ at2 grid' x y
           = Some (InfrastructureConnectivityManager.setConnectivity k cell)
  | None => at2 grid' x y = Some cell
  end.
Proof.
  intros Hup Hcell.
  unfold InfrastructureConnectivityManager.updateGridConnectivity in Hup.
  pose proof (updateGridConnectivity_fold grid _ grid grid'
                (cellwise_refl sameFlags grid (fun a => conj eq_refl eq_refl))
                Hup x y) as Hxy.
  destruct (cell_building cell) as [b |] eqn:Hb.
  - destruct (decide _) as [_ | Hn] in Hxy.
    + destruct Hxy as (k & Hk & Hg'). exists k.
      split; [done |]. by rewrite Hg', Hcell.
    + destruct Hn. apply list_elem_of_fmap. exists (x, y, cell).
      split; [done |]. apply elem_of_buildingCells_2; [done | by eexists].
  - destruct (decide _) as [Hin | _] in Hxy; [| by rewrite Hxy].
    apply list_elem_of_fmap in Hin as ([[x' y'] c'] & [= -> ->] & Hin).
    apply elem_of_buildingCells in Hin as [Hc' [b' Hb']].
    simpl in Hc'. rewrite Hcell in Hc'. injection Hc' as <-. congruence.
Qed.
End Writes.

Lemma updateGridConnectivity_writes_witness :
  let grid :=
    [[plainCell 0 0 [road] (Some (scenarioHouse 0 0));
      plainCell 1 0 [power] None]] in
  exists grid',
    @InfrastructureConnectivityManager.updateGridConnectivity zeroStats grid
    = Some grid'
    /\ at2 grid' 1 0 = Some (plainCell 1 0 [power] None).
Proof.
  intros grid. eexists. split; [reflexivity |].
  apply (@updateGridConnectivity_writes zeroStats grid _ 1 0
           (plainCell 1 0 [power] None) eq_refl eq_refl).
Defined.

(** ** When a tick returns *)

Lemma Forall_of_at2 {A} (P : A -> Prop) (a : list (list A)) :
  (forall x y v, at2 a x y = Some v -> P v) -> Forall (Forall P) a.
Proof.
  intros Hat. apply Forall_lookup. intros i row Hrow.
  apply Forall_lookup. intros j v Hv.
  apply (Hat (Z.of_nat j) (Z.of_nat i)). unfold at2.
  replace ((Z.of_nat j <? 0) || (Z.of_nat i <? 0)) with false
    by (symmetry; apply orb_false_iff; split; apply Z.ltb_ge; lia).
  by rewrite !Nat2Z.id, Hrow.
Qed.

Lemma loadCell_blockZone cell zone :
  isBlockZone cell = false ->
  Zone.isBlockZone (City.loadCell cell zone) = Zone.isBlockZone zone.
Proof.
  intros Hcell. unfold City.loadCell. rewrite Hcell. cbv zeta.
  set (z0 := match zoneType cell with
             | Some ty => Zone.setType (Some ty) zone
             | None => zone
             end).
  assert (Hz0 : Zone.blockZoneId z0 = Zone.blockZoneId zone)
    by (subst z0; by destruct (zoneType cell)).
  pose proof (fold_addInfrastructure_fields (cell_infrastructure cell) z0)
    as (_ & _ & _ & _ & _ & _ & Hid & _).
  unfold Zone.isBlockZone.
  destruct (cell_building cell); simpl; by rewrite Hid, Hz0.
Qed.

Lemma fromGridFormat_noBlockZones grid c :
  noBlockCells grid -> noBlockZones (City.zones (City.fromGridFormat grid c)).
Proof.
  intros Hgrid. apply Forall_of_at2. intros x y zone.
  rewrite at2_fromGridFormat. destruct (inBounds _ _ _ _); [| done].
  intros [= <-]. destruct (at2 grid x y) as [cell |] eqn:Hcell; [| done].
  rewrite loadCell_blockZone; [done |].
  apply (at2_Forall (fun cell => isBlockZone cell = false) grid x y cell
           Hgrid Hcell).
Qed.

Lemma growCell_noBlockZones c p w :
  noBlockZones (City.zones c) ->
  exists c1, fst (City.growCell c p w) = Some c1.
Proof.
  intros Hc. destruct p as [x y]. unfold City.growCell.
  destruct (at2 (City.zones c) x y) as [zone |] eqn:Hz;
    [| munfold; by eexists].
  assert (Hblock : Zone.isBlockZone zone = false).
  { apply (at2_Forall (fun zone => Zone.isBlockZone zone = false)
             (City.zones c) x y zone Hc Hz). }
  unfold Zone.getType. rewrite Hblock.
  destruct (Zone.getBuilding zone); munfold.
  - destruct (City.upgradeCell zone w). by eexists.
  - destruct (City.growSingleCell zone w). by eexists.
Qed.

Lemma grownFrom_noBlockZones zs zs' :
  zonewise grownFrom zs zs' -> noBlockZones zs -> noBlockZones zs'.
Proof.
  intros Hzs. apply (Forall_zonewise _ grownFrom); [| done].
  intros z z' (_ & _ & _ & _ & _ & _ & Hid & _) Hz.
  unfold Zone.isBlockZone in *. by rewrite Hid.
Qed.

Lemma simulateBuildingGrowth_noBlockZones c w :
  noBlockZones (City.zones c) ->
  exists c', fst (City.simulateBuildingGrowth c w) = Some c'.
Proof.
  unfold City.simulateBuildingGrowth.
  generalize (coords (City.gridWidth c) (City.gridHeight c)). intros l.
  revert c w. induction l as [| p l IH]; intros c w Hc; simpl.
  - by eexists.
  - munfold. destruct (growCell_noBlockZones c p w Hc) as [c1 Hc1].
    pose proof (growCell_grownFrom c p w c1 Hc1) as (Hz & _).
    destruct (City.growCell c p w) as [o w1]. simpl in Hc1. subst o.
    apply IH. by eapply grownFrom_noBlockZones.
Qed.

Section Returns.
Context `{BuildingStats}.

Lemma applyWeatherEffects_blocks zones w :
  zonewise (fun z z' => Zone.blockZoneId z' = Zone.blockZoneId z)
    zones (fst (WeatherManager.applyWeatherEffects zones w)).
Proof.
  unfold WeatherManager.applyWeatherEffects. munfold. simpl.
  apply Forall2_fmap_r, Forall_Forall2_diag, Forall_forall. intros row _.
  apply Forall2_fmap_r, Forall_Forall2_diag, Forall_forall. by intros z _.
Qed.

Lemma updateAllZoneHappiness_blocks zones w h :
  zonewise (fun z z' => Zone.blockZoneId z' = Zone.blockZoneId z) zones
    (HappinessManager.updateAllZoneHappiness zones w h).
Proof.
  unfold HappinessManager.updateAllZoneHappiness.
  assert (Hstart :
    zonewise (fun z z' => Zone.blockZoneId z' = Zone.blockZoneId z)
      zones zones) by (by apply zonewise_refl).
  revert Hstart. generalize zones at 2 4. generalize (coords w h).
  induction l as [| [x y] l IH]; intros zs Hzs; simpl; [done |].
  apply IH. unfold HappinessManager.updateZoneHappinessAt.
  destruct (at2 zs x y) as [zone |]; [| done]. cbn.
  by apply zonewise_alter2_at.
Qed.

Lemma City_simulate_noBlockZones c w :
  noBlockZones (City.zones c) -> is_Some (fst (City.simulate c w)).
Proof.
  intros Hc. rewrite City_simulate_passes. cbv zeta.
  set (w1 := snd (WeatherManager.updateWeather w)).
  set (r := WeatherManager.applyWeatherEffects (City.zones c) w1).
  set (zones2 := HappinessManager.updateAllZoneHappiness (fst r)
                   (City.gridWidth c) (City.gridHeight c)).
  assert (Hzones2 : noBlockZones zones2).
  { apply (Forall_zonewise _
             (fun z z' => Zone.blockZoneId z' = Zone.blockZoneId z)
             (fst r) zones2);
      [| apply updateAllZoneHappiness_blocks |].
    - intros z z' Hid Hz. unfold Zone.isBlockZone in *. by rewrite Hid.
    - apply (Forall_zonewise _
               (fun z z' => Zone.blockZoneId z' = Zone.blockZoneId z)
               (City.zones c) (fst r));
        [| apply applyWeatherEffects_blocks | done].
      intros z z' Hid Hz. unfold Zone.isBlockZone in *. by rewrite Hid. }
  destruct (simulateBuildingGrowth_noBlockZones (City.setZones zones2 c)
              (snd r) Hzones2) as [c' Hc'].
  fold w1. fold r. fold zones2. cbn [fst]. rewrite Hc'. by eexists.
Qed.

(** X12. [simulate(grid)] returns an update for every city and every grid
    none of whose cells is marked as part of a block: the growth pass
    then never comes to build on a block, which is where it ends in a
    ReferenceError, and none of the unguarded reads of [grid[0]], of a
    cell or of a zone that the other passes make can fail, because they
    work on the city's own rectangular snapshot. *)
Theorem SimulationEngine_simulate_returns grid c w :
  noBlockCells grid ->
  exists u c' w',
    SimulationEngine.simulate (Some grid) c w = (Some (u, c'), w').
Proof.
  intros Hgrid.
  destruct (SimulationEngine_simulate_defined grid c w) as [[u c'] Hrun].
  { apply City_simulate_noBlockZones. by apply fromGridFormat_noBlockZones. }
  destruct (SimulationEngine.simulate (Some grid) c w) as [o w'].
  simpl in Hrun. subst o. by exists u, c', w'.
Qed.
End Returns.

Lemma SimulationEngine_simulate_returns_witness :
  exists u c' w',
    @SimulationEngine.simulate zeroStats (Some [[servedCell]]) (City.new 1 1)
      calmWorld
    = (Some (u, c'), w').
Proof.
  apply (@SimulationEngine_simulate_returns zeroStats [[servedCell]]
           (City.new 1 1) calmWorld).
  repeat constructor.
Defined.

(** ** Where the growth pass ends in an error *)

Lemma scanBlock_anchor c x y total count zone :
  City.scanBlock c (City.blockCells x y) 0 0 = Some (total, count) ->
  at2 (City.zones c) x y = Some zone ->
  City.getZone x y c = Some zone.
Proof.
  unfold City.blockCells. cbn [City.scanBlock]. unfold City.getZone.
  destruct (City.outOfBounds x y c); [done |]. by intros _.
Qed.

Lemma canBlockZoneGrow_run zone c w x y :
  Zone.getBlockZoneX zone = Some x -> Zone.getBlockZoneY zone = Some y ->
  City.canBlockZoneGrow zone c w
  = match City.scanBlock c (City.blockCells x y) 0 0 with
    | None => (false, w)
    | Some (total, count) =>
        (Rltb (randoms w (drawn w))
              (WeatherManager.growthModifier
                 (WeatherManager.WEATHER_EFFECTS (currentWeather w)))
         && Rgtb (total / IZR count) 40,
         mkWorld (randoms w) (S (drawn w)) (clock w) (currentWeather w)
           (weatherDuration w))
    end.
Proof.
  intros Hx Hy. unfold City.canBlockZoneGrow. rewrite Hx, Hy.
  destruct (City.scanBlock c _ _ _) as [[total count] |]; [| done].
  munfold. by rewrite canGrowInCurrentWeather_run.
Qed.

Lemma createBlockBuilding_error x y ty c w zone total count :
  City.getZone x y c = Some zone ->
  Zone.isBlockZone zone = true ->
  Zone.getBlockZoneX zone = Some x -> Zone.getBlockZoneY zone = Some y ->
  City.scanBlock c (City.blockCells x y) 0 0 = Some (total, count) ->
  City.createBlockBuilding x y ty c w = (None, w).
Proof.
  intros Hz Hblock Hx Hy Hscan. unfold City.createBlockBuilding.
  rewrite Hz, Hblock, Hx, Hy, Hscan. simpl. munfold. unfold Date_now.
  by destruct ty.
Qed.

(** X30. At a cell of the city, the body of the growth pass ends in the
    ReferenceError exactly when it comes to build on a block: the cell
    holds no building and is the top-left cell of a block, the four cells
    of the block are inside the grid and carry road, power and water, the
    weather check permits growth and the average happiness of the four
    cells exceeds 40. *)
Theorem growCell_error c x y w :
  is_Some (at2 (City.zones c) x y) ->
  fst (City.growCell c (x, y) w) = None
  <-> exists zone total count,
        at2 (City.zones c) x y = Some zone
        /\ Zone.getBuilding zone = None
        /\ Zone.isBlockZone zone = true
        /\ Zone.getBlockZoneX zone = Some x
        /\ Zone.getBlockZoneY zone = Some y
        /\ City.scanBlock c (City.blockCells x y) 0 0 = Some (total, count)
        /\ (randoms w (drawn w)
            < WeatherManager.growthModifier
                (WeatherManager.WEATHER_EFFECTS (currentWeather w)))%R
        /\ (total / IZR count > 40)%R.
Proof.
  intros _. unfold City.growCell. split.
  - destruct (at2 (City.zones c) x y) as [zone |] eqn:Hz; [| by munfold].
    unfold Zone.getType.
    destruct (Zone.getBuilding zone) eqn:Hb.
    { munfold. by destruct (City.upgradeCell zone w). }
    destruct (Zone.isBlockZone zone) eqn:Hblock.
    2:{ munfold. by destruct (City.growSingleCell zone w). }
    destruct (bool_decide (Zone.getBlockZoneX zone = Some x)) eqn:Hx;
      [| by munfold].
    destruct (bool_decide (Zone.getBlockZoneY zone = Some y)) eqn:Hy;
      [| by munfold].
    apply bool_decide_eq_true in Hx, Hy. cbn [andb]. munfold.
    rewrite (canBlockZoneGrow_run zone c w x y Hx Hy).
    destruct (City.scanBlock c _ _ _) as [[total count] |] eqn:Hscan;
      [| done].
    destruct (Rltb _ _) eqn:Hweather; [| done].
    destruct (Rgtb _ _) eqn:Hhappy; [| done]. cbn [andb].
    intros _. exists zone, total, count.
    apply Rltb_spec in Hweather. apply Rgtb_spec in Hhappy. by repeat split.
  - intros (zone & total & count & Hz & Hb & Hblock & Hx & Hy & Hscan
            & Hweather & Hhappy).
    rewrite Hz. unfold Zone.getType. rewrite Hb, Hblock.
    rewrite !bool_decide_eq_true_2 by done. cbn [andb]. munfold.
    rewrite (canBlockZoneGrow_run zone c w x y Hx Hy), Hscan.
    apply Rltb_spec in Hweather. apply Rgtb_spec in Hhappy.
    rewrite Hweather, Hhappy. cbn [andb].
    rewrite (createBlockBuilding_error x y (Zone.type zone) c _ zone total
               count); try done.
    by eapply scanBlock_anchor.
Qed.

Lemma growCell_error_witness :
  let zone x y :=
    Zone.mk x y RESIDENTIAL [road; power; water] None 50 0
      (Some (zone_block 0 0 0)) (Some 0) (Some 0) in
  let c := City.mk [[zone 0 0; zone 1 0]; [zone 0 1; zone 1 1]] 2 2 in
  fst (City.growCell c (0, 0) calmWorld) = None.
Proof.
  intros zone c. apply (growCell_error c 0 0 calmWorld); [by eexists |].
  exists (zone 0 0), (0 + 50 + 50 + 50 + 50)%R, 4.
  repeat split; try reflexivity; simpl; lra.
Defined.
